(** * Field catalogue extraction from WebI report containers

    A shallow embedding of [wid_script_SAP.py] and the properties of its
    extraction pipeline.

    Conventions of the embedding.
    - A Python [str] is a list of Unicode code points ([text]); a Python
      [bytes] is a [list byte].
    - A Python [dict] is an association list in insertion order: assigning
      to an existing key keeps the key's position and replaces the value.
    - A [try]/[except] around a call is a match on an [option]; a raised
      exception that leaves [extract_field_mappings] is a result [Raised].
    - [print] calls are not modelled.
    - The archive is given with the bytes of its entries, and the outcome
      [Written] records the tables that are passed to the writers of the two
      files.  An exception of [z.read], of [to_excel] or of [to_csv] is not
      modelled, and no property below says that these calls succeed.
    - The classes [\d], [\w] and [\b] of the patterns and the methods
      [str.upper] and [str.lower] follow the Unicode tables of CPython 3.11
      (Unicode 14.0.0).
    - The ZIP reader and the XML parser are libraries: the pipeline takes
      them as parameters. *)

From Stdlib Require Import List Bool Arith NArith Lia String Ascii.
From Stdlib Require Import Strings.Byte.
From Stdlib Require Import Sorting.Sorted Sorting.Permutation.
Import ListNotations.

Open Scope list_scope.
Open Scope N_scope.

(** ** Text *)

Definition char := N.
Definition text := list char.

(** A Python string literal. *)
Definition py (s : string) : text :=
  List.map N_of_ascii (list_ascii_of_string s).

Definition ch (a : ascii) : char := N_of_ascii a.

Definition text_eqb (a b : text) : bool :=
  if list_eq_dec N.eq_dec a b then true else false.

Definition between (lo hi c : char) : bool := (lo <=? c) && (c <=? hi).

Definition is_upper (c : char) : bool := between 65 90 c.
Definition is_lower (c : char) : bool := between 97 122 c.
Definition is_digit (c : char) : bool := between 48 57 c.
Definition is_letter (c : char) : bool := is_upper c || is_lower c.
Definition is_alnum (c : char) : bool := is_letter c || is_digit c.

(** [str.isspace] of one character, which is also the class [\s] of a
    [str] pattern: the Unicode white space of CPython. *)
Definition isspace (c : char) : bool :=
  between 9 13 c || between 28 32 c || (c =? 133) || (c =? 160)
  || (c =? 5760) || between 8192 8202 c || (c =? 8232) || (c =? 8233)
  || (c =? 8239) || (c =? 8287) || (c =? 12288).

(** Membership in a table of code point ranges, in increasing order. *)
Fixpoint in_ranges (c : char) (rs : list (N * N)) : bool :=
  match rs with
  | [] => false
  | (lo, hi) :: r =>
      if c <? lo then false
      else if c <=? hi then true
      else in_ranges c r
  end.

(** The tables of this section are those of the Unicode character
    database 14.0, which CPython 3.11 carries. *)

(** [str.isdecimal] of one character: the decimal digits of all
    scripts. *)
Definition decimal_ranges : list (N * N) :=
  [(48, 57); (1632, 1641); (1776, 1785); (1984, 1993); (2406, 2415); (2534, 2543);
   (2662, 2671); (2790, 2799); (2918, 2927); (3046, 3055); (3174, 3183); (3302, 3311);
   (3430, 3439); (3558, 3567); (3664, 3673); (3792, 3801); (3872, 3881); (4160, 4169);
   (4240, 4249); (6112, 6121); (6160, 6169); (6470, 6479); (6608, 6617); (6784, 6793);
   (6800, 6809); (6992, 7001); (7088, 7097); (7232, 7241); (7248, 7257); (42528, 42537);
   (43216, 43225); (43264, 43273); (43472, 43481); (43504, 43513); (43600, 43609); (44016, 44025);
   (65296, 65305); (66720, 66729); (68912, 68921); (69734, 69743); (69872, 69881); (69942, 69951);
   (70096, 70105); (70384, 70393); (70736, 70745); (70864, 70873); (71248, 71257); (71360, 71369);
   (71472, 71481); (71904, 71913); (72016, 72025); (72784, 72793); (73040, 73049); (73120, 73129);
   (92768, 92777); (92864, 92873); (93008, 93017); (120782, 120831); (123200, 123209); (123632, 123641);
   (125264, 125273); (130032, 130041)].

(** [str.isalnum] of one character: the letters and the numeric
    characters of all scripts. *)
Definition alnum_ranges : list (N * N) :=
  [(48, 57); (65, 90); (97, 122); (170, 170); (178, 179); (181, 181);
   (185, 186); (188, 190); (192, 214); (216, 246); (248, 705); (710, 721);
   (736, 740); (748, 748); (750, 750); (880, 884); (886, 887); (890, 893);
   (895, 895); (902, 902); (904, 906); (908, 908); (910, 929); (931, 1013);
   (1015, 1153); (1162, 1327); (1329, 1366); (1369, 1369); (1376, 1416); (1488, 1514);
   (1519, 1522); (1568, 1610); (1632, 1641); (1646, 1647); (1649, 1747); (1749, 1749);
   (1765, 1766); (1774, 1788); (1791, 1791); (1808, 1808); (1810, 1839); (1869, 1957);
   (1969, 1969); (1984, 2026); (2036, 2037); (2042, 2042); (2048, 2069); (2074, 2074);
   (2084, 2084); (2088, 2088); (2112, 2136); (2144, 2154); (2160, 2183); (2185, 2190);
   (2208, 2249); (2308, 2361); (2365, 2365); (2384, 2384); (2392, 2401); (2406, 2415);
   (2417, 2432); (2437, 2444); (2447, 2448); (2451, 2472); (2474, 2480); (2482, 2482);
   (2486, 2489); (2493, 2493); (2510, 2510); (2524, 2525); (2527, 2529); (2534, 2545);
   (2548, 2553); (2556, 2556); (2565, 2570); (2575, 2576); (2579, 2600); (2602, 2608);
   (2610, 2611); (2613, 2614); (2616, 2617); (2649, 2652); (2654, 2654); (2662, 2671);
   (2674, 2676); (2693, 2701); (2703, 2705); (2707, 2728); (2730, 2736); (2738, 2739);
   (2741, 2745); (2749, 2749); (2768, 2768); (2784, 2785); (2790, 2799); (2809, 2809);
   (2821, 2828); (2831, 2832); (2835, 2856); (2858, 2864); (2866, 2867); (2869, 2873);
   (2877, 2877); (2908, 2909); (2911, 2913); (2918, 2927); (2929, 2935); (2947, 2947);
   (2949, 2954); (2958, 2960); (2962, 2965); (2969, 2970); (2972, 2972); (2974, 2975);
   (2979, 2980); (2984, 2986); (2990, 3001); (3024, 3024); (3046, 3058); (3077, 3084);
   (3086, 3088); (3090, 3112); (3114, 3129); (3133, 3133); (3160, 3162); (3165, 3165);
   (3168, 3169); (3174, 3183); (3192, 3198); (3200, 3200); (3205, 3212); (3214, 3216);
   (3218, 3240); (3242, 3251); (3253, 3257); (3261, 3261); (3293, 3294); (3296, 3297);
   (3302, 3311); (3313, 3314); (3332, 3340); (3342, 3344); (3346, 3386); (3389, 3389);
   (3406, 3406); (3412, 3414); (3416, 3425); (3430, 3448); (3450, 3455); (3461, 3478);
   (3482, 3505); (3507, 3515); (3517, 3517); (3520, 3526); (3558, 3567); (3585, 3632);
   (3634, 3635); (3648, 3654); (3664, 3673); (3713, 3714); (3716, 3716); (3718, 3722);
   (3724, 3747); (3749, 3749); (3751, 3760); (3762, 3763); (3773, 3773); (3776, 3780);
   (3782, 3782); (3792, 3801); (3804, 3807); (3840, 3840); (3872, 3891); (3904, 3911);
   (3913, 3948); (3976, 3980); (4096, 4138); (4159, 4169); (4176, 4181); (4186, 4189);
   (4193, 4193); (4197, 4198); (4206, 4208); (4213, 4225); (4238, 4238); (4240, 4249);
   (4256, 4293); (4295, 4295); (4301, 4301); (4304, 4346); (4348, 4680); (4682, 4685);
   (4688, 4694); (4696, 4696); (4698, 4701); (4704, 4744); (4746, 4749); (4752, 4784);
   (4786, 4789); (4792, 4798); (4800, 4800); (4802, 4805); (4808, 4822); (4824, 4880);
   (4882, 4885); (4888, 4954); (4969, 4988); (4992, 5007); (5024, 5109); (5112, 5117);
   (5121, 5740); (5743, 5759); (5761, 5786); (5792, 5866); (5870, 5880); (5888, 5905);
   (5919, 5937); (5952, 5969); (5984, 5996); (5998, 6000); (6016, 6067); (6103, 6103);
   (6108, 6108); (6112, 6121); (6128, 6137); (6160, 6169); (6176, 6264); (6272, 6276);
   (6279, 6312); (6314, 6314); (6320, 6389); (6400, 6430); (6470, 6509); (6512, 6516);
   (6528, 6571); (6576, 6601); (6608, 6618); (6656, 6678); (6688, 6740); (6784, 6793);
   (6800, 6809); (6823, 6823); (6917, 6963); (6981, 6988); (6992, 7001); (7043, 7072);
   (7086, 7141); (7168, 7203); (7232, 7241); (7245, 7293); (7296, 7304); (7312, 7354);
   (7357, 7359); (7401, 7404); (7406, 7411); (7413, 7414); (7418, 7418); (7424, 7615);
   (7680, 7957); (7960, 7965); (7968, 8005); (8008, 8013); (8016, 8023); (8025, 8025);
   (8027, 8027); (8029, 8029); (8031, 8061); (8064, 8116); (8118, 8124); (8126, 8126);
   (8130, 8132); (8134, 8140); (8144, 8147); (8150, 8155); (8160, 8172); (8178, 8180);
   (8182, 8188); (8304, 8305); (8308, 8313); (8319, 8329); (8336, 8348); (8450, 8450);
   (8455, 8455); (8458, 8467); (8469, 8469); (8473, 8477); (8484, 8484); (8486, 8486);
   (8488, 8488); (8490, 8493); (8495, 8505); (8508, 8511); (8517, 8521); (8526, 8526);
   (8528, 8585); (9312, 9371); (9450, 9471); (10102, 10131); (11264, 11492); (11499, 11502);
   (11506, 11507); (11517, 11517); (11520, 11557); (11559, 11559); (11565, 11565); (11568, 11623);
   (11631, 11631); (11648, 11670); (11680, 11686); (11688, 11694); (11696, 11702); (11704, 11710);
   (11712, 11718); (11720, 11726); (11728, 11734); (11736, 11742); (11823, 11823); (12293, 12295);
   (12321, 12329); (12337, 12341); (12344, 12348); (12353, 12438); (12445, 12447); (12449, 12538);
   (12540, 12543); (12549, 12591); (12593, 12686); (12690, 12693); (12704, 12735); (12784, 12799);
   (12832, 12841); (12872, 12879); (12881, 12895); (12928, 12937); (12977, 12991); (13312, 19903);
   (19968, 42124); (42192, 42237); (42240, 42508); (42512, 42539); (42560, 42606); (42623, 42653);
   (42656, 42735); (42775, 42783); (42786, 42888); (42891, 42954); (42960, 42961); (42963, 42963);
   (42965, 42969); (42994, 43009); (43011, 43013); (43015, 43018); (43020, 43042); (43056, 43061);
   (43072, 43123); (43138, 43187); (43216, 43225); (43250, 43255); (43259, 43259); (43261, 43262);
   (43264, 43301); (43312, 43334); (43360, 43388); (43396, 43442); (43471, 43481); (43488, 43492);
   (43494, 43518); (43520, 43560); (43584, 43586); (43588, 43595); (43600, 43609); (43616, 43638);
   (43642, 43642); (43646, 43695); (43697, 43697); (43701, 43702); (43705, 43709); (43712, 43712);
   (43714, 43714); (43739, 43741); (43744, 43754); (43762, 43764); (43777, 43782); (43785, 43790);
   (43793, 43798); (43808, 43814); (43816, 43822); (43824, 43866); (43868, 43881); (43888, 44002);
   (44016, 44025); (44032, 55203); (55216, 55238); (55243, 55291); (63744, 64109); (64112, 64217);
   (64256, 64262); (64275, 64279); (64285, 64285); (64287, 64296); (64298, 64310); (64312, 64316);
   (64318, 64318); (64320, 64321); (64323, 64324); (64326, 64433); (64467, 64829); (64848, 64911);
   (64914, 64967); (65008, 65019); (65136, 65140); (65142, 65276); (65296, 65305); (65313, 65338);
   (65345, 65370); (65382, 65470); (65474, 65479); (65482, 65487); (65490, 65495); (65498, 65500);
   (65536, 65547); (65549, 65574); (65576, 65594); (65596, 65597); (65599, 65613); (65616, 65629);
   (65664, 65786); (65799, 65843); (65856, 65912); (65930, 65931); (66176, 66204); (66208, 66256);
   (66273, 66299); (66304, 66339); (66349, 66378); (66384, 66421); (66432, 66461); (66464, 66499);
   (66504, 66511); (66513, 66517); (66560, 66717); (66720, 66729); (66736, 66771); (66776, 66811);
   (66816, 66855); (66864, 66915); (66928, 66938); (66940, 66954); (66956, 66962); (66964, 66965);
   (66967, 66977); (66979, 66993); (66995, 67001); (67003, 67004); (67072, 67382); (67392, 67413);
   (67424, 67431); (67456, 67461); (67463, 67504); (67506, 67514); (67584, 67589); (67592, 67592);
   (67594, 67637); (67639, 67640); (67644, 67644); (67647, 67669); (67672, 67702); (67705, 67742);
   (67751, 67759); (67808, 67826); (67828, 67829); (67835, 67867); (67872, 67897); (67968, 68023);
   (68028, 68047); (68050, 68096); (68112, 68115); (68117, 68119); (68121, 68149); (68160, 68168);
   (68192, 68222); (68224, 68255); (68288, 68295); (68297, 68324); (68331, 68335); (68352, 68405);
   (68416, 68437); (68440, 68466); (68472, 68497); (68521, 68527); (68608, 68680); (68736, 68786);
   (68800, 68850); (68858, 68899); (68912, 68921); (69216, 69246); (69248, 69289); (69296, 69297);
   (69376, 69415); (69424, 69445); (69457, 69460); (69488, 69505); (69552, 69579); (69600, 69622);
   (69635, 69687); (69714, 69743); (69745, 69746); (69749, 69749); (69763, 69807); (69840, 69864);
   (69872, 69881); (69891, 69926); (69942, 69951); (69956, 69956); (69959, 69959); (69968, 70002);
   (70006, 70006); (70019, 70066); (70081, 70084); (70096, 70106); (70108, 70108); (70113, 70132);
   (70144, 70161); (70163, 70187); (70272, 70278); (70280, 70280); (70282, 70285); (70287, 70301);
   (70303, 70312); (70320, 70366); (70384, 70393); (70405, 70412); (70415, 70416); (70419, 70440);
   (70442, 70448); (70450, 70451); (70453, 70457); (70461, 70461); (70480, 70480); (70493, 70497);
   (70656, 70708); (70727, 70730); (70736, 70745); (70751, 70753); (70784, 70831); (70852, 70853);
   (70855, 70855); (70864, 70873); (71040, 71086); (71128, 71131); (71168, 71215); (71236, 71236);
   (71248, 71257); (71296, 71338); (71352, 71352); (71360, 71369); (71424, 71450); (71472, 71483);
   (71488, 71494); (71680, 71723); (71840, 71922); (71935, 71942); (71945, 71945); (71948, 71955);
   (71957, 71958); (71960, 71983); (71999, 71999); (72001, 72001); (72016, 72025); (72096, 72103);
   (72106, 72144); (72161, 72161); (72163, 72163); (72192, 72192); (72203, 72242); (72250, 72250);
   (72272, 72272); (72284, 72329); (72349, 72349); (72368, 72440); (72704, 72712); (72714, 72750);
   (72768, 72768); (72784, 72812); (72818, 72847); (72960, 72966); (72968, 72969); (72971, 73008);
   (73030, 73030); (73040, 73049); (73056, 73061); (73063, 73064); (73066, 73097); (73112, 73112);
   (73120, 73129); (73440, 73458); (73648, 73648); (73664, 73684); (73728, 74649); (74752, 74862);
   (74880, 75075); (77712, 77808); (77824, 78894); (82944, 83526); (92160, 92728); (92736, 92766);
   (92768, 92777); (92784, 92862); (92864, 92873); (92880, 92909); (92928, 92975); (92992, 92995);
   (93008, 93017); (93019, 93025); (93027, 93047); (93053, 93071); (93760, 93846); (93952, 94026);
   (94032, 94032); (94099, 94111); (94176, 94177); (94179, 94179); (94208, 100343); (100352, 101589);
   (101632, 101640); (110576, 110579); (110581, 110587); (110589, 110590); (110592, 110882); (110928, 110930);
   (110948, 110951); (110960, 111355); (113664, 113770); (113776, 113788); (113792, 113800); (113808, 113817);
   (119520, 119539); (119648, 119672); (119808, 119892); (119894, 119964); (119966, 119967); (119970, 119970);
   (119973, 119974); (119977, 119980); (119982, 119993); (119995, 119995); (119997, 120003); (120005, 120069);
   (120071, 120074); (120077, 120084); (120086, 120092); (120094, 120121); (120123, 120126); (120128, 120132);
   (120134, 120134); (120138, 120144); (120146, 120485); (120488, 120512); (120514, 120538); (120540, 120570);
   (120572, 120596); (120598, 120628); (120630, 120654); (120656, 120686); (120688, 120712); (120714, 120744);
   (120746, 120770); (120772, 120779); (120782, 120831); (122624, 122654); (123136, 123180); (123191, 123197);
   (123200, 123209); (123214, 123214); (123536, 123565); (123584, 123627); (123632, 123641); (124896, 124902);
   (124904, 124907); (124909, 124910); (124912, 124926); (124928, 125124); (125127, 125135); (125184, 125251);
   (125259, 125259); (125264, 125273); (126065, 126123); (126125, 126127); (126129, 126132); (126209, 126253);
   (126255, 126269); (126464, 126467); (126469, 126495); (126497, 126498); (126500, 126500); (126503, 126503);
   (126505, 126514); (126516, 126519); (126521, 126521); (126523, 126523); (126530, 126530); (126535, 126535);
   (126537, 126537); (126539, 126539); (126541, 126543); (126545, 126546); (126548, 126548); (126551, 126551);
   (126553, 126553); (126555, 126555); (126557, 126557); (126559, 126559); (126561, 126562); (126564, 126564);
   (126567, 126570); (126572, 126578); (126580, 126583); (126585, 126588); (126590, 126590); (126592, 126601);
   (126603, 126619); (126625, 126627); (126629, 126633); (126635, 126651); (127232, 127244); (130032, 130041);
   (131072, 173791); (173824, 177976); (177984, 178205); (178208, 183969); (183984, 191456); (194560, 195101);
   (196608, 201546)].

(** [\d] and [\w] of a [str] pattern. *)
Definition re_d (c : char) : bool := in_ranges c decimal_ranges.
Definition re_w (c : char) : bool := in_ranges c alnum_ranges || (c =? 95).

(** [str.isalpha] of one character, on the ASCII range. *)
Definition isalpha (c : char) : bool := is_letter c.

(** [str.lower] of a string of ASCII characters: the letters change
    case. *)
Definition lower_char (c : char) : char := if is_upper c then c + 32 else c.
Definition lower (s : text) : text := List.map lower_char s.

(** Case mappings of single code points, as runs [(lo, hi, step, t)]: the
    code points [lo], [lo + step], ... up to [hi] map to [t], [t + step],
    ... *)
Fixpoint in_runs (c : char) (rs : list (N * N * N * N)) : option char :=
  match rs with
  | [] => None
  | (lo, hi, step, t) :: r =>
      if (lo <=? c) && (c <=? hi) && ((c - lo) mod step =? 0)
      then Some (t + (c - lo))
      else in_runs c r
  end.

Definition upper_runs : list (N * N * N * N) :=
  [(97, 122, 1, 65); (181, 181, 1, 924); (224, 246, 1, 192); (248, 254, 1, 216);
   (255, 255, 1, 376); (257, 303, 2, 256); (305, 305, 1, 73); (307, 311, 2, 306);
   (314, 328, 2, 313); (331, 375, 2, 330); (378, 382, 2, 377); (383, 383, 1, 83);
   (384, 384, 1, 579); (387, 389, 2, 386); (392, 392, 1, 391); (396, 396, 1, 395);
   (402, 402, 1, 401); (405, 405, 1, 502); (409, 409, 1, 408); (410, 410, 1, 573);
   (414, 414, 1, 544); (417, 421, 2, 416); (424, 424, 1, 423); (429, 429, 1, 428);
   (432, 432, 1, 431); (436, 438, 2, 435); (441, 441, 1, 440); (445, 445, 1, 444);
   (447, 447, 1, 503); (453, 453, 1, 452); (454, 454, 1, 452); (456, 456, 1, 455);
   (457, 457, 1, 455); (459, 459, 1, 458); (460, 460, 1, 458); (462, 476, 2, 461);
   (477, 477, 1, 398); (479, 495, 2, 478); (498, 498, 1, 497); (499, 499, 1, 497);
   (501, 501, 1, 500); (505, 543, 2, 504); (547, 563, 2, 546); (572, 572, 1, 571);
   (575, 576, 1, 11390); (578, 578, 1, 577); (583, 591, 2, 582); (592, 592, 1, 11375);
   (593, 593, 1, 11373); (594, 594, 1, 11376); (595, 595, 1, 385); (596, 596, 1, 390);
   (598, 599, 1, 393); (601, 601, 1, 399); (603, 603, 1, 400); (604, 604, 1, 42923);
   (608, 608, 1, 403); (609, 609, 1, 42924); (611, 611, 1, 404); (613, 613, 1, 42893);
   (614, 614, 1, 42922); (616, 616, 1, 407); (617, 617, 1, 406); (618, 618, 1, 42926);
   (619, 619, 1, 11362); (620, 620, 1, 42925); (623, 623, 1, 412); (625, 625, 1, 11374);
   (626, 626, 1, 413); (629, 629, 1, 415); (637, 637, 1, 11364); (640, 640, 1, 422);
   (642, 642, 1, 42949); (643, 643, 1, 425); (647, 647, 1, 42929); (648, 648, 1, 430);
   (649, 649, 1, 580); (650, 651, 1, 433); (652, 652, 1, 581); (658, 658, 1, 439);
   (669, 669, 1, 42930); (670, 670, 1, 42928); (837, 837, 1, 921); (881, 883, 2, 880);
   (887, 887, 1, 886); (891, 893, 1, 1021); (940, 940, 1, 902); (941, 943, 1, 904);
   (945, 961, 1, 913); (962, 962, 1, 931); (963, 971, 1, 931); (972, 972, 1, 908);
   (973, 974, 1, 910); (976, 976, 1, 914); (977, 977, 1, 920); (981, 981, 1, 934);
   (982, 982, 1, 928); (983, 983, 1, 975); (985, 1007, 2, 984); (1008, 1008, 1, 922);
   (1009, 1009, 1, 929); (1010, 1010, 1, 1017); (1011, 1011, 1, 895); (1013, 1013, 1, 917);
   (1016, 1016, 1, 1015); (1019, 1019, 1, 1018); (1072, 1103, 1, 1040); (1104, 1119, 1, 1024);
   (1121, 1153, 2, 1120); (1163, 1215, 2, 1162); (1218, 1230, 2, 1217); (1231, 1231, 1, 1216);
   (1233, 1327, 2, 1232); (1377, 1414, 1, 1329); (4304, 4346, 1, 7312); (4349, 4351, 1, 7357);
   (5112, 5117, 1, 5104); (7296, 7296, 1, 1042); (7297, 7297, 1, 1044); (7298, 7298, 1, 1054);
   (7299, 7300, 1, 1057); (7301, 7301, 1, 1058); (7302, 7302, 1, 1066); (7303, 7303, 1, 1122);
   (7304, 7304, 1, 42570); (7545, 7545, 1, 42877); (7549, 7549, 1, 11363); (7566, 7566, 1, 42950);
   (7681, 7829, 2, 7680); (7835, 7835, 1, 7776); (7841, 7935, 2, 7840); (7936, 7943, 1, 7944);
   (7952, 7957, 1, 7960); (7968, 7975, 1, 7976); (7984, 7991, 1, 7992); (8000, 8005, 1, 8008);
   (8017, 8023, 2, 8025); (8032, 8039, 1, 8040); (8048, 8049, 1, 8122); (8050, 8053, 1, 8136);
   (8054, 8055, 1, 8154); (8056, 8057, 1, 8184); (8058, 8059, 1, 8170); (8060, 8061, 1, 8186);
   (8112, 8113, 1, 8120); (8126, 8126, 1, 921); (8144, 8145, 1, 8152); (8160, 8161, 1, 8168);
   (8165, 8165, 1, 8172); (8526, 8526, 1, 8498); (8560, 8575, 1, 8544); (8580, 8580, 1, 8579);
   (9424, 9449, 1, 9398); (11312, 11359, 1, 11264); (11361, 11361, 1, 11360); (11365, 11365, 1, 570);
   (11366, 11366, 1, 574); (11368, 11372, 2, 11367); (11379, 11379, 1, 11378); (11382, 11382, 1, 11381);
   (11393, 11491, 2, 11392); (11500, 11502, 2, 11499); (11507, 11507, 1, 11506); (11520, 11557, 1, 4256);
   (11559, 11559, 1, 4295); (11565, 11565, 1, 4301); (42561, 42605, 2, 42560); (42625, 42651, 2, 42624);
   (42787, 42799, 2, 42786); (42803, 42863, 2, 42802); (42874, 42876, 2, 42873); (42879, 42887, 2, 42878);
   (42892, 42892, 1, 42891); (42897, 42899, 2, 42896); (42900, 42900, 1, 42948); (42903, 42921, 2, 42902);
   (42933, 42947, 2, 42932); (42952, 42954, 2, 42951); (42961, 42961, 1, 42960); (42967, 42969, 2, 42966);
   (42998, 42998, 1, 42997); (43859, 43859, 1, 42931); (43888, 43967, 1, 5024); (65345, 65370, 1, 65313);
   (66600, 66639, 1, 66560); (66776, 66811, 1, 66736); (66967, 66977, 1, 66928); (66979, 66993, 1, 66940);
   (66995, 67001, 1, 66956); (67003, 67004, 1, 66964); (68800, 68850, 1, 68736); (71872, 71903, 1, 71840);
   (93792, 93823, 1, 93760); (125218, 125251, 1, 125184)].

(** The code points whose upper case has several characters. *)
Definition upper_special : list (N * text) :=
  [(223, [83; 83]); (329, [700; 78]); (496, [74; 780]); (912, [921; 776; 769]);
   (944, [933; 776; 769]); (1415, [1333; 1362]); (7830, [72; 817]); (7831, [84; 776]);
   (7832, [87; 778]); (7833, [89; 778]); (7834, [65; 702]); (8016, [933; 787]);
   (8018, [933; 787; 768]); (8020, [933; 787; 769]); (8022, [933; 787; 834]); (8064, [7944; 921]);
   (8065, [7945; 921]); (8066, [7946; 921]); (8067, [7947; 921]); (8068, [7948; 921]);
   (8069, [7949; 921]); (8070, [7950; 921]); (8071, [7951; 921]); (8072, [7944; 921]);
   (8073, [7945; 921]); (8074, [7946; 921]); (8075, [7947; 921]); (8076, [7948; 921]);
   (8077, [7949; 921]); (8078, [7950; 921]); (8079, [7951; 921]); (8080, [7976; 921]);
   (8081, [7977; 921]); (8082, [7978; 921]); (8083, [7979; 921]); (8084, [7980; 921]);
   (8085, [7981; 921]); (8086, [7982; 921]); (8087, [7983; 921]); (8088, [7976; 921]);
   (8089, [7977; 921]); (8090, [7978; 921]); (8091, [7979; 921]); (8092, [7980; 921]);
   (8093, [7981; 921]); (8094, [7982; 921]); (8095, [7983; 921]); (8096, [8040; 921]);
   (8097, [8041; 921]); (8098, [8042; 921]); (8099, [8043; 921]); (8100, [8044; 921]);
   (8101, [8045; 921]); (8102, [8046; 921]); (8103, [8047; 921]); (8104, [8040; 921]);
   (8105, [8041; 921]); (8106, [8042; 921]); (8107, [8043; 921]); (8108, [8044; 921]);
   (8109, [8045; 921]); (8110, [8046; 921]); (8111, [8047; 921]); (8114, [8122; 921]);
   (8115, [913; 921]); (8116, [902; 921]); (8118, [913; 834]); (8119, [913; 834; 921]);
   (8124, [913; 921]); (8130, [8138; 921]); (8131, [919; 921]); (8132, [905; 921]);
   (8134, [919; 834]); (8135, [919; 834; 921]); (8140, [919; 921]); (8146, [921; 776; 768]);
   (8147, [921; 776; 769]); (8150, [921; 834]); (8151, [921; 776; 834]); (8162, [933; 776; 768]);
   (8163, [933; 776; 769]); (8164, [929; 787]); (8166, [933; 834]); (8167, [933; 776; 834]);
   (8178, [8186; 921]); (8179, [937; 921]); (8180, [911; 921]); (8182, [937; 834]);
   (8183, [937; 834; 921]); (8188, [937; 921]); (64256, [70; 70]); (64257, [70; 73]);
   (64258, [70; 76]); (64259, [70; 70; 73]); (64260, [70; 70; 76]); (64261, [83; 84]);
   (64262, [83; 84]); (64275, [1348; 1350]); (64276, [1348; 1333]); (64277, [1348; 1339]);
   (64278, [1358; 1350]); (64279, [1348; 1341])].

Definition upper_of (c : char) : text :=
  match in_runs c upper_runs with
  | Some t => [t]
  | None =>
      match find (fun e => fst e =? c) upper_special with
      | Some e => snd e
      | None => [c]
      end
  end.

(** [str.upper] *)
Definition upper (s : text) : text := flat_map upper_of s.

Definition lower_runs : list (N * N * N * N) :=
  [(65, 90, 1, 97); (192, 214, 1, 224); (216, 222, 1, 248); (256, 302, 2, 257);
   (306, 310, 2, 307); (313, 327, 2, 314); (330, 374, 2, 331); (376, 376, 1, 255);
   (377, 381, 2, 378); (385, 385, 1, 595); (386, 388, 2, 387); (390, 390, 1, 596);
   (391, 391, 1, 392); (393, 394, 1, 598); (395, 395, 1, 396); (398, 398, 1, 477);
   (399, 399, 1, 601); (400, 400, 1, 603); (401, 401, 1, 402); (403, 403, 1, 608);
   (404, 404, 1, 611); (406, 406, 1, 617); (407, 407, 1, 616); (408, 408, 1, 409);
   (412, 412, 1, 623); (413, 413, 1, 626); (415, 415, 1, 629); (416, 420, 2, 417);
   (422, 422, 1, 640); (423, 423, 1, 424); (425, 425, 1, 643); (428, 428, 1, 429);
   (430, 430, 1, 648); (431, 431, 1, 432); (433, 434, 1, 650); (435, 437, 2, 436);
   (439, 439, 1, 658); (440, 440, 1, 441); (444, 444, 1, 445); (452, 452, 1, 454);
   (453, 453, 1, 454); (455, 455, 1, 457); (456, 456, 1, 457); (458, 458, 1, 460);
   (459, 475, 2, 460); (478, 494, 2, 479); (497, 497, 1, 499); (498, 500, 2, 499);
   (502, 502, 1, 405); (503, 503, 1, 447); (504, 542, 2, 505); (544, 544, 1, 414);
   (546, 562, 2, 547); (570, 570, 1, 11365); (571, 571, 1, 572); (573, 573, 1, 410);
   (574, 574, 1, 11366); (577, 577, 1, 578); (579, 579, 1, 384); (580, 580, 1, 649);
   (581, 581, 1, 652); (582, 590, 2, 583); (880, 882, 2, 881); (886, 886, 1, 887);
   (895, 895, 1, 1011); (902, 902, 1, 940); (904, 906, 1, 941); (908, 908, 1, 972);
   (910, 911, 1, 973); (913, 929, 1, 945); (931, 939, 1, 963); (975, 975, 1, 983);
   (984, 1006, 2, 985); (1012, 1012, 1, 952); (1015, 1015, 1, 1016); (1017, 1017, 1, 1010);
   (1018, 1018, 1, 1019); (1021, 1023, 1, 891); (1024, 1039, 1, 1104); (1040, 1071, 1, 1072);
   (1120, 1152, 2, 1121); (1162, 1214, 2, 1163); (1216, 1216, 1, 1231); (1217, 1229, 2, 1218);
   (1232, 1326, 2, 1233); (1329, 1366, 1, 1377); (4256, 4293, 1, 11520); (4295, 4295, 1, 11559);
   (4301, 4301, 1, 11565); (5024, 5103, 1, 43888); (5104, 5109, 1, 5112); (7312, 7354, 1, 4304);
   (7357, 7359, 1, 4349); (7680, 7828, 2, 7681); (7838, 7838, 1, 223); (7840, 7934, 2, 7841);
   (7944, 7951, 1, 7936); (7960, 7965, 1, 7952); (7976, 7983, 1, 7968); (7992, 7999, 1, 7984);
   (8008, 8013, 1, 8000); (8025, 8031, 2, 8017); (8040, 8047, 1, 8032); (8072, 8079, 1, 8064);
   (8088, 8095, 1, 8080); (8104, 8111, 1, 8096); (8120, 8121, 1, 8112); (8122, 8123, 1, 8048);
   (8124, 8124, 1, 8115); (8136, 8139, 1, 8050); (8140, 8140, 1, 8131); (8152, 8153, 1, 8144);
   (8154, 8155, 1, 8054); (8168, 8169, 1, 8160); (8170, 8171, 1, 8058); (8172, 8172, 1, 8165);
   (8184, 8185, 1, 8056); (8186, 8187, 1, 8060); (8188, 8188, 1, 8179); (8486, 8486, 1, 969);
   (8490, 8490, 1, 107); (8491, 8491, 1, 229); (8498, 8498, 1, 8526); (8544, 8559, 1, 8560);
   (8579, 8579, 1, 8580); (9398, 9423, 1, 9424); (11264, 11311, 1, 11312); (11360, 11360, 1, 11361);
   (11362, 11362, 1, 619); (11363, 11363, 1, 7549); (11364, 11364, 1, 637); (11367, 11371, 2, 11368);
   (11373, 11373, 1, 593); (11374, 11374, 1, 625); (11375, 11375, 1, 592); (11376, 11376, 1, 594);
   (11378, 11378, 1, 11379); (11381, 11381, 1, 11382); (11390, 11391, 1, 575); (11392, 11490, 2, 11393);
   (11499, 11501, 2, 11500); (11506, 11506, 1, 11507); (42560, 42604, 2, 42561); (42624, 42650, 2, 42625);
   (42786, 42798, 2, 42787); (42802, 42862, 2, 42803); (42873, 42875, 2, 42874); (42877, 42877, 1, 7545);
   (42878, 42886, 2, 42879); (42891, 42891, 1, 42892); (42893, 42893, 1, 613); (42896, 42898, 2, 42897);
   (42902, 42920, 2, 42903); (42922, 42922, 1, 614); (42923, 42923, 1, 604); (42924, 42924, 1, 609);
   (42925, 42925, 1, 620); (42926, 42926, 1, 618); (42928, 42928, 1, 670); (42929, 42929, 1, 647);
   (42930, 42930, 1, 669); (42931, 42931, 1, 43859); (42932, 42946, 2, 42933); (42948, 42948, 1, 42900);
   (42949, 42949, 1, 642); (42950, 42950, 1, 7566); (42951, 42953, 2, 42952); (42960, 42960, 1, 42961);
   (42966, 42968, 2, 42967); (42997, 42997, 1, 42998); (65313, 65338, 1, 65345); (66560, 66599, 1, 66600);
   (66736, 66771, 1, 66776); (66928, 66938, 1, 66967); (66940, 66954, 1, 66979); (66956, 66962, 1, 66995);
   (66964, 66965, 1, 67003); (68736, 68786, 1, 68800); (71840, 71871, 1, 71872); (93760, 93791, 1, 93792);
   (125184, 125217, 1, 125218)].

(** The one code point whose lower case has two characters is the
    dotted capital I. *)
Definition lower_of (c : char) : text :=
  if c =? 304 then [105; 775]
  else match in_runs c lower_runs with
       | Some t => [t]
       | None => [c]
       end.

(** The properties Case_Ignorable and Cased, the second for the code
    points that are not case-ignorable. *)
Definition case_ignorable_ranges : list (N * N) :=
  [(39, 39); (46, 46); (58, 58); (94, 94); (96, 96); (168, 168);
   (173, 173); (175, 175); (180, 180); (183, 184); (688, 879); (884, 885);
   (890, 890); (900, 901); (903, 903); (1155, 1161); (1369, 1369); (1375, 1375);
   (1425, 1469); (1471, 1471); (1473, 1474); (1476, 1477); (1479, 1479); (1524, 1524);
   (1536, 1541); (1552, 1562); (1564, 1564); (1600, 1600); (1611, 1631); (1648, 1648);
   (1750, 1757); (1759, 1768); (1770, 1773); (1807, 1807); (1809, 1809); (1840, 1866);
   (1958, 1968); (2027, 2037); (2042, 2042); (2045, 2045); (2070, 2093); (2137, 2139);
   (2184, 2184); (2192, 2193); (2200, 2207); (2249, 2306); (2362, 2362); (2364, 2364);
   (2369, 2376); (2381, 2381); (2385, 2391); (2402, 2403); (2417, 2417); (2433, 2433);
   (2492, 2492); (2497, 2500); (2509, 2509); (2530, 2531); (2558, 2558); (2561, 2562);
   (2620, 2620); (2625, 2626); (2631, 2632); (2635, 2637); (2641, 2641); (2672, 2673);
   (2677, 2677); (2689, 2690); (2748, 2748); (2753, 2757); (2759, 2760); (2765, 2765);
   (2786, 2787); (2810, 2815); (2817, 2817); (2876, 2876); (2879, 2879); (2881, 2884);
   (2893, 2893); (2901, 2902); (2914, 2915); (2946, 2946); (3008, 3008); (3021, 3021);
   (3072, 3072); (3076, 3076); (3132, 3132); (3134, 3136); (3142, 3144); (3146, 3149);
   (3157, 3158); (3170, 3171); (3201, 3201); (3260, 3260); (3263, 3263); (3270, 3270);
   (3276, 3277); (3298, 3299); (3328, 3329); (3387, 3388); (3393, 3396); (3405, 3405);
   (3426, 3427); (3457, 3457); (3530, 3530); (3538, 3540); (3542, 3542); (3633, 3633);
   (3636, 3642); (3654, 3662); (3761, 3761); (3764, 3772); (3782, 3782); (3784, 3789);
   (3864, 3865); (3893, 3893); (3895, 3895); (3897, 3897); (3953, 3966); (3968, 3972);
   (3974, 3975); (3981, 3991); (3993, 4028); (4038, 4038); (4141, 4144); (4146, 4151);
   (4153, 4154); (4157, 4158); (4184, 4185); (4190, 4192); (4209, 4212); (4226, 4226);
   (4229, 4230); (4237, 4237); (4253, 4253); (4348, 4348); (4957, 4959); (5906, 5908);
   (5938, 5939); (5970, 5971); (6002, 6003); (6068, 6069); (6071, 6077); (6086, 6086);
   (6089, 6099); (6103, 6103); (6109, 6109); (6155, 6159); (6211, 6211); (6277, 6278);
   (6313, 6313); (6432, 6434); (6439, 6440); (6450, 6450); (6457, 6459); (6679, 6680);
   (6683, 6683); (6742, 6742); (6744, 6750); (6752, 6752); (6754, 6754); (6757, 6764);
   (6771, 6780); (6783, 6783); (6823, 6823); (6832, 6862); (6912, 6915); (6964, 6964);
   (6966, 6970); (6972, 6972); (6978, 6978); (7019, 7027); (7040, 7041); (7074, 7077);
   (7080, 7081); (7083, 7085); (7142, 7142); (7144, 7145); (7149, 7149); (7151, 7153);
   (7212, 7219); (7222, 7223); (7288, 7293); (7376, 7378); (7380, 7392); (7394, 7400);
   (7405, 7405); (7412, 7412); (7416, 7417); (7468, 7530); (7544, 7544); (7579, 7679);
   (8125, 8125); (8127, 8129); (8141, 8143); (8157, 8159); (8173, 8175); (8189, 8190);
   (8203, 8207); (8216, 8217); (8228, 8228); (8231, 8231); (8234, 8238); (8288, 8292);
   (8294, 8303); (8305, 8305); (8319, 8319); (8336, 8348); (8400, 8432); (11388, 11389);
   (11503, 11505); (11631, 11631); (11647, 11647); (11744, 11775); (11823, 11823); (12293, 12293);
   (12330, 12333); (12337, 12341); (12347, 12347); (12441, 12446); (12540, 12542); (40981, 40981);
   (42232, 42237); (42508, 42508); (42607, 42610); (42612, 42621); (42623, 42623); (42652, 42655);
   (42736, 42737); (42752, 42785); (42864, 42864); (42888, 42890); (42994, 42996); (43000, 43001);
   (43010, 43010); (43014, 43014); (43019, 43019); (43045, 43046); (43052, 43052); (43204, 43205);
   (43232, 43249); (43263, 43263); (43302, 43309); (43335, 43345); (43392, 43394); (43443, 43443);
   (43446, 43449); (43452, 43453); (43471, 43471); (43493, 43494); (43561, 43566); (43569, 43570);
   (43573, 43574); (43587, 43587); (43596, 43596); (43632, 43632); (43644, 43644); (43696, 43696);
   (43698, 43700); (43703, 43704); (43710, 43711); (43713, 43713); (43741, 43741); (43756, 43757);
   (43763, 43764); (43766, 43766); (43867, 43871); (43881, 43883); (44005, 44005); (44008, 44008);
   (44013, 44013); (64286, 64286); (64434, 64450); (65024, 65039); (65043, 65043); (65056, 65071);
   (65106, 65106); (65109, 65109); (65279, 65279); (65287, 65287); (65294, 65294); (65306, 65306);
   (65342, 65342); (65344, 65344); (65392, 65392); (65438, 65439); (65507, 65507); (65529, 65531);
   (66045, 66045); (66272, 66272); (66422, 66426); (67456, 67461); (67463, 67504); (67506, 67514);
   (68097, 68099); (68101, 68102); (68108, 68111); (68152, 68154); (68159, 68159); (68325, 68326);
   (68900, 68903); (69291, 69292); (69446, 69456); (69506, 69509); (69633, 69633); (69688, 69702);
   (69744, 69744); (69747, 69748); (69759, 69761); (69811, 69814); (69817, 69818); (69821, 69821);
   (69826, 69826); (69837, 69837); (69888, 69890); (69927, 69931); (69933, 69940); (70003, 70003);
   (70016, 70017); (70070, 70078); (70089, 70092); (70095, 70095); (70191, 70193); (70196, 70196);
   (70198, 70199); (70206, 70206); (70367, 70367); (70371, 70378); (70400, 70401); (70459, 70460);
   (70464, 70464); (70502, 70508); (70512, 70516); (70712, 70719); (70722, 70724); (70726, 70726);
   (70750, 70750); (70835, 70840); (70842, 70842); (70847, 70848); (70850, 70851); (71090, 71093);
   (71100, 71101); (71103, 71104); (71132, 71133); (71219, 71226); (71229, 71229); (71231, 71232);
   (71339, 71339); (71341, 71341); (71344, 71349); (71351, 71351); (71453, 71455); (71458, 71461);
   (71463, 71467); (71727, 71735); (71737, 71738); (71995, 71996); (71998, 71998); (72003, 72003);
   (72148, 72151); (72154, 72155); (72160, 72160); (72193, 72202); (72243, 72248); (72251, 72254);
   (72263, 72263); (72273, 72278); (72281, 72283); (72330, 72342); (72344, 72345); (72752, 72758);
   (72760, 72765); (72767, 72767); (72850, 72871); (72874, 72880); (72882, 72883); (72885, 72886);
   (73009, 73014); (73018, 73018); (73020, 73021); (73023, 73029); (73031, 73031); (73104, 73105);
   (73109, 73109); (73111, 73111); (73459, 73460); (78896, 78904); (92912, 92916); (92976, 92982);
   (92992, 92995); (94031, 94031); (94095, 94111); (94176, 94177); (94179, 94180); (110576, 110579);
   (110581, 110587); (110589, 110590); (113821, 113822); (113824, 113827); (118528, 118573); (118576, 118598);
   (119143, 119145); (119155, 119170); (119173, 119179); (119210, 119213); (119362, 119364); (121344, 121398);
   (121403, 121452); (121461, 121461); (121476, 121476); (121499, 121503); (121505, 121519); (122880, 122886);
   (122888, 122904); (122907, 122913); (122915, 122916); (122918, 122922); (123184, 123197); (123566, 123566);
   (123628, 123631); (125136, 125142); (125252, 125259); (127995, 127999); (917505, 917505); (917536, 917631);
   (917760, 917999)].

Definition cased_ranges : list (N * N) :=
  [(65, 90); (97, 122); (170, 170); (181, 181); (186, 186); (192, 214);
   (216, 246); (248, 442); (444, 447); (452, 659); (661, 687); (880, 883);
   (886, 887); (891, 893); (895, 895); (902, 902); (904, 906); (908, 908);
   (910, 929); (931, 1013); (1015, 1153); (1162, 1327); (1329, 1366); (1376, 1416);
   (4256, 4293); (4295, 4295); (4301, 4301); (4304, 4346); (4349, 4351); (5024, 5109);
   (5112, 5117); (7296, 7304); (7312, 7354); (7357, 7359); (7424, 7467); (7531, 7543);
   (7545, 7578); (7680, 7957); (7960, 7965); (7968, 8005); (8008, 8013); (8016, 8023);
   (8025, 8025); (8027, 8027); (8029, 8029); (8031, 8061); (8064, 8116); (8118, 8124);
   (8126, 8126); (8130, 8132); (8134, 8140); (8144, 8147); (8150, 8155); (8160, 8172);
   (8178, 8180); (8182, 8188); (8450, 8450); (8455, 8455); (8458, 8467); (8469, 8469);
   (8473, 8477); (8484, 8484); (8486, 8486); (8488, 8488); (8490, 8493); (8495, 8500);
   (8505, 8505); (8508, 8511); (8517, 8521); (8526, 8526); (8544, 8575); (8579, 8580);
   (9398, 9449); (11264, 11387); (11390, 11492); (11499, 11502); (11506, 11507); (11520, 11557);
   (11559, 11559); (11565, 11565); (42560, 42605); (42624, 42651); (42786, 42863); (42865, 42887);
   (42891, 42894); (42896, 42954); (42960, 42961); (42963, 42963); (42965, 42969); (42997, 42998);
   (43002, 43002); (43824, 43866); (43872, 43880); (43888, 43967); (64256, 64262); (64275, 64279);
   (65313, 65338); (65345, 65370); (66560, 66639); (66736, 66771); (66776, 66811); (66928, 66938);
   (66940, 66954); (66956, 66962); (66964, 66965); (66967, 66977); (66979, 66993); (66995, 67001);
   (67003, 67004); (68736, 68786); (68800, 68850); (71840, 71903); (93760, 93823); (119808, 119892);
   (119894, 119964); (119966, 119967); (119970, 119970); (119973, 119974); (119977, 119980); (119982, 119993);
   (119995, 119995); (119997, 120003); (120005, 120069); (120071, 120074); (120077, 120084); (120086, 120092);
   (120094, 120121); (120123, 120126); (120128, 120132); (120134, 120134); (120138, 120144); (120146, 120485);
   (120488, 120512); (120514, 120538); (120540, 120570); (120572, 120596); (120598, 120628); (120630, 120654);
   (120656, 120686); (120688, 120712); (120714, 120744); (120746, 120770); (120772, 120779); (122624, 122633);
   (122635, 122654); (125184, 125251); (127280, 127305); (127312, 127337); (127344, 127369)].

Definition case_ignorable (c : char) : bool := in_ranges c case_ignorable_ranges.
Definition cased (c : char) : bool := in_ranges c cased_ranges.

(** The first character after the case-ignorable ones is cased. *)
Fixpoint cased_follows (s : text) : bool :=
  match s with
  | [] => false
  | c :: r => if case_ignorable c then cased_follows r else cased c
  end.

(** [str.lower].  A capital sigma becomes the final sigma when a cased
    character comes before it and none comes after it, case-ignorable
    characters apart; [before] tells the first of the two. *)
Fixpoint lower_from (before : bool) (s : text) : text :=
  match s with
  | [] => []
  | c :: r =>
      (if c =? 931
       then [if before && negb (cased_follows r) then 962 else 963]
       else lower_of c)
      ++ lower_from (if case_ignorable c then before else cased c) r
  end.

Definition str_lower (s : text) : text := lower_from false s.

Fixpoint lstrip (p : char -> bool) (s : text) : text :=
  match s with
  | c :: r => if p c then lstrip p r else s
  | [] => []
  end.

Definition rstrip (p : char -> bool) (s : text) : text :=
  rev (lstrip p (rev s)).

(** [s.strip()] and [s.strip('_')]. *)
Definition strip_by (p : char -> bool) (s : text) : text :=
  rstrip p (lstrip p s).
Definition strip (s : text) : text := strip_by isspace s.

Fixpoint startswith (p s : text) : bool :=
  match p, s with
  | [], _ => true
  | a :: p', b :: s' => (a =? b) && startswith p' s'
  | _ :: _, [] => false
  end.

Definition endswith (p s : text) : bool := startswith (rev p) (rev s).

(** [p in s] for two strings. *)
Fixpoint contains (p s : text) : bool :=
  startswith p s ||
  match s with
  | [] => false
  | _ :: s' => contains p s'
  end.

(** [s.split(sep)] for a one-character separator. *)
Fixpoint split_on (sep : char) (s : text) : list text :=
  match s with
  | [] => [[]]
  | c :: r =>
      if c =? sep then [] :: split_on sep r
      else match split_on sep r with
           | w :: ws => (c :: w) :: ws
           | [] => [[c]]
           end
  end.

(** [l[-2]]; [None] stands for [IndexError]. *)
Definition second_last {A} (l : list A) : option A :=
  match rev l with
  | _ :: x :: _ => Some x
  | _ => None
  end.

(** [str(i)] of a non-negative integer. *)
Fixpoint digits_of (fuel : nat) (n : N) (acc : text) : text :=
  match fuel with
  | O => acc
  | S f =>
      let acc' := (48 + n mod 10) :: acc in
      if n / 10 =? 0 then acc' else digits_of f (n / 10) acc'
  end.

Definition str_of_nat (i : nat) : text :=
  digits_of (S i) (N.of_nat i) [].

(** ** Regular expressions

    The patterns of the script are sequences of single characters,
    character classes, quantified classes, one level of groups and word
    boundaries.  [run] is the backtracking matcher of [re]: a greedy
    quantifier tries the longest repetition first, a lazy one the
    shortest. *)

Inductive item :=
| Chr (p : char -> bool)
| Rep (p : char -> bool) (lo : nat) (hi : option nat) (greedy : bool)
| GOpen
| GClose
| WordB.

Definition regex := list item.

Record mstate := MState {
  prev : option char;      (* the character before the current position *)
  used : nat;              (* characters consumed by the match so far *)
  cur  : option text;      (* the open group, latest character first *)
  grps : list text         (* the closed groups, latest first *)
}.

Definition eat (c : char) (st : mstate) : mstate :=
  MState (Some c) (S (used st)) (option_map (cons c) (cur st)) (grps st).

Definition gopen (st : mstate) : mstate :=
  MState (prev st) (used st) (Some []) (grps st).

Definition gclose (st : mstate) : mstate :=
  MState (prev st) (used st) None
         (match cur st with
          | Some g => rev g :: grps st
          | None => grps st
          end).

Definition may_take (hi : option nat) : bool :=
  match hi with
  | Some O => false
  | _ => true
  end.

Definition is_word (c : option char) : bool :=
  match c with
  | Some x => re_w x
  | None => false
  end.

Fixpoint rep (p : char -> bool) (greedy : bool)
    (k : text -> mstate -> option mstate)
    (lo : nat) (hi : option nat) (s : text) (st : mstate) {struct s}
    : option mstate :=
  match s with
  | c :: s' =>
      if p c && may_take hi then
        if greedy then
          match rep p greedy k (pred lo) (option_map pred hi) s' (eat c st) with
          | Some r => Some r
          | None => match lo with
                    | O => k s st
                    | S _ => None
                    end
          end
        else
          match (match lo with
                 | O => k s st
                 | S _ => None
                 end) with
          | Some r => Some r
          | None => rep p greedy k (pred lo) (option_map pred hi) s' (eat c st)
          end
      else match lo with
           | O => k s st
           | S _ => None
           end
  | [] => match lo with
          | O => k s st
          | S _ => None
          end
  end.

Fixpoint run (r : regex) (s : text) (st : mstate) {struct r} : option mstate :=
  match r with
  | [] => Some st
  | Chr p :: r' =>
      match s with
      | c :: s' => if p c then run r' s' (eat c st) else None
      | [] => None
      end
  | Rep p lo hi g :: r' => rep p g (run r') lo hi s st
  | GOpen :: r' => run r' s (gopen st)
  | GClose :: r' => run r' s (gclose st)
  | WordB :: r' =>
      if xorb (is_word (prev st)) (is_word (hd_error s)) then run r' s st
      else None
  end.

(** A match object: its length and [m.group(1)], [m.group(2)], ... *)
Record rmatch := RMatch { m_len : nat; m_groups : list text }.

Definition group (n : nat) (m : rmatch) : text :=
  nth (pred n) (m_groups m) [].

Definition match_at (r : regex) (pv : option char) (s : text) : option rmatch :=
  match run r s (MState pv 0 None []) with
  | Some st => Some (RMatch (used st) (rev (grps st)))
  | None => None
  end.

(** [re.finditer]: the matches from left to right, without overlap.
    [skip] counts the characters of the last match still to pass over. *)
Fixpoint scan (r : regex) (pv : option char) (skip : nat) (s : text)
    : list rmatch :=
  match s with
  | [] => []
  | c :: s' =>
      match skip with
      | S k => scan r (Some c) k s'
      | O =>
          match match_at r pv s with
          | Some m => m :: scan r (Some c) (pred (m_len m)) s'
          | None => scan r (Some c) 0 s'
          end
      end
  end.

Definition finditer (r : regex) (s : text) : list rmatch := scan r None 0 s.

(** [re.search]. *)
Definition search (r : regex) (s : text) : option rmatch :=
  hd_error (finditer r s).

(** [re.sub(r, repl, s)] for a replacement without group references. *)
Fixpoint sub_scan (r : regex) (repl : text) (pv : option char) (skip : nat)
    (s : text) : text :=
  match s with
  | [] => []
  | c :: s' =>
      match skip with
      | S k => sub_scan r repl (Some c) k s'
      | O =>
          match match_at r pv s with
          | Some m => repl ++ sub_scan r repl (Some c) (pred (m_len m)) s'
          | None => c :: sub_scan r repl (Some c) 0 s'
          end
      end
  end.

Definition re_sub (r : regex) (repl s : text) : text := sub_scan r repl None 0 s.

(** Pattern builders. *)
Definition one (a : ascii) : item := Chr (N.eqb (ch a)).

(** A pattern letter under [re.IGNORECASE]: both cases of the letter, and
    the code points that [re] folds onto it (long s, dotted and dotless i,
    the Kelvin sign). *)
Definition ci_eq (c x : char) : bool :=
  (lower_char x =? lower_char c)
  || ((lower_char c =? 115) && (x =? 383))
  || ((lower_char c =? 105) && ((x =? 304) || (x =? 305)))
  || ((lower_char c =? 107) && (x =? 8490)).

Definition lit (s : string) : regex := List.map (fun c => Chr (N.eqb c)) (py s).
Definition liti (s : string) : regex := List.map (fun c => Chr (ci_eq c)) (py s).

Definition none_of (s : string) (c : char) : bool :=
  negb (existsb (N.eqb c) (py s)).
Definition any_of (s : string) (c : char) : bool :=
  existsb (N.eqb c) (py s).

Definition star (p : char -> bool) : item := Rep p 0 None true.
Definition plus (p : char -> bool) : item := Rep p 1 None true.
Definition star_lazy (p : char -> bool) : item := Rep p 0 None false.
Definition plus_lazy (p : char -> bool) : item := Rep p 1 None false.
Definition opt (p : char -> bool) : item := Rep p 0 (Some 1%nat) true.

Definition nl : char := 10.
Definition quote (c : char) : bool := (c =? 34) || (c =? 39).

(** ** Column Normalizer *)

(** [[^A-Za-z0-9\s]] *)
Definition not_alnum_space (c : char) : bool := negb (is_alnum c || isspace c).

Definition is_underscore (c : char) : bool := c =? 95.

Definition clean_column_name (name : text) : text :=
  let s := re_sub [Chr not_alnum_space] [] name in
  let s := lower (strip_by is_underscore (re_sub [plus isspace] (py "_") s)) in
  match s with
  | c :: _ => if negb (isalpha c) then py "f_" ++ s else s
  | [] => s
  end.

(** ** Text Decoder

    [bytes.decode(enc, errors)] for the three codecs of the script.  [None]
    stands for [UnicodeDecodeError].  An error covers a range of bytes; the
    handler decides what that range becomes. *)

Inductive encoding := UTF8 | UTF16LE | Latin1.
Inductive errors := Strict | Ignore | Replace.

Definition on_error (h : errors) (rest : option text) : option text :=
  match h with
  | Strict => None
  | Ignore => rest
  | Replace => option_map (cons 65533) rest
  end.

Definition emit (c : char) (rest : option text) : option text :=
  option_map (cons c) rest.

Definition is_cont (b : N) : bool := between 128 191 b.

(** The second byte of a three-byte and of a four-byte sequence. *)
Definition ok2_3 (b0 b1 : N) : bool :=
  is_cont b1 && negb ((b0 =? 224) && (b1 <? 160))
             && negb ((b0 =? 237) && (160 <=? b1)).
Definition ok2_4 (b0 b1 : N) : bool :=
  is_cont b1 && negb ((b0 =? 240) && (b1 <? 144))
             && negb ((b0 =? 244) && (144 <=? b1)).

Fixpoint utf8_decode (h : errors) (bs : list N) : option text :=
  match bs with
  | [] => Some []
  | b0 :: r1 =>
      if b0 <? 128 then emit b0 (utf8_decode h r1)
      else if between 194 223 b0 then
        match r1 with
        | [] => on_error h (Some [])
        | b1 :: r2 =>
            if is_cont b1
            then emit ((b0 - 192) * 64 + (b1 - 128)) (utf8_decode h r2)
            else on_error h (utf8_decode h r1)
        end
      else if between 224 239 b0 then
        match r1 with
        | [] => on_error h (Some [])
        | b1 :: r2 =>
            if negb (ok2_3 b0 b1) then on_error h (utf8_decode h r1)
            else match r2 with
                 | [] => on_error h (Some [])
                 | b2 :: r3 =>
                     if is_cont b2
                     then emit ((b0 - 224) * 4096 + (b1 - 128) * 64 + (b2 - 128))
                               (utf8_decode h r3)
                     else on_error h (utf8_decode h r2)
                 end
        end
      else if between 240 244 b0 then
        match r1 with
        | [] => on_error h (Some [])
        | b1 :: r2 =>
            if negb (ok2_4 b0 b1) then on_error h (utf8_decode h r1)
            else match r2 with
                 | [] => on_error h (Some [])
                 | b2 :: r3 =>
                     if negb (is_cont b2) then on_error h (utf8_decode h r2)
                     else match r3 with
                          | [] => on_error h (Some [])
                          | b3 :: r4 =>
                              if is_cont b3
                              then emit ((b0 - 240) * 262144 + (b1 - 128) * 4096
                                         + (b2 - 128) * 64 + (b3 - 128))
                                        (utf8_decode h r4)
                              else on_error h (utf8_decode h r3)
                          end
                 end
        end
      else on_error h (utf8_decode h r1)
  end.

Definition is_high_surrogate (u : N) : bool := between 55296 56319 u.
Definition is_low_surrogate (u : N) : bool := between 56320 57343 u.

Fixpoint utf16le_decode (h : errors) (bs : list N) : option text :=
  match bs with
  | [] => Some []
  | [_] => on_error h (Some [])
  | lo :: hi :: r =>
      let u := lo + 256 * hi in
      if is_high_surrogate u then
        match r with
        | lo2 :: hi2 :: r' =>
            let u2 := lo2 + 256 * hi2 in
            if is_low_surrogate u2
            then emit (65536 + (u - 55296) * 1024 + (u2 - 56320))
                      (utf16le_decode h r')
            else on_error h (utf16le_decode h r)
        | _ => on_error h (Some [])
        end
      else if is_low_surrogate u then on_error h (utf16le_decode h r)
      else emit u (utf16le_decode h r)
  end.

Definition latin1_decode (bs : list N) : option text := Some bs.

Definition bytes_decode (enc : encoding) (h : errors) (raw : list byte)
    : option text :=
  let bs := List.map Byte.to_N raw in
  match enc with
  | UTF8 => utf8_decode h bs
  | UTF16LE => utf16le_decode h bs
  | Latin1 => latin1_decode bs
  end.

(** The loop [for enc in (...): try: text = raw.decode(enc, errors=h);
    break / except: continue].  [None]: no codec succeeded and [text] was
    never bound. *)
Fixpoint decode_loop (h : errors) (encs : list encoding) (raw : list byte)
    : option text :=
  match encs with
  | [] => None
  | enc :: rest =>
      match bytes_decode enc h raw with
      | Some t => Some t
      | None => decode_loop h rest raw
      end
  end.

Definition decode_with (h : errors) (raw : list byte) : option text :=
  decode_loop h [UTF8; UTF16LE; Latin1] raw.

(** The decoder of the script: [errors='ignore']. *)
Definition decode_text (raw : list byte) : option text := decode_with Ignore raw.

(** The decoder as the specification words it: unmappable bytes are
    replaced. *)
Definition decode_text_replacing (raw : list byte) : option text :=
  decode_with Replace raw.

(** The document-level scanners: [try: raw.decode('utf-16le',
    errors='ignore') / except: raw.decode('latin-1', errors='ignore')]. *)
Definition decode_document (raw : list byte) : option text :=
  match bytes_decode UTF16LE Ignore raw with
  | Some t => Some t
  | None => bytes_decode Latin1 Ignore raw
  end.

(** [bytes.find(sub)]: the lowest index where [sub] starts; [None] is the
    result -1. *)
Fixpoint starts_with_bytes (p s : list byte) : bool :=
  match p, s with
  | [], _ => true
  | a :: p', b :: s' => Byte.eqb a b && starts_with_bytes p' s'
  | _ :: _, [] => false
  end.

Fixpoint bytes_find (sub raw : list byte) : option nat :=
  if starts_with_bytes sub raw then Some O
  else match raw with
       | [] => None
       | _ :: r => option_map S (bytes_find sub r)
       end.

(** [b'PK\x03\x04'] *)
Definition zip_signature : list byte := [x50; x4b; x03; x04].

(** ** Dictionaries *)

Definition dict (V : Type) := list (text * V).

Fixpoint dict_get {V} (k : text) (d : dict V) : option V :=
  match d with
  | [] => None
  | (k', v) :: r => if text_eqb k' k then Some v else dict_get k r
  end.

(** [d[k] = v] *)
Fixpoint dict_set {V} (k : text) (v : V) (d : dict V) : dict V :=
  match d with
  | [] => [(k, v)]
  | (k', v') :: r =>
      if text_eqb k' k then (k', v) :: r else (k', v') :: dict_set k v r
  end.

(** [d.setdefault(k, v)] *)
Definition dict_setdefault {V} (k : text) (v : V) (d : dict V) : dict V :=
  match dict_get k d with
  | Some _ => d
  | None => d ++ [(k, v)]
  end.

Definition keys {V} (d : dict V) : list text := List.map fst d.

(** [enumerate(l)] *)
Definition enumerate {A} (l : list A) : list (nat * A) :=
  combine (seq 0 (List.length l)) l.

(** ** Records of the data model *)

Record FieldInfo := mkFieldInfo {
  fi_display_name : text;
  fi_expression : text;
  fi_element_type : text;
  fi_data_type : text;
  fi_is_calculated : bool
}.

Record DirectMapping := mkDirectMapping {
  dm_display_name : text;
  dm_sample_value : text
}.

Record DocumentLevelEntry := mkDocEntry {
  de_id : text;
  de_name : text;
  de_formula : text;
  de_description : text
}.

(** One output row; the fields are the eleven columns, in column order. *)
Record MappingRecord := mkRow {
  Data_Provider_ID : text;
  Data_Provider : text;
  Technical_ID : text;
  Display_Name : text;
  Field_Type : text;
  Formula : text;
  Description : text;
  Sample_Value : text;
  Databricks_Table : text;
  Databricks_Column : text;
  XML_ID : text
}.

(** ** XML fragment extraction *)

Definition not_gt (c : char) : bool := negb (c =? 62).
Definition any_char (c : char) : bool := true.
Definition not_quote (c : char) : bool := negb (quote c).

(** [(<[^>]*QuerySpec[^>]*>.*?</[^>]*QuerySpec[^>]*>)], DOTALL, IGNORECASE *)
Definition queryspec_re : regex :=
  [GOpen; one "<"; star not_gt] ++ liti "QuerySpec"
  ++ [star not_gt; one ">"; star_lazy any_char; one "<"; one "/"; star not_gt]
  ++ liti "QuerySpec" ++ [star not_gt; one ">"; GClose].

Definition extract_xml (txt : text) : option text :=
  match txt with
  | [] => None
  | _ => option_map (group 1) (search queryspec_re txt)
  end.

(** ** XML Query-Spec Field Miner *)

#[warnings="-register-all"]
Inductive element := Element (tag : text) (attrib : dict text)
                             (children : list element).

Definition el_tag (e : element) : text :=
  match e with Element t _ _ => t end.

(** [el.get(name)] *)
Definition el_get (e : element) (name : string) : option text :=
  match e with Element _ a _ => dict_get (py name) a end.

(** [root.findall('.//*')]: the descendants of the root, in document
    order. *)
Fixpoint descendants (e : element) : list element :=
  match e with
  | Element _ _ cs => flat_map (fun c => c :: descendants c) cs
  end.

(** Truth of an optional string, and [a or b]. *)
Definition truthy (o : option text) : bool :=
  match o with
  | Some (_ :: _) => true
  | _ => false
  end.

Definition py_or (a b : option text) : option text :=
  if truthy a then a else b.

Definition or_empty (o : option text) : text :=
  match o with
  | Some t => t
  | None => []
  end.

(** [<QueryCalculation[^>]+alias=Q([^Q]+)Q[^>]+calculation=Q([^Q]+)Q],
    DOTALL, IGNORECASE, where [Q] is the class of the two quote characters
    and [^Q] its complement. *)
Definition querycalculation_re : regex :=
  liti "<QueryCalculation" ++ [plus not_gt] ++ liti "alias="
  ++ [Chr quote; GOpen; plus not_quote; GClose; Chr quote; plus not_gt]
  ++ liti "calculation="
  ++ [Chr quote; GOpen; plus not_quote; GClose; Chr quote].

Section Miner.

(** [ET.fromstring]; [None] stands for [ET.ParseError]. *)
Variable ET_fromstring : text -> option element.

Definition mine_element (info : dict FieldInfo) (el : element)
    : dict FieldInfo :=
  let fid := py_or (py_or (py_or (el_get el "id") (el_get el "identifier"))
                          (el_get el "uniqueName"))
                   (el_get el "technicalName") in
  let disp := py_or (py_or (el_get el "name") (el_get el "displayName"))
                    (el_get el "caption") in
  let expr := or_empty (py_or (py_or (py_or (el_get el "expression")
                                            (el_get el "formula"))
                                     (el_get el "calculation"))
                              (Some [])) in
  let dt := or_empty (py_or (py_or (el_get el "dataType") (el_get el "type"))
                            (Some [])) in
  if truthy fid && truthy disp then
    dict_set (or_empty fid)
             (mkFieldInfo (strip (or_empty disp)) (strip expr) (el_tag el) dt
                          (negb (text_eqb (strip expr) [])))
             info
  else info.

Definition mine_calculation (info : dict FieldInfo) (m : rmatch)
    : dict FieldInfo :=
  let alias := strip (group 1 m) in
  let calc := strip (group 2 m) in
  dict_set (py "QC::" ++ alias)
           (mkFieldInfo alias calc (py "QueryCalculation") [] true)
           info.

Definition extract_comprehensive_field_info (xml_text : text)
    : dict FieldInfo :=
  match xml_text with
  | [] => []
  | _ =>
      match ET_fromstring xml_text with
      | None => []
      | Some root =>
          let info := fold_left mine_element (descendants root) [] in
          fold_left mine_calculation
                    (finditer querycalculation_re xml_text) info
      end
  end.

End Miner.

(** ** Direct-Mapping Scanner *)

Definition not_eq_nl (c : char) : bool := negb ((c =? 61) || (c =? nl)).
Definition not_sep_nl (c : char) : bool :=
  negb ((c =? 44) || (c =? 59) || (c =? nl)).
Definition sep_space (c : char) : bool := (c =? 44) || (c =? 59) || isspace c.

(** [DP\d+\.DO\w+], IGNORECASE *)
Definition dp_ref : regex :=
  liti "DP" ++ [plus re_d; one "."] ++ liti "DO" ++ [plus re_w].

(** [([^=\n]+?)\s*=\s*([^,;\n]+)[,;\s]+(DP\d+\.DO\w+)], IGNORECASE *)
Definition pat1 : regex :=
  [GOpen; plus_lazy not_eq_nl; GClose; star isspace; one "="; star isspace;
   GOpen; plus not_sep_nl; GClose; plus sep_space; GOpen]
  ++ dp_ref ++ [GClose].

(** [(DP\d+\.DO\w+)], IGNORECASE *)
Definition pat2 : regex := [GOpen] ++ dp_ref ++ [GClose].

Definition direct_pass1 (txt : text) : dict DirectMapping :=
  fold_left (fun dm m =>
               dict_set (group 3 m)
                        (mkDirectMapping (strip (group 1 m)) (strip (group 2 m)))
                        dm)
            (finditer pat1 txt) [].

Definition direct_pass2 (txt : text) (dm : dict DirectMapping)
    : dict DirectMapping :=
  fold_left (fun dm m => dict_setdefault (group 1 m) (mkDirectMapping [] []) dm)
            (finditer pat2 txt) dm.

Definition extract_direct_mappings (txt : text) : dict DirectMapping :=
  direct_pass2 txt (direct_pass1 txt).

(** ** Formula Attribute Scanner *)

(** [kind=Q([^Q]+)Q], IGNORECASE *)
Definition attr_re (kind : string) : regex :=
  liti kind ++ [Chr quote; GOpen; plus not_quote; GClose; Chr quote].

Definition formula_patterns : list regex :=
  [attr_re "formula="; attr_re "expression="; attr_re "calculation="].

Definition form_key (dp_id : text) (i : nat) : text :=
  dp_id ++ py "_FORM_" ++ str_of_nat i.

Definition extract_dp_formulas (txt dp_id : text) : dict text :=
  fold_left
    (fun out pat =>
       fold_left (fun out im =>
                    dict_set (form_key dp_id (fst im)) (strip (group 1 (snd im)))
                             out)
                 (enumerate (finditer pat txt)) out)
    formula_patterns [].

(** ** Mapping Merger *)

Definition field_type_of (fi : FieldInfo) : text :=
  if fi_is_calculated fi then py "Calculated Field" else py "Data Field".

Definition field_row (dp_id dp_name fid : text) (fi : FieldInfo)
    : MappingRecord :=
  mkRow dp_id dp_name fid (fi_display_name fi) (field_type_of fi)
        (fi_expression fi)
        (fi_element_type fi ++ py ", type=" ++ fi_data_type fi)
        [] [] (clean_column_name (fi_display_name fi)) fid.

Definition direct_row (dp_id dp_name tid : text) (mm : DirectMapping)
    : MappingRecord :=
  mkRow dp_id dp_name tid (dm_display_name mm) (py "Data Field") []
        (py "Direct mapping") (dm_sample_value mm) []
        (clean_column_name (match dm_display_name mm with
                            | [] => tid
                            | n => n
                            end))
        [].

Definition formula_row (dp_id dp_name fid formula : text) : MappingRecord :=
  mkRow dp_id dp_name fid (py "Formula " ++ fid) (py "Data Provider Formula")
        formula (py "From DP_Generic") [] []
        (clean_column_name (py "formula_" ++ fid)) [].

(** [any(r['Technical ID']==tid for r in out)] *)
Definition has_technical_id (tid : text) (out : list MappingRecord) : bool :=
  existsb (fun r => text_eqb (Technical_ID r) tid) out.

Definition merge_fields (dp_id dp_name : text) (field_info : dict FieldInfo)
    (out : list MappingRecord) : list MappingRecord :=
  fold_left (fun out kv => out ++ [field_row dp_id dp_name (fst kv) (snd kv)])
            field_info out.

Definition merge_direct (dp_id dp_name : text) (direct_map : dict DirectMapping)
    (out : list MappingRecord) : list MappingRecord :=
  fold_left (fun out kv =>
               if has_technical_id (fst kv) out then out
               else out ++ [direct_row dp_id dp_name (fst kv) (snd kv)])
            direct_map out.

Definition merge_forms (dp_id dp_name : text) (dp_forms : dict text)
    (out : list MappingRecord) : list MappingRecord :=
  fold_left (fun out kv => out ++ [formula_row dp_id dp_name (fst kv) (snd kv)])
            dp_forms out.

(** The three loops of the merger, over the shared list [out]; the result
    is [out] after the call. *)
Definition process_enhanced_mappings (dp_id dp_name : text)
    (field_info : dict FieldInfo) (direct_map : dict DirectMapping)
    (dp_forms : dict text) (out : list MappingRecord) : list MappingRecord :=
  merge_forms dp_id dp_name dp_forms
    (merge_direct dp_id dp_name direct_map
       (merge_fields dp_id dp_name field_info out)).

(** ** Archive *)

(** The opened archive: the entries in directory order, each with the bytes
    that [z.read] gives for it. *)
Definition archive := list (text * list byte).

Definition namelist (z : archive) : list text := List.map fst z.

(** [z.read(fn)] for a name of the archive: the bytes of the last entry
    of that name.  The pipeline reads names of [namelist] only; for another
    name, a [KeyError] in Python, the model gives no bytes.  A failure of
    the archive reader while it reads an entry is outside the embedding. *)
Definition zread (z : archive) (fn : text) : list byte :=
  match dict_get fn (rev z) with
  | Some b => b
  | None => []
  end.

(** [x in l] for a list of strings. *)
Definition name_in (fn : text) (l : list text) : bool :=
  existsb (text_eqb fn) l.

(** ** Data-Provider Classifier *)

(** [(DP\d+)] *)
Definition dp_number_re : regex := [GOpen] ++ lit "DP" ++ [plus re_d; GClose].

(** [\bemp\b] and [\buniverses?\b] *)
Definition emp_re : regex := [WordB] ++ lit "emp" ++ [WordB].
Definition universes_re : regex :=
  [WordB] ++ lit "universe" ++ [opt (N.eqb 115); WordB].

Definition is_some {A} (o : option A) : bool :=
  match o with
  | Some _ => true
  | None => false
  end.

Definition classify (dp : text) (qxml : option text) : text :=
  match qxml with
  | Some x =>
      let lo := str_lower x in
      if contains (py "com.sap.sl.queryspec") lo || contains (py "bex") lo
      then py "BEx"
      else if is_some (search emp_re lo) then py "EMP"
      else if is_some (search universes_re lo) then py "universes"
      else dp
  | None => dp
  end.

Inductive exn :=
| ValueError (msg : string)
| BadZipFile
| UnicodeDecodeError
| NameError
| IndexError.

Definition result (A : Type) := sum exn A.

Definition bind {A B} (x : result A) (f : A -> result B) : result B :=
  match x with
  | inl e => inl e
  | inr a => f a
  end.

(** The text of an entry; an unbound [text] would be a [NameError] at its
    first use.  The decoder always binds it. *)
Definition decoded (raw : list byte) : result text :=
  match decode_text raw with
  | Some t => inr t
  | None => inl NameError
  end.

Definition classify_entry (z : archive) (acc : result (dict text)) (fn : text)
    : result (dict text) :=
  bind acc (fun dp_names =>
    if endswith (py "DP_Generic") fn then
      match search dp_number_re fn with
      | None => inr dp_names
      | Some m =>
          let dp := group 1 m in
          bind (decoded (zread z fn)) (fun txt =>
            inr (dict_set dp (classify dp (extract_xml txt)) dp_names))
      end
    else inr dp_names).

Definition extract_data_provider_names (z : archive) : result (dict text) :=
  fold_left (classify_entry z) (namelist z) (inr []).

(** ** Document-Level Scanners *)

Definition not_lt (c : char) : bool := negb (c =? 60).
Definition not_eq_space (c : char) : bool := negb ((c =? 61) || isspace c).
Definition not_semicolon (c : char) : bool := negb (c =? 59).

(** [<CalculatedField[^>]+name=Q([^Q]+)Q[^>]*>([^<]+)], IGNORECASE, DOTALL *)
Definition calculatedfield_re : regex :=
  liti "<CalculatedField" ++ [plus not_gt] ++ liti "name="
  ++ [Chr quote; GOpen; plus not_quote; GClose; Chr quote; star not_gt;
      one ">"; GOpen; plus not_lt; GClose].

(** [Variable\s+([^=\s]+)\s*=\s*([^;]+);], IGNORECASE *)
Definition variable_re : regex :=
  liti "Variable"
  ++ [plus isspace; GOpen; plus not_eq_space; GClose; star isspace; one "=";
      star isspace; GOpen; plus not_semicolon; GClose; one ";"].

(** [any(x in fn.upper() for x in words)] *)
Definition path_mentions (words : list string) (fn : text) : bool :=
  existsb (fun w => contains (py w) (upper fn)) words.

Definition document_entry (prefix : string) (fn : text)
    (results : list DocumentLevelEntry) (m : rmatch)
    : list DocumentLevelEntry :=
  results ++ [mkDocEntry (py prefix ++ str_of_nat (List.length results))
                         (strip (group 1 m)) (strip (group 2 m))
                         (py "From " ++ fn)].

(** The two scanners have one shape: the path words, the identifier
    prefix and the patterns differ. *)
Definition scan_documents (words : list string) (prefix : string)
    (patterns : list regex) (z : archive) : result (list DocumentLevelEntry) :=
  fold_left
    (fun acc fn =>
       bind acc (fun results =>
         if path_mentions words fn then
           match decode_document (zread z fn) with
           | None => inl UnicodeDecodeError
           | Some txt =>
               inr (fold_left
                      (fun results pat =>
                         fold_left (document_entry prefix fn)
                                   (finditer pat txt) results)
                      patterns results)
           end
         else inr results))
    (namelist z) (inr []).

Definition extract_calculated_fields (z : archive)
    : result (list DocumentLevelEntry) :=
  scan_documents ["DOCUMENT"; "REPORT"; "STRUCTURE"]%string "CF_"
                 [calculatedfield_re; querycalculation_re] z.

Definition extract_report_variables (z : archive)
    : result (list DocumentLevelEntry) :=
  scan_documents ["DOCUMENT"; "VARIABLE"; "FORMULA"]%string "RV_"
                 [variable_re] z.

(** ** Report Assembler *)

Definition document_row (pid : string) (label : string) (ftype : string)
    (e : DocumentLevelEntry) : MappingRecord :=
  mkRow (py pid) (py label) (de_id e) (de_name e) (py ftype) (de_formula e)
        (de_description e) [] [] (clean_column_name (de_name e)) [].

(** Code point order of two strings. *)
Fixpoint text_compare (a b : text) : comparison :=
  match a, b with
  | [], [] => Eq
  | [], _ :: _ => Lt
  | _ :: _, [] => Gt
  | x :: a', y :: b' =>
      match x ?= y with
      | Eq => text_compare a' b'
      | c => c
      end
  end.

(** The sort key [['Data Provider', 'Display Name']]. *)
Definition key_compare (r1 r2 : MappingRecord) : comparison :=
  match text_compare (Data_Provider r1) (Data_Provider r2) with
  | Eq => text_compare (Display_Name r1) (Display_Name r2)
  | c => c
  end.

Definition key_leb (r1 r2 : MappingRecord) : bool :=
  match key_compare r1 r2 with
  | Gt => false
  | _ => true
  end.

(** [df.sort_values([k1, k2])]: with several keys pandas sorts by a
    lexicographic indexer, which keeps rows of equal keys in their order. *)
Fixpoint insert_row (r : MappingRecord) (l : list MappingRecord)
    : list MappingRecord :=
  match l with
  | [] => [r]
  | x :: l' => if key_leb r x then r :: l else x :: insert_row r l'
  end.

Fixpoint sort_values (l : list MappingRecord) : list MappingRecord :=
  match l with
  | [] => []
  | r :: l' => insert_row r (sort_values l')
  end.

(** [df['Field Type'].isin(['Calculated Field','Report Variable'])] *)
Definition is_calculated_row (r : MappingRecord) : bool :=
  text_eqb (Field_Type r) (py "Calculated Field")
  || text_eqb (Field_Type r) (py "Report Variable").

Definition sheet := (string * list MappingRecord)%type.

Inductive outcome :=
| Raised (e : exn)
| NoFields
| Written (excel : list sheet) (csv : list MappingRecord).

(** The sheets written inside the [ExcelWriter] block. *)
Definition excel_sheets (df : list MappingRecord) : list sheet :=
  let cf := filter is_calculated_row df in
  [("All Fields"%string, df)]
  ++ match cf with
     | [] => []
     | _ => [("Calculated Fields"%string, cf)]
     end
  ++ [("Data Fields"%string, filter (fun r => negb (is_calculated_row r)) df)].

(** Step 6 of [extract_field_mappings].  [Written excel csv] stands for
    the calls of the writers: the sheets passed to [to_excel], in order,
    and the table passed to [to_csv].  What the writers do with them, an
    exception of theirs included, is outside the embedding. *)
Definition write_report (mappings : list MappingRecord) : outcome :=
  match mappings with
  | [] => NoFields
  | _ => let df := sort_values mappings in
         Written (excel_sheets df) df
  end.

Section Pipeline.

Variable ET_fromstring : text -> option element.

(** [zipfile.ZipFile(io.BytesIO(b))]; [None] stands for [BadZipFile]. *)
Variable ZipFile : list byte -> option archive.

(** The body of the loop of step 4. *)
Definition provider_step (z : archive) (dp_names : dict text)
    (acc : result (list MappingRecord)) (dp_folder : text)
    : result (list MappingRecord) :=
  bind acc (fun mappings =>
    match second_last (split_on 47 dp_folder) with
    | None => inl IndexError
    | Some dp_id =>
        let dp_nm := match dict_get dp_id dp_names with
                     | Some n => n
                     | None => dp_id
                     end in
        let dpg := dp_folder ++ py "DP_Generic" in
        if negb (name_in dpg (namelist z)) then inr mappings
        else
          bind (decoded (zread z dpg)) (fun txt =>
            let field_info :=
              match extract_xml txt with
              | Some xml => extract_comprehensive_field_info ET_fromstring xml
              | None => []
              end in
            let direct_map := extract_direct_mappings txt in
            let dp_forms := extract_dp_formulas txt dp_id in
            inr (process_enhanced_mappings dp_id dp_nm field_info direct_map
                                           dp_forms mappings))
    end).

Definition dp_folders (z : archive) : list text :=
  filter (fun f => endswith (py "/") f && contains (py "/DATAPROVIDERS/DP") f)
         (namelist z).

(** Steps 2 to 5: the list [mappings] before the table is built. *)
Definition collect_mappings (z : archive) : result (list MappingRecord) :=
  bind (extract_data_provider_names z) (fun dp_names =>
  bind (extract_calculated_fields z) (fun calc_fields =>
  bind (extract_report_variables z) (fun report_vars =>
  bind (fold_left (provider_step z dp_names) (dp_folders z) (inr []))
       (fun mappings =>
  inr (mappings
       ++ List.map (document_row "CALC" "Document Variables" "Calculated Field")
                   calc_fields
       ++ List.map (document_row "VAR" "Report Variables" "Report Variable")
                   report_vars))))).

(** Steps 2 to 6, on the opened archive. *)
Definition extract_from_archive (z : archive) : outcome :=
  match collect_mappings z with
  | inl e => Raised e
  | inr mappings => write_report mappings
  end.

(** Step 1: the archive view of the container. *)
Definition locate_archive (raw : list byte) : result (list byte) :=
  match bytes_find zip_signature raw with
  | None => inl (ValueError "Not a valid .wid (no ZIP signature).")
  | Some idx => inr (skipn idx raw)
  end.

Definition extract_field_mappings (raw : list byte) : outcome :=
  match locate_archive raw with
  | inl e => Raised e
  | inr payload =>
      match ZipFile payload with
      | None => Raised BadZipFile
      | Some z => extract_from_archive z
      end
  end.

End Pipeline.

(** ** A reader for element-and-attribute XML

    The pipeline is run on concrete fragments with this reader in the place
    of [ET.fromstring].  It reads start tags, end tags, empty-element tags,
    attributes in either quote and character data; a document with
    anything else, or that is not well formed, is not read. *)

Inductive token :=
| TOpen (name : text) (attrs : dict text)
| TEmpty (name : text) (attrs : dict text)
| TClose (name : text)
| TText (t : text).

(** The document cut at the angle brackets: [(true, body)] for a tag. *)
Fixpoint xml_pieces (s : text) (in_tag : bool) (acc : text)
    : option (list (bool * text)) :=
  match s with
  | [] => if in_tag then None else Some [(false, rev acc)]
  | c :: r =>
      if in_tag then
        if c =? 62 then option_map (cons (true, rev acc)) (xml_pieces r false [])
        else if c =? 60 then None
        else xml_pieces r true (c :: acc)
      else if c =? 60 then option_map (cons (false, rev acc)) (xml_pieces r true [])
      else if c =? 62 then None
      else xml_pieces r false (c :: acc)
  end.

Fixpoint take_while (p : char -> bool) (s : text) : text :=
  match s with
  | c :: r => if p c then c :: take_while p r else []
  | [] => []
  end.

Definition name_char (c : char) : bool :=
  is_alnum c || (c =? 95) || (c =? 45) || (c =? 46).

Definition is_name (n : text) : bool :=
  match n with
  | c :: _ => (is_letter c || (c =? 95)) && forallb name_char n
  | [] => false
  end.

Fixpoint parse_attrs (fuel : nat) (s : text) : option (dict text) :=
  match fuel with
  | O => None
  | S f =>
      match lstrip isspace s with
      | [] => Some []
      | s1 =>
          let name := take_while name_char s1 in
          match lstrip isspace (skipn (List.length name) s1) with
          | 61 :: s3 =>
              match lstrip isspace s3 with
              | q :: s4 =>
                  let v := take_while (fun c => negb (c =? q)) s4 in
                  match skipn (List.length v) s4 with
                  | _ :: s5 =>
                      if quote q && is_name name && negb (existsb (N.eqb 38) v)
                         && match s5 with
                            | c :: _ => isspace c
                            | [] => true
                            end
                      then match parse_attrs f s5 with
                           | Some rest =>
                               if is_some (dict_get name rest) then None
                               else Some ((name, v) :: rest)
                           | None => None
                           end
                      else None
                  | [] => None
                  end
              | [] => None
              end
          | _ => None
          end
      end
  end.

Definition parse_tag (body : text) : option token :=
  match body with
  | 47 :: n =>
      let n := rstrip isspace n in
      if is_name n then Some (TClose n) else None
  | _ =>
      let empty := endswith [47] body in
      let body := if empty then removelast body else body in
      let name := take_while name_char body in
      let rest := skipn (List.length name) body in
      if is_name name
         && match rest with
            | c :: _ => isspace c
            | [] => true
            end
      then match parse_attrs (S (List.length rest)) rest with
           | Some a => Some (if empty then TEmpty name a else TOpen name a)
           | None => None
           end
      else None
  end.

Fixpoint tokens (ps : list (bool * text)) : option (list token) :=
  match ps with
  | [] => Some []
  | (true, body) :: r =>
      match parse_tag body, tokens r with
      | Some t, Some ts => Some (t :: ts)
      | _, _ => None
      end
  | (false, t) :: r => option_map (cons (TText t)) (tokens r)
  end.

(** An open element: its tag, attributes and the children read so far,
    latest first. *)
Definition frame := (text * dict text * list element)%type.

Definition attach (e : element) (stack : list frame) (root : option element)
    : option (list frame * option element) :=
  match stack, root with
  | (n, a, cs) :: st, _ => Some ((n, a, e :: cs) :: st, root)
  | [], None => Some ([], Some e)
  | [], Some _ => None
  end.

Fixpoint build (toks : list token) (stack : list frame) (root : option element)
    : option element :=
  match toks with
  | [] => match stack with
          | [] => root
          | _ => None
          end
  | TText t :: r =>
      match stack with
      | [] => if forallb isspace t then build r stack root else None
      | _ => if existsb (N.eqb 38) t then None else build r stack root
      end
  | TOpen n a :: r =>
      match stack, root with
      | [], Some _ => None
      | _, _ => build r ((n, a, []) :: stack) root
      end
  | TEmpty n a :: r =>
      match attach (Element n a []) stack root with
      | Some (stack', root') => build r stack' root'
      | None => None
      end
  | TClose n :: r =>
      match stack with
      | (n', a, cs) :: st =>
          if text_eqb n n' then
            match attach (Element n' a (rev cs)) st root with
            | Some (stack', root') => build r stack' root'
            | None => None
            end
          else None
      | [] => None
      end
  end.

Definition read_xml (s : text) : option element :=
  match xml_pieces s false [] with
  | Some ps =>
      match tokens ps with
      | Some ts => build ts [] None
      | None => None
      end
  | None => None
  end.

(** ** Predicates of the statements *)

(** The bytes [sub] occur in [raw] after the prefix [pre]. *)
Definition occurs_after (sub raw pre : list byte) : Prop :=
  exists post, raw = pre ++ sub ++ post.

Definition has_signature (raw : list byte) : Prop :=
  exists pre, occurs_after zip_signature raw pre.

(** The characters of a normalized column name. *)
Definition lower_alnum (c : char) : bool := is_lower c || is_digit c.
Definition column_char (c : char) : bool := lower_alnum c || is_underscore c.

Definition without_underscores (s : text) : text :=
  filter (fun c => negb (is_underscore c)) s.

Definition no_underscore (s : text) : bool :=
  forallb (fun c => negb (is_underscore c)) s.

(** The order of the sort keys, and rows that tie on both keys. *)
Definition key_le (r1 r2 : MappingRecord) : Prop := key_compare r1 r2 <> Gt.

(** The order of two strings by code points, stated on the strings: a
    proper prefix comes first, and otherwise the first place where the
    strings differ decides. *)
Inductive lex_lt : text -> text -> Prop :=
| lex_lt_nil c b : lex_lt [] (c :: b)
| lex_lt_head x y a b : x < y -> lex_lt (x :: a) (y :: b)
| lex_lt_tail x a b : lex_lt a b -> lex_lt (x :: a) (x :: b).

Definition lex_le (a b : text) : Prop := lex_lt a b \/ a = b.

(** [l1] is [l2] with some elements left out, the others in the order
    of [l2]. *)
Inductive subsequence {A : Type} : list A -> list A -> Prop :=
| subsequence_nil : subsequence [] []
| subsequence_skip x l1 l2 : subsequence l1 l2 -> subsequence l1 (x :: l2)
| subsequence_take x l1 l2 : subsequence l1 l2 -> subsequence (x :: l1) (x :: l2).

(** [r1] may stand before [r2] in a table ordered by provider label and
    then by display name. *)
Definition row_before (r1 r2 : MappingRecord) : Prop :=
  lex_lt (Data_Provider r1) (Data_Provider r2)
  \/ (Data_Provider r1 = Data_Provider r2
      /\ lex_le (Display_Name r1) (Display_Name r2)).

Definition same_key (r0 r : MappingRecord) : bool :=
  text_eqb (Data_Provider r) (Data_Provider r0)
  && text_eqb (Display_Name r) (Display_Name r0).

(** ** Sample inputs *)

(** A string between double quotes. *)
Definition quoted (s : string) : text := 34 :: py s ++ [34].

(** The bytes of an ASCII text. *)
Definition ascii_bytes (t : text) : list byte :=
  List.map (fun c => match Byte.of_N c with
                     | Some b => b
                     | None => x00
                     end) t.

(** A query specification with the one object
    [<object id=F1 name=Revenue expression=SUM(X)/>], attribute values in
    double quotes. *)
Definition revenue_xml : text :=
  py "<QuerySpec><object id=" ++ quoted "F1" ++ py " name=" ++ quoted "Revenue"
  ++ py " expression=" ++ quoted "SUM(X)" ++ py "/></QuerySpec>".


(** A container with the one provider [DP0] and that query
    specification. *)
Definition revenue_archive : archive :=
  [(py "Data/DATAPROVIDERS/DP0/", []);
   (py "Data/DATAPROVIDERS/DP0/DP_Generic", ascii_bytes revenue_xml)].

(** A container with the one provider [DP1], whose text is one
    assignment line. *)
Definition total_line : text := py "Total = 42, DP1.DO7".

Definition total_archive : archive :=
  [(py "Data/DATAPROVIDERS/DP1/", []);
   (py "Data/DATAPROVIDERS/DP1/DP_Generic", ascii_bytes total_line)].

(** A container with two providers that have the same text. *)
Definition shared_archive : archive :=
  [(py "Data/DATAPROVIDERS/DP1/", []);
   (py "Data/DATAPROVIDERS/DP1/DP_Generic", ascii_bytes total_line);
   (py "Data/DATAPROVIDERS/DP2/", []);
   (py "Data/DATAPROVIDERS/DP2/DP_Generic", ascii_bytes total_line)].

(** A text with one [formula=] and one [expression=] attribute. *)
Definition two_formulas : text :=
  py "formula=" ++ quoted "A" ++ py " expression=" ++ quoted "B".

(** Three collected rows; the first and the last tie on both sort keys. *)
Definition sample_rows : list MappingRecord :=
  [direct_row (py "DP2") (py "EMP") (py "DP2.DO1") (mkDirectMapping (py "Qty") []);
   direct_row (py "DP1") (py "BEx") (py "DP1.DO1") (mkDirectMapping (py "Qty") []);
   direct_row (py "DP2") (py "EMP") (py "DP2.DO9") (mkDirectMapping (py "Qty") [])].

(** ** Command line *)

(** The input path of [main]: a container file, or a directory with the
    regular files that [os.listdir] gives, in its order. *)
Inductive input_path :=
| InputFile (raw : list byte)
| InputDir (listing : list (text * list byte)).

(** [f.lower().endswith('.wid')] *)
Definition is_wid (f : text) : bool := endswith (py ".wid") (str_lower f).

Section CommandLine.

Variable ET_fromstring : text -> option element.
Variable ZipFile : list byte -> option archive.

(** The loop of [main] over a directory.  The calls are not guarded: an
    exception of one container ends the run. *)
Fixpoint run_directory (listing : list (text * list byte)) : list outcome :=
  match listing with
  | [] => []
  | (f, raw) :: rest =>
      if is_wid f then
        match extract_field_mappings ET_fromstring ZipFile raw with
        | Raised e => [Raised e]
        | o => o :: run_directory rest
        end
      else run_directory rest
  end.

(** The outcomes of the containers that [main] processes, in order. *)
Definition main (input : input_path) : list outcome :=
  match input with
  | InputFile raw => [extract_field_mappings ET_fromstring ZipFile raw]
  | InputDir listing => run_directory listing
  end.

End CommandLine.

(** ** Declarative reading of the patterns *)

Definition eat_all (w : text) (st : mstate) : mstate :=
  fold_left (fun st c => eat c st) w st.

Definition within (hi : option nat) (n : nat) : Prop :=
  match hi with
  | Some m => (n <= m)%nat
  | None => True
  end.

(** [path r s st rest st']: the pattern [r] matches a prefix of [s] from
    the state [st], leaving [rest] and the state [st']. *)
Inductive path : regex -> text -> mstate -> text -> mstate -> Prop :=
| path_nil s st : path [] s st s st
| path_chr p r c s st rest st' :
    p c = true -> path r s (eat c st) rest st' ->
    path (Chr p :: r) (c :: s) st rest st'
| path_rep p lo hi g r w s st rest st' :
    Forall (fun c => p c = true) w -> (lo <= List.length w)%nat ->
    within hi (List.length w) ->
    path r s (eat_all w st) rest st' ->
    path (Rep p lo hi g :: r) (w ++ s) st rest st'
| path_open r s st rest st' :
    path r s (gopen st) rest st' -> path (GOpen :: r) s st rest st'
| path_close r s st rest st' :
    path r s (gclose st) rest st' -> path (GClose :: r) s st rest st'
| path_wordb r s st rest st' :
    xorb (is_word (prev st)) (is_word (hd_error s)) = true ->
    path r s st rest st' -> path (WordB :: r) s st rest st'.

(** A pattern without group marks. *)
Definition flat_item (i : item) : bool :=
  match i with
  | GOpen | GClose => false
  | _ => true
  end.

Definition flat (r : regex) : bool := forallb flat_item r.

(** [w] occurs in [s]. *)
Definition infix (w s : text) : Prop := exists pre post, s = pre ++ w ++ post.

(** The groups that a pattern closes, [open] telling whether a group is
    open at its start. *)
Fixpoint closes (r : regex) (open : bool) : nat :=
  match r with
  | [] => 0
  | GOpen :: r' => closes r' true
  | GClose :: r' => (if open then 1 else 0) + closes r' false
  | _ :: r' => closes r' open
  end.

(** A reference token [DP<digits>.DO<word>]: the letters in either case,
    the digits of the class [\d], the word characters of the class
    [\w]. *)
Definition either (a b c : char) : Prop := c = a \/ c = b.

Definition dp_token (w : text) : Prop :=
  exists d p ds d' o ws,
    w = d :: p :: ds ++ 46 :: d' :: o :: ws
    /\ either 68 100 d /\ either 80 112 p
    /\ ds <> [] /\ Forall (fun c => re_d c = true) ds
    /\ either 68 100 d' /\ either 79 111 o
    /\ ws <> [] /\ Forall (fun c => re_w c = true) ws.

Definition empty_mapping : DirectMapping := mkDirectMapping [] [].

(** [int(s)] of a string of decimal digits. *)
Definition int_of (s : text) : N :=
  fold_left (fun a d => 10 * a + (d - 48)) s 0.

(** The bytes of an ASCII text in UTF-16 little-endian. *)
Definition utf16le_bytes (t : text) : list byte :=
  flat_map (fun c => [match Byte.of_N c with
                      | Some b => b
                      | None => x00
                      end; x00]) t.

(** A container with one document entry that holds a calculated field and
    a variable definition. *)
Definition document_text : text :=
  py "<CalculatedField name=" ++ quoted "Margin" ++ py ">A-B</CalculatedField>"
  ++ py " Variable Rate = A/B;".

Definition document_archive : archive :=
  [(py "Documents/DOCUMENT.xml", utf16le_bytes document_text)].

(** The four field types of the output. *)
Definition known_field_type (t : text) : Prop :=
  t = py "Data Field" \/ t = py "Calculated Field"
  \/ t = py "Data Provider Formula" \/ t = py "Report Variable".

(** A string of lower-case letters, digits and underscores that, when not
    empty, begins with a letter. *)
Definition identifier_like (s : text) : Prop :=
  Forall (fun c => column_char c = true) s
  /\ match s with
     | c :: _ => isalpha c = true
     | [] => True
     end.

(** What holds of every row that the extraction collects. *)
Definition row_ok (r : MappingRecord) : Prop :=
  known_field_type (Field_Type r)
  /\ Databricks_Table r = []
  /\ identifier_like (Databricks_Column r)
  /\ (Field_Type r = py "Data Field" -> Formula r = [])
  /\ (XML_ID r = [] \/ XML_ID r = Technical_ID r).

(** What holds of every record of the miner. *)
Definition field_ok (kv : text * FieldInfo) : Prop :=
  fst kv <> []
  /\ (fi_is_calculated (snd kv) = false -> fi_expression (snd kv) = []).

(** [w] spells the pattern word [p], in any case of the letters. *)
Definition spells (p : string) (w : text) : Prop :=
  Forall2 (fun c x => ci_eq c x = true) (py p) w.

(** A provider token [DP<digits>], the digits of the class [\d]. *)
Definition dp_number (w : text) : Prop :=
  exists ds, w = 68 :: 80 :: ds /\ ds <> []
             /\ Forall (fun c => re_d c = true) ds.

(** The labels of the classifier for the provider [dp]. *)
Definition label_of (dp label : text) : Prop :=
  label = py "BEx" \/ label = py "EMP" \/ label = py "universes" \/ label = dp.

(** What holds of every entry of the classifier's dictionary. *)
Definition label_ok (z : archive) (kv : text * text) : Prop :=
  dp_number (fst kv) /\ label_of (fst kv) (snd kv)
  /\ exists fn, In fn (namelist z) /\ endswith (py "DP_Generic") fn = true
                /\ infix (fst kv) fn.

(** A row of the Direct-Mapping Scanner, by its description. *)
Definition is_direct (r : MappingRecord) : bool :=
  text_eqb (Description r) (py "Direct mapping").

(** * Properties *)

(** ** Archive Locator *)

Lemma starts_with_bytes_spec (p s : list byte) :
  starts_with_bytes p s = true <-> exists post, s = p ++ post.
Proof.
  revert s; induction p as [|a p IH]; intros s; simpl.
  - split; [intros _; now exists s | reflexivity].
  - destruct s as [|b s].
    + split; [discriminate | intros [post H]; discriminate].
    + rewrite andb_true_iff, IH. split.
      * intros [Hab [post ->]]. apply Byte.byte_dec_bl in Hab. subst.
        now exists post.
      * intros [post H]. injection H as -> ->. split.
        -- now apply Byte.byte_dec_lb.
        -- now exists post.
Qed.

Lemma bytes_find_none (sub raw : list byte) :
  bytes_find sub raw = None -> forall pre, ~ occurs_after sub raw pre.
Proof.
  induction raw as [|b raw IH]; simpl.
  - destruct (starts_with_bytes sub []) eqn:E; [discriminate|].
    intros _ pre [post H].
    destruct pre; simpl in H.
    + assert (starts_with_bytes sub [] = true)
        by (apply starts_with_bytes_spec; now exists post).
      congruence.
    + discriminate.
  - destruct (starts_with_bytes sub (b :: raw)) eqn:E; [discriminate|].
    destruct (bytes_find sub raw) eqn:F; [discriminate|].
    intros _ pre [post H].
    destruct pre as [|c pre]; simpl in H.
    + assert (starts_with_bytes sub (b :: raw) = true)
        by (apply starts_with_bytes_spec; now exists post).
      congruence.
    + injection H as _ H. apply (IH eq_refl pre). now exists post.
Qed.

Lemma bytes_find_some (sub raw : list byte) (idx : nat) :
  bytes_find sub raw = Some idx ->
  occurs_after sub raw (firstn idx raw)
  /\ List.length (firstn idx raw) = idx
  /\ forall pre, occurs_after sub raw pre -> (idx <= List.length pre)%nat.
Proof.
  revert idx; induction raw as [|b raw IH]; intros idx; simpl.
  - destruct (starts_with_bytes sub []) eqn:E; [|discriminate].
    intros [= <-]. apply starts_with_bytes_spec in E. simpl.
    repeat split; [exact E | lia].
  - destruct (starts_with_bytes sub (b :: raw)) eqn:E.
    + intros [= <-]. apply starts_with_bytes_spec in E. simpl.
      repeat split; [exact E | lia].
    + destruct (bytes_find sub raw) as [i|] eqn:F; [|discriminate].
      intros [= <-]. destruct (IH i eq_refl) as [[post Hp] [Hl Hm]].
      simpl. repeat split.
      * exists post. now rewrite Hp at 1.
      * now rewrite Hl.
      * intros pre [post' H]. destruct pre as [|c pre]; simpl in H.
        -- assert (starts_with_bytes sub (b :: raw) = true)
             by (apply starts_with_bytes_spec; now exists post').
           congruence.
        -- injection H as _ H. simpl.
           assert (i <= List.length pre)%nat by (apply Hm; now exists post').
           lia.
Qed.

Lemma occurs_same_length (sub raw pre pre' : list byte) :
  occurs_after sub raw pre -> occurs_after sub raw pre' ->
  List.length pre = List.length pre' -> pre = pre'.
Proof.
  intros [post H] [post' H'] Hl. rewrite H in H'.
  revert pre' Hl H'. clear H.
  induction pre as [|a pre IH]; intros [|a' pre'] Hl H'; simpl in *;
    try discriminate; [reflexivity|].
  injection H' as -> H'. f_equal. apply IH; [lia | exact H'].
Qed.

(** C2. A container without the signature [PK\x03\x04] is rejected with the
    format error before the archive is opened, and nothing is written; with
    a signature, the archive is opened on the bytes from its first
    occurrence on, whatever precedes it. *)
Theorem archive_locator_signature
    (ET_fromstring : text -> option element)
    (ZipFile : list byte -> option archive) (raw : list byte) :
  (~ has_signature raw ->
     extract_field_mappings ET_fromstring ZipFile raw
     = Raised (ValueError "Not a valid .wid (no ZIP signature)."))
  /\ (forall pre post,
        raw = pre ++ zip_signature ++ post ->
        (forall pre', occurs_after zip_signature raw pre' ->
                      (List.length pre <= List.length pre')%nat) ->
        locate_archive raw = inr (zip_signature ++ post)
        /\ extract_field_mappings ET_fromstring ZipFile raw
           = match ZipFile (zip_signature ++ post) with
             | None => Raised BadZipFile
             | Some z => extract_from_archive ET_fromstring z
             end).
Proof.
  split.
  - intros Hno. unfold extract_field_mappings, locate_archive.
    destruct (bytes_find zip_signature raw) as [idx|] eqn:F; [|reflexivity].
    exfalso. apply Hno. exists (firstn idx raw).
    now apply bytes_find_some in F.
  - intros pre post Hraw Hfirst.
    assert (Hloc : locate_archive raw = inr (zip_signature ++ post)).
    { unfold locate_archive.
      destruct (bytes_find zip_signature raw) as [idx|] eqn:F.
      - destruct (bytes_find_some _ _ _ F) as [Hocc [Hlen Hmin]].
        assert (Hpre : occurs_after zip_signature raw pre) by now exists post.
        assert (firstn idx raw = pre).
        { apply (occurs_same_length zip_signature raw); trivial.
          specialize (Hmin pre Hpre). specialize (Hfirst _ Hocc). lia. }
        f_equal. rewrite <- (firstn_skipn idx raw) in Hraw at 1.
        rewrite H in Hraw. now apply app_inv_head in Hraw.
      - exfalso. apply (bytes_find_none _ _ F pre). now exists post. }
    split; [exact Hloc|].
    unfold extract_field_mappings. now rewrite Hloc.
Qed.

Lemma archive_locator_signature_witness :
  extract_field_mappings read_xml (fun _ => None) [x00]
  = Raised (ValueError "Not a valid .wid (no ZIP signature).")
  /\ locate_archive [x00; x50; x4b; x03; x04; xff]
     = inr [x50; x4b; x03; x04; xff].
Proof.
  split.
  - apply (proj1 (archive_locator_signature read_xml (fun _ => None) [x00])).
    intros [pre [post H]].
    destruct pre as [|a [|b pre]]; discriminate.
  - apply (proj2 (archive_locator_signature read_xml (fun _ => None)
                    [x00; x50; x4b; x03; x04; xff]) [x00] [xff]).
    + reflexivity.
    + intros pre' [post H]. destruct pre' as [|a pre'].
      * discriminate.
      * simpl. lia.
Defined.

(** ** Text Decoder *)

Lemma utf8_decode_ignore_total (n : nat) :
  forall bs, (List.length bs <= n)%nat ->
             exists t, utf8_decode Ignore bs = Some t.
Proof.
  induction n as [|n IH]; intros bs Hn.
  - destruct bs; [now exists [] | simpl in Hn; lia].
  - destruct bs as [|b0 r1]; [now exists []|].
    simpl in Hn.
    assert (H1 : exists t, utf8_decode Ignore r1 = Some t) by (apply IH; lia).
    destruct H1 as [t1 H1].
    pose proof (fun r (H : (List.length r <= n)%nat) => IH r H) as IH'.
    cbn [utf8_decode].
    repeat match goal with
           | |- context [if ?c then _ else _] => destruct c
           | |- context [match ?l with [] => _ | _ :: _ => _ end] =>
               is_var l; destruct l
           end;
      unfold emit, on_error; simpl in Hn;
      try (eexists; reflexivity);
      match goal with
      | |- context [utf8_decode Ignore ?r] =>
          let t := fresh "t" in
          let E := fresh "E" in
          destruct (IH' r) as [t E];
          [simpl; lia | rewrite E; simpl; eexists; reflexivity]
      end.
Qed.

Lemma utf8_ignore_never_raises (raw : list byte) :
  exists t, bytes_decode UTF8 Ignore raw = Some t.
Proof.
  unfold bytes_decode.
  apply (utf8_decode_ignore_total (List.length (List.map Byte.to_N raw))).
  apply Nat.le_refl.
Qed.

Lemma decode_with_total (h : errors) (raw : list byte) :
  exists t, decode_with h raw = Some t.
Proof.
  unfold decode_with; simpl.
  destruct (utf8_decode h (List.map Byte.to_N raw)); [eauto|].
  destruct (utf16le_decode h (List.map Byte.to_N raw)); eauto.
Qed.

(** C5, as the code has it.  The codecs are tried in the order UTF-8,
    UTF-16 little-endian, Latin-1 and the first that does not raise gives
    the text; whatever the error mode, the chain ends in Latin-1 and a
    string is always returned.  The script decodes with [errors='ignore']:
    undecodable bytes are dropped, the UTF-8 attempt cannot raise, and the
    text is always the UTF-8 decoding. *)
Theorem text_decoder_first_success (raw : list byte) :
  (forall h,
     decode_with h raw
     = match bytes_decode UTF8 h raw with
       | Some t => Some t
       | None => match bytes_decode UTF16LE h raw with
                 | Some t => Some t
                 | None => bytes_decode Latin1 h raw
                 end
       end)
  /\ (forall h, exists t, decode_with h raw = Some t)
  /\ (exists t, bytes_decode UTF8 Ignore raw = Some t
                /\ decode_text raw = Some t).
Proof.
  split; [|split].
  - intros h. unfold decode_with; simpl.
    destruct (utf8_decode h _); [reflexivity|].
    destruct (utf16le_decode h _); reflexivity.
  - intros h. apply decode_with_total.
  - destruct (utf8_ignore_never_raises raw) as [t Ht].
    exists t. split; [exact Ht|].
    unfold decode_text, decode_with, decode_loop. now rewrite Ht.
Qed.

(** C5, as stated, fails on the byte [0xFF]: the script drops the byte and
    returns the empty string, where a decoder that replaces unmappable
    bytes returns the replacement character. *)
Lemma text_decoder_drops_bytes :
  decode_text [xff] = Some []
  /\ decode_text_replacing [xff] = Some [65533]
  /\ decode_text [xff] <> decode_text_replacing [xff].
Proof.
  repeat split. discriminate.
Qed.

(** ** Column Normalizer *)

Ltac chars :=
  unfold column_char, lower_alnum, not_alnum_space, is_underscore, isalpha,
    lower_char, is_alnum, is_letter, is_upper, is_lower, is_digit, isspace,
    between in *;
  repeat match goal with
         | |- context [if ?c then _ else _] => destruct c eqn:?
         end;
  repeat match goal with
         | H : _ = true |- _ =>
             first [ rewrite orb_true_iff in H | rewrite andb_true_iff in H
                   | rewrite negb_true_iff in H | rewrite N.leb_le in H
                   | rewrite N.eqb_eq in H ]
         | H : _ = false |- _ =>
             first [ rewrite orb_false_iff in H | rewrite andb_false_iff in H
                   | rewrite negb_false_iff in H | rewrite N.leb_gt in H
                   | rewrite N.eqb_neq in H ]
         | H : _ /\ _ |- _ => destruct H
         | H : _ \/ _ |- _ => destruct H
         end;
  repeat first [ rewrite orb_true_iff | rewrite andb_true_iff
               | rewrite negb_true_iff | rewrite orb_false_iff
               | rewrite andb_false_iff | rewrite negb_false_iff
               | rewrite N.leb_le | rewrite N.leb_gt
               | rewrite N.eqb_eq | rewrite N.eqb_neq ];
  try lia.

Lemma rep_accepts (p : char -> bool) (g : bool) (s : text) :
  forall hi st, exists st', rep p g (fun _ x => Some x) 0 hi s st = Some st'.
Proof.
  induction s as [|c s IH]; intros hi st; simpl.
  - eauto.
  - destruct (p c && may_take hi); [|eauto].
    destruct g.
    + destruct (IH (option_map pred hi) (eat c st)) as [st' ->]. eauto.
    + eauto.
Qed.

Lemma match_plus_none (p : char -> bool) (pv : option char) (c : char)
    (s : text) :
  match_at [plus p] pv (c :: s) = None -> p c = false.
Proof.
  unfold match_at, plus; simpl.
  destruct (p c); [|reflexivity]. simpl.
  destruct (rep_accepts p true s None (eat c (MState pv 0 None []))) as [st' ->].
  discriminate.
Qed.

Lemma match_plus_reject (p : char -> bool) (pv : option char) (c : char)
    (s : text) :
  p c = false -> match_at [plus p] pv (c :: s) = None.
Proof.
  intros H. unfold match_at, plus; simpl. now rewrite H.
Qed.

Lemma sub_chr_filter (p : char -> bool) (s : text) :
  forall pv, sub_scan [Chr p] [] pv 0 s = filter (fun c => negb (p c)) s.
Proof.
  induction s as [|c s IH]; intros pv; simpl; [reflexivity|].
  unfold match_at; simpl. destruct (p c); simpl; now rewrite IH.
Qed.

Lemma sub_plus_chars (p : char -> bool) (repl : text) (P : char -> Prop)
    (s : text) :
  Forall P repl ->
  Forall (fun c => p c = false -> P c) s ->
  forall pv skip, Forall P (sub_scan [plus p] repl pv skip s).
Proof.
  intros Hr Hs. induction Hs as [|c s Hc Hs IH]; intros pv skip; simpl.
  - constructor.
  - destruct skip; [|apply IH].
    destruct (match_at [plus p] pv (c :: s)) eqn:E.
    + apply Forall_app; split; [exact Hr | apply IH].
    + constructor; [|apply IH].
      apply Hc. now apply match_plus_none in E.
Qed.

Lemma sub_plus_id (p : char -> bool) (repl s : text) :
  Forall (fun c => p c = false) s ->
  forall pv, sub_scan [plus p] repl pv 0 s = s.
Proof.
  induction 1 as [|c s Hc Hs IH]; intros pv; simpl; [reflexivity|].
  rewrite (match_plus_reject p pv c s Hc). now rewrite IH.
Qed.

Lemma lstrip_chars (p : char -> bool) (P : char -> Prop) (s : text) :
  Forall P s -> Forall P (lstrip p s).
Proof.
  induction 1 as [|c s Hc Hs IH]; simpl; [constructor|].
  destruct (p c); [exact IH | now constructor].
Qed.

Lemma lstrip_head (p : char -> bool) (s : text) :
  match lstrip p s with
  | c :: _ => p c = false
  | [] => True
  end.
Proof.
  induction s as [|c s IH]; simpl; [exact I|].
  destruct (p c) eqn:E; [exact IH | exact E].
Qed.

Lemma lstrip_id (p : char -> bool) (s : text) :
  match s with
  | c :: _ => p c = false
  | [] => True
  end -> lstrip p s = s.
Proof.
  destruct s as [|c s]; simpl; [reflexivity|]. now intros ->.
Qed.

Lemma lstrip_snoc (p : char -> bool) (l : text) (h : char) :
  p h = false -> exists l', lstrip p (l ++ [h]) = l' ++ [h].
Proof.
  intros Hh. induction l as [|c l IH]; simpl.
  - rewrite Hh. now exists [].
  - destruct (p c); [exact IH | now exists (c :: l)].
Qed.

Lemma rstrip_chars (p : char -> bool) (P : char -> Prop) (s : text) :
  Forall P s -> Forall P (rstrip p s).
Proof.
  intros H. unfold rstrip. apply Forall_rev, lstrip_chars. now apply Forall_rev.
Qed.

Lemma rstrip_head (p : char -> bool) (h : char) (s : text) :
  p h = false -> exists s', rstrip p (h :: s) = h :: s'.
Proof.
  intros Hh. unfold rstrip; simpl.
  destruct (lstrip_snoc p (rev s) h Hh) as [l' ->].
  rewrite rev_app_distr. simpl. eauto.
Qed.

Lemma strip_by_chars (p : char -> bool) (P : char -> Prop) (s : text) :
  Forall P s -> Forall P (strip_by p s).
Proof.
  intros H. unfold strip_by. now apply rstrip_chars, lstrip_chars.
Qed.

Lemma strip_by_head (p : char -> bool) (s : text) :
  match strip_by p s with
  | c :: _ => p c = false
  | [] => True
  end.
Proof.
  unfold strip_by. pose proof (lstrip_head p s) as H.
  destruct (lstrip p s) as [|h r]; [exact I|].
  destruct (rstrip_head p h r H) as [s' ->]. exact H.
Qed.

Lemma strip_by_id (p : char -> bool) (s : text) :
  Forall (fun c => p c = false) s -> strip_by p s = s.
Proof.
  intros H. unfold strip_by, rstrip.
  rewrite (lstrip_id p s) by (destruct H; trivial).
  rewrite lstrip_id; [apply rev_involutive|].
  apply Forall_rev in H. destruct H; trivial.
Qed.

(** The characters of a normalized name, and its first character. *)
Lemma clean_column_name_shape (name : text) :
  Forall (fun c => column_char c = true) (clean_column_name name)
  /\ match clean_column_name name with
     | c :: _ => isalpha c = true
     | [] => True
     end.
Proof.
  unfold clean_column_name, re_sub.
  rewrite sub_chr_filter.
  set (s1 := filter _ name).
  assert (H1 : Forall (fun c => isspace c = false -> is_alnum c = true) s1).
  { apply Forall_forall. intros c Hc. apply filter_In in Hc as [_ Hc].
    unfold not_alnum_space in Hc. rewrite negb_involutive in Hc.
    intros Hs. rewrite Hs, orb_false_r in Hc. exact Hc. }
  set (s2 := sub_scan [plus isspace] (py "_") None 0 s1).
  assert (H2 : Forall (fun c => is_alnum c = true \/ c = 95) s2).
  { apply sub_plus_chars.
    - constructor; [now right | constructor].
    - revert H1. apply Forall_impl. intros c H Hs. left. now apply H. }
  set (s3 := strip_by is_underscore s2).
  assert (H3 : Forall (fun c => is_alnum c = true \/ c = 95) s3)
    by now apply strip_by_chars.
  pose proof (strip_by_head is_underscore s2) as Hh. fold s3 in Hh.
  assert (H4 : Forall (fun c => column_char c = true) (lower s3)).
  { unfold lower. apply Forall_map. revert H3. apply Forall_impl.
    intros c [Hc | ->]; [|reflexivity]. clear - Hc. chars. }
  destruct s3 as [|h r]; simpl; [split; [constructor | exact I]|].
  destruct (isalpha (lower_char h)) eqn:Ea; simpl.
  - split; [exact H4 | exact Ea].
  - split; [|reflexivity].
    constructor; [reflexivity|]. constructor; [reflexivity|]. exact H4.
Qed.

Lemma clean_column_name_of_shape (v : text) :
  Forall (fun c => column_char c = true) v ->
  match v with
  | c :: _ => isalpha c = true
  | [] => True
  end ->
  clean_column_name v = without_underscores v.
Proof.
  intros Hv Hh. unfold clean_column_name, re_sub, without_underscores.
  rewrite sub_chr_filter.
  assert (E : filter (fun c => negb (not_alnum_space c)) v
              = filter (fun c => negb (is_underscore c)) v).
  { apply filter_ext_in. intros c Hc.
    rewrite Forall_forall in Hv. specialize (Hv c Hc). clear - Hv.
    destruct (is_underscore c) eqn:Eu; simpl.
    - apply negb_false_iff. chars.
    - apply negb_true_iff. chars. }
  rewrite E. set (u := filter _ v).
  assert (Hu : Forall (fun c => lower_alnum c = true) u).
  { apply Forall_forall. intros c Hc. apply filter_In in Hc as [Hc Hn].
    rewrite Forall_forall in Hv. specialize (Hv c Hc).
    unfold column_char in Hv. apply negb_true_iff in Hn.
    now rewrite Hn, orb_false_r in Hv. }
  rewrite sub_plus_id
    by (revert Hu; apply Forall_impl; intros c Hc; clear - Hc; chars).
  rewrite strip_by_id
    by (revert Hu; apply Forall_impl; intros c Hc; clear - Hc; chars).
  assert (El : lower u = u).
  { unfold lower. rewrite <- (map_id u) at 2. apply map_ext_in.
    intros c Hc. rewrite Forall_forall in Hu. specialize (Hu c Hc).
    clear - Hu. chars. }
  rewrite El.
  destruct v as [|h r]; [reflexivity|].
  assert (Hk : negb (is_underscore h) = true) by (clear - Hh; chars).
  subst u. simpl. rewrite Hk. simpl. now rewrite Hh.
Qed.

Lemma filter_fixed (p : char -> bool) (s : text) :
  filter p s = s <-> forallb p s = true.
Proof.
  induction s as [|c s IH]; simpl; [tauto|].
  destruct (p c) eqn:E; simpl.
  - rewrite <- IH. split; [now intros [= ->] | now intros ->].
  - split; [|discriminate].
    intros H. pose proof (filter_length_le p s) as L.
    rewrite H in L. simpl in L. lia.
Qed.

(** C3, as the code has it.  A second normalization deletes the
    underscores of a normalized name, so it returns the name unchanged
    exactly when the name has no underscore; the three sample names
    normalize as listed. *)
Theorem column_normalizer_second_pass :
  (forall s,
     clean_column_name (clean_column_name s)
     = without_underscores (clean_column_name s))
  /\ (forall s,
        clean_column_name (clean_column_name s) = clean_column_name s
        <-> no_underscore (clean_column_name s) = true)
  /\ clean_column_name (py "Sales $ Amount 2024") = py "sales_amount_2024"
  /\ clean_column_name (py "123abc") = py "f_123abc"
  /\ clean_column_name (py "") = py "".
Proof.
  assert (H : forall s, clean_column_name (clean_column_name s)
                        = without_underscores (clean_column_name s)).
  { intros s. destruct (clean_column_name_shape s) as [Hc Hh].
    now apply clean_column_name_of_shape. }
  split; [exact H|]. split.
  - intros s. rewrite H. apply filter_fixed.
  - repeat split; vm_compute; reflexivity.
Qed.

Lemma column_normalizer_second_pass_witness :
  clean_column_name (clean_column_name (py "Net Sales 7")) 
  = without_underscores (clean_column_name (py "Net Sales 7"))
  /\ clean_column_name (clean_column_name (py "Revenue"))
     = clean_column_name (py "Revenue").
Proof.
  destruct column_normalizer_second_pass as [H1 [H2 _]].
  split.
  - apply H1.
  - apply H2. vm_compute. reflexivity.
Defined.

(** C3, as stated, fails: the normalizer is not idempotent.  The
    normalized form of [123abc] is [f_123abc], and normalizing that gives
    [f123abc]. *)
Lemma column_normalizer_not_idempotent :
  clean_column_name (clean_column_name (py "123abc"))
  <> clean_column_name (py "123abc").
Proof.
  vm_compute. discriminate.
Qed.

(** ** Mapping Merger *)

Lemma text_eqb_eq (a b : text) : text_eqb a b = true <-> a = b.
Proof.
  unfold text_eqb. destruct (list_eq_dec N.eq_dec a b); split;
    congruence.
Qed.

Lemma text_eqb_refl (a : text) : text_eqb a a = true.
Proof. now apply text_eqb_eq. Qed.

Lemma has_technical_id_spec (tid : text) (out : list MappingRecord) :
  has_technical_id tid out = true
  <-> exists r, In r out /\ Technical_ID r = tid.
Proof.
  unfold has_technical_id. rewrite existsb_exists.
  split; intros [r [Hr H]]; exists r; split; trivial; now apply text_eqb_eq.
Qed.

Lemma fold_left_append {A B} (f : A -> B) (l : list A) :
  forall out, fold_left (fun out x => out ++ [f x]) l out = out ++ List.map f l.
Proof.
  induction l as [|x l IH]; intros out; simpl.
  - now rewrite app_nil_r.
  - rewrite IH, <- app_assoc. reflexivity.
Qed.

Lemma merge_fields_rows dp_id dp_name field_info out :
  merge_fields dp_id dp_name field_info out
  = out ++ List.map (fun kv => field_row dp_id dp_name (fst kv) (snd kv))
                    field_info.
Proof. apply fold_left_append. Qed.

Lemma merge_forms_rows dp_id dp_name dp_forms out :
  merge_forms dp_id dp_name dp_forms out
  = out ++ List.map (fun kv => formula_row dp_id dp_name (fst kv) (snd kv))
                    dp_forms.
Proof. apply fold_left_append. Qed.

(** The second loop appends the records of some entries of [direct_map],
    none of them under a technical id that the list already has. *)
Lemma merge_direct_rows dp_id dp_name (direct_map : dict DirectMapping) :
  forall out,
  exists directs,
    merge_direct dp_id dp_name direct_map out
    = out ++ List.map (fun kv => direct_row dp_id dp_name (fst kv) (snd kv))
                      directs
    /\ incl directs direct_map
    /\ forall tid, has_technical_id tid out = true -> ~ In tid (keys directs).
Proof.
  induction direct_map as [|[tid mm] dm IH]; intros out.
  - exists []. simpl. rewrite app_nil_r. repeat split.
    + apply incl_refl.
    + intros tid _ [].
  - unfold merge_direct; simpl.
    destruct (has_technical_id tid out) eqn:E.
    + destruct (IH out) as [ds [Heq [Hin Hno]]].
      exists ds. repeat split.
      * exact Heq.
      * now apply incl_tl.
      * exact Hno.
    + destruct (IH (out ++ [direct_row dp_id dp_name tid mm]))
        as [ds [Heq [Hin Hno]]].
      exists ((tid, mm) :: ds). repeat split.
      * unfold merge_direct in Heq. rewrite Heq. simpl.
        now rewrite <- app_assoc.
      * intros x [<- | Hx]; [now left | right; now apply Hin].
      * intros k Hk [Hk' | Hk']; simpl in Hk'.
        -- subst k. congruence.
        -- apply (Hno k); trivial.
           unfold has_technical_id in *. rewrite existsb_app, Hk. reflexivity.
Qed.

(** With distinct keys, the records kept are exactly those whose technical
    id is not in the list when the loop starts. *)
Lemma merge_direct_filter dp_id dp_name (direct_map : dict DirectMapping) :
  NoDup (keys direct_map) ->
  forall out,
    merge_direct dp_id dp_name direct_map out
    = out ++ List.map (fun kv => direct_row dp_id dp_name (fst kv) (snd kv))
                      (filter (fun kv => negb (has_technical_id (fst kv) out))
                              direct_map).
Proof.
  induction direct_map as [|[tid mm] dm IH]; intros Hnd out.
  - simpl. now rewrite app_nil_r.
  - simpl in Hnd. inversion Hnd as [|? ? Hnotin Hnd']; subst.
    unfold merge_direct; simpl.
    destruct (has_technical_id tid out) eqn:E; simpl.
    + apply (IH Hnd').
    + unfold merge_direct in IH. rewrite (IH Hnd').
      rewrite <- app_assoc. simpl. do 3 f_equal.
      apply filter_ext_in. intros [k v] Hk. simpl. f_equal.
      unfold has_technical_id. rewrite existsb_app. simpl.
      rewrite orb_false_r.
      destruct (text_eqb tid k) eqn:Ek; [|now rewrite orb_false_r].
      apply text_eqb_eq in Ek. subst k. exfalso. apply Hnotin.
      unfold keys. now apply (in_map fst) in Hk.
Qed.

(** C1. When the miner has a field under the technical id [x], the rows
    that the merger adds for the provider are the miner's records, then
    direct-mapping records, then the formula records, and no direct-mapping
    record among them is under [x]. *)
Theorem miner_takes_precedence dp_id dp_name (field_info : dict FieldInfo)
    (direct_map : dict DirectMapping) (dp_forms : dict text)
    (out : list MappingRecord) (x : text) :
  In x (keys field_info) ->
  exists directs,
    process_enhanced_mappings dp_id dp_name field_info direct_map dp_forms out
    = out
      ++ List.map (fun kv => field_row dp_id dp_name (fst kv) (snd kv)) field_info
      ++ List.map (fun kv => direct_row dp_id dp_name (fst kv) (snd kv)) directs
      ++ List.map (fun kv => formula_row dp_id dp_name (fst kv) (snd kv)) dp_forms
    /\ incl directs direct_map
    /\ ~ In x (keys directs).
Proof.
  intros Hx. unfold process_enhanced_mappings.
  rewrite merge_forms_rows, merge_fields_rows.
  destruct (merge_direct_rows dp_id dp_name direct_map
              (out ++ List.map (fun kv => field_row dp_id dp_name (fst kv) (snd kv))
                               field_info))
    as [ds [Heq [Hin Hno]]].
  exists ds. repeat split.
  - rewrite Heq. now rewrite <- !app_assoc.
  - exact Hin.
  - apply Hno. apply has_technical_id_spec.
    unfold keys in Hx. apply in_map_iff in Hx as [[k fi] [Hk Hkv]].
    simpl in Hk. subst k.
    exists (field_row dp_id dp_name x fi). split; [|reflexivity].
    apply in_or_app. right.
    apply in_map_iff. exists (x, fi). now split.
Qed.

Lemma miner_takes_precedence_witness :
  exists directs,
    process_enhanced_mappings (py "DP1") (py "BEx")
      [(py "DP1.DO7", mkFieldInfo (py "Total") [] (py "object") [] false)]
      [(py "DP1.DO7", mkDirectMapping (py "Total") (py "42"));
       (py "DP1.DO8", mkDirectMapping [] [])]
      [] []
    = []
      ++ List.map (fun kv => field_row (py "DP1") (py "BEx") (fst kv) (snd kv))
           [(py "DP1.DO7", mkFieldInfo (py "Total") [] (py "object") [] false)]
      ++ List.map (fun kv => direct_row (py "DP1") (py "BEx") (fst kv) (snd kv))
           directs
      ++ List.map (fun kv => formula_row (py "DP1") (py "BEx") (fst kv) (snd kv))
           []
    /\ incl directs [(py "DP1.DO7", mkDirectMapping (py "Total") (py "42"));
                     (py "DP1.DO8", mkDirectMapping [] [])]
    /\ ~ In (py "DP1.DO7") (keys directs).
Proof.
  apply miner_takes_precedence. simpl. left. reflexivity.
Defined.

(** C10. The duplicate check looks at the whole accumulated list.  With
    [acc] the list after the miner's records are added, the direct-mapping
    records kept are exactly those whose technical id is the Technical ID of
    no row of [acc]; so a row already in [out], from whichever provider,
    suppresses the direct-mapping record of the same technical id. *)
Theorem duplicate_check_is_global dp_id dp_name (field_info : dict FieldInfo)
    (direct_map : dict DirectMapping) (dp_forms : dict text)
    (out : list MappingRecord) :
  NoDup (keys direct_map) ->
  let acc := out ++ List.map (fun kv => field_row dp_id dp_name (fst kv) (snd kv))
                             field_info in
  let directs := filter (fun kv => negb (has_technical_id (fst kv) acc))
                        direct_map in
  process_enhanced_mappings dp_id dp_name field_info direct_map dp_forms out
  = acc
    ++ List.map (fun kv => direct_row dp_id dp_name (fst kv) (snd kv)) directs
    ++ List.map (fun kv => formula_row dp_id dp_name (fst kv) (snd kv)) dp_forms
  /\ forall r, In r out -> ~ In (Technical_ID r) (keys directs).
Proof.
  intros Hnd acc directs. split.
  - subst acc directs. unfold process_enhanced_mappings.
    rewrite merge_forms_rows, merge_fields_rows.
    rewrite (merge_direct_filter dp_id dp_name direct_map Hnd).
    now rewrite <- !app_assoc.
  - intros r Hr Hin. unfold keys in Hin.
    apply in_map_iff in Hin as [[k v] [Hk Hkv]]. simpl in Hk.
    apply filter_In in Hkv as [_ Hkv]. simpl in Hkv.
    apply negb_true_iff in Hkv.
    assert (has_technical_id k acc = true); [|congruence].
    apply has_technical_id_spec. exists r. split; [|now symmetry].
    apply in_or_app. now left.
Qed.

Lemma keys_dict_set_in {V} (x k : text) (v : V) (d : dict V) :
  In x (keys (dict_set k v d)) -> x = k \/ In x (keys d).
Proof.
  induction d as [|[k0 v0] d IH]; simpl.
  - intros [<- | []]. now left.
  - destruct (text_eqb k0 k); simpl.
    + intros [<- | H]; right; [now left | now right].
    + intros [<- | H]; [right; now left|].
      destruct (IH H) as [-> | H']; [now left | right; now right].
Qed.

Lemma dict_set_distinct {V} (k : text) (v : V) (d : dict V) :
  NoDup (keys d) -> NoDup (keys (dict_set k v d)).
Proof.
  induction d as [|[k0 v0] d IH]; simpl; intros Hnd.
  - repeat constructor. intros [].
  - inversion Hnd as [|? ? Hnotin Hnd']; subst.
    destruct (text_eqb k0 k) eqn:E; simpl.
    + now constructor.
    + constructor; [|now apply IH].
      intros H. apply keys_dict_set_in in H as [-> | H]; [|contradiction].
      now rewrite text_eqb_refl in E.
Qed.

Lemma dict_get_none_keys {V} (k : text) (d : dict V) :
  dict_get k d = None -> ~ In k (keys d).
Proof.
  induction d as [|[k0 v0] d IH]; simpl; [tauto|].
  destruct (text_eqb k0 k) eqn:E; [discriminate|].
  intros H [-> | H']; [now rewrite text_eqb_refl in E | now apply IH].
Qed.

Lemma dict_setdefault_distinct {V} (k : text) (v : V) (d : dict V) :
  NoDup (keys d) -> NoDup (keys (dict_setdefault k v d)).
Proof.
  intros Hnd. unfold dict_setdefault.
  destruct (dict_get k d) eqn:E; [exact Hnd|].
  unfold keys. rewrite map_app. simpl.
  apply NoDup_app.
  - exact Hnd.
  - repeat constructor. intros [].
  - intros x Hx [<- | []]. now apply dict_get_none_keys in E.
Qed.

(** The scanner's dictionary has distinct keys. *)
Lemma extract_direct_mappings_distinct (txt : text) :
  NoDup (keys (extract_direct_mappings txt)).
Proof.
  unfold extract_direct_mappings, direct_pass2, direct_pass1.
  assert (H1 : forall ms (d : dict DirectMapping),
             NoDup (keys d) ->
             NoDup (keys (fold_left
                            (fun dm m =>
                               dict_set (group 3 m)
                                        (mkDirectMapping (strip (group 1 m))
                                                         (strip (group 2 m)))
                                        dm) ms d))).
  { induction ms as [|m ms IH]; intros d Hd; simpl; [exact Hd|].
    apply IH. now apply dict_set_distinct. }
  assert (H2 : forall ms (d : dict DirectMapping),
             NoDup (keys d) ->
             NoDup (keys (fold_left
                            (fun dm m =>
                               dict_setdefault (group 1 m)
                                               (mkDirectMapping [] []) dm)
                            ms d))).
  { induction ms as [|m ms IH]; intros d Hd; simpl; [exact Hd|].
    apply IH. now apply dict_setdefault_distinct. }
  apply H2, H1. constructor.
Qed.

Lemma duplicate_check_is_global_witness :
  process_enhanced_mappings (py "DP2") (py "EMP") []
    [(py "DP1.DO7", mkDirectMapping (py "Sum") (py "9"))] []
    [direct_row (py "DP1") (py "BEx") (py "DP1.DO7")
                (mkDirectMapping (py "Total") (py "42"))]
  = [direct_row (py "DP1") (py "BEx") (py "DP1.DO7")
                (mkDirectMapping (py "Total") (py "42"))].
Proof.
  apply (proj1 (duplicate_check_is_global (py "DP2") (py "EMP") []
                  [(py "DP1.DO7", mkDirectMapping (py "Sum") (py "9"))] []
                  [direct_row (py "DP1") (py "BEx") (py "DP1.DO7")
                              (mkDirectMapping (py "Total") (py "42"))]
                  ltac:(repeat constructor; simpl; tauto))).
Defined.

(** Two providers with the token [DP1.DO7] in their text: the table has
    the record of the first provider only. *)
Example shared_token_one_row :
  exists excel,
    extract_from_archive read_xml shared_archive
    = Written excel
        [mkRow (py "DP1") (py "DP1") (py "DP1.DO7") (py "Total")
               (py "Data Field") [] (py "Direct mapping") (py "42") []
               (py "total") []].
Proof.
  eexists. vm_compute. reflexivity.
Qed.

(** ** Report Assembler *)

Lemma text_compare_eq (a b : text) : text_compare a b = Eq -> a = b.
Proof.
  revert b; induction a as [|x a IH]; intros [|y b]; simpl; try discriminate;
    [reflexivity|].
  destruct (x ?= y) eqn:E; try discriminate.
  apply N.compare_eq in E. intros H. f_equal; [exact E | now apply IH].
Qed.

Lemma text_compare_refl (a : text) : text_compare a a = Eq.
Proof.
  induction a as [|x a IH]; simpl; [reflexivity|].
  now rewrite N.compare_refl.
Qed.

Lemma text_compare_antisym (a b : text) :
  text_compare b a = CompOpp (text_compare a b).
Proof.
  revert b; induction a as [|x a IH]; intros [|y b]; simpl; try reflexivity.
  rewrite (N.compare_antisym x y).
  destruct (x ?= y); simpl; [apply IH | reflexivity | reflexivity].
Qed.

Lemma text_compare_lt_trans (a b c : text) :
  text_compare a b = Lt -> text_compare b c = Lt -> text_compare a c = Lt.
Proof.
  revert b c; induction a as [|x a IH]; intros [|y b] [|z c]; simpl;
    try discriminate; try reflexivity.
  destruct (x ?= y) eqn:E1; try discriminate;
    destruct (y ?= z) eqn:E2; try discriminate; intros H1 H2.
  - apply N.compare_eq in E1, E2. subst. rewrite N.compare_refl.
    now apply (IH b c).
  - apply N.compare_eq in E1. subst. now rewrite E2.
  - apply N.compare_eq in E2. subst. now rewrite E1.
  - rewrite N.compare_lt_iff in E1, E2.
    assert (E : (x ?= z) = Lt) by (apply N.compare_lt_iff; lia).
    now rewrite E.
Qed.

Lemma text_compare_le_trans (a b c : text) :
  text_compare a b <> Gt -> text_compare b c <> Gt -> text_compare a c <> Gt.
Proof.
  intros H1 H2.
  destruct (text_compare a b) eqn:E1; [| |congruence].
  - apply text_compare_eq in E1. now subst.
  - destruct (text_compare b c) eqn:E2; [| |congruence].
    + apply text_compare_eq in E2. subst. now rewrite E1.
    + now rewrite (text_compare_lt_trans a b c E1 E2).
Qed.

Lemma key_le_trans (a b c : MappingRecord) :
  key_le a b -> key_le b c -> key_le a c.
Proof.
  unfold key_le, key_compare. intros H1 H2.
  destruct (text_compare (Data_Provider a) (Data_Provider b)) eqn:E1;
    [| |congruence].
  - apply text_compare_eq in E1. rewrite E1.
    destruct (text_compare (Data_Provider b) (Data_Provider c)) eqn:E2;
      [| discriminate | congruence].
    now apply (text_compare_le_trans _ (Display_Name b)).
  - destruct (text_compare (Data_Provider b) (Data_Provider c)) eqn:E2;
      [| |congruence].
    + apply text_compare_eq in E2. rewrite <- E2, E1. discriminate.
    + rewrite (text_compare_lt_trans _ _ _ E1 E2). discriminate.
Qed.

Lemma key_leb_le (a b : MappingRecord) : key_leb a b = true <-> key_le a b.
Proof.
  unfold key_leb, key_le. destruct (key_compare a b); split;
    congruence.
Qed.

Lemma key_compare_antisym (a b : MappingRecord) :
  key_compare b a = CompOpp (key_compare a b).
Proof.
  unfold key_compare.
  rewrite (text_compare_antisym (Data_Provider a) (Data_Provider b)).
  destruct (text_compare (Data_Provider a) (Data_Provider b)); simpl;
    [apply text_compare_antisym | reflexivity | reflexivity].
Qed.

Lemma key_leb_total (a b : MappingRecord) : key_leb a b = false -> key_le b a.
Proof.
  unfold key_leb, key_le. rewrite (key_compare_antisym a b).
  destruct (key_compare a b); simpl; congruence.
Qed.

Lemma same_key_le (r0 a b : MappingRecord) :
  same_key r0 a = true -> same_key r0 b = true -> key_leb a b = true.
Proof.
  unfold same_key. rewrite !andb_true_iff, !text_eqb_eq.
  intros [A1 A2] [B1 B2]. unfold key_leb, key_compare.
  rewrite A1, A2, B1, B2, !text_compare_refl. reflexivity.
Qed.

Lemma insert_row_perm (r : MappingRecord) (l : list MappingRecord) :
  Permutation (r :: l) (insert_row r l).
Proof.
  induction l as [|x l IH]; simpl; [reflexivity|].
  destruct (key_leb r x); [reflexivity|].
  rewrite perm_swap. now constructor.
Qed.

Lemma sort_values_perm (l : list MappingRecord) :
  Permutation l (sort_values l).
Proof.
  induction l as [|r l IH]; simpl; [constructor|].
  rewrite <- insert_row_perm. now constructor.
Qed.

Lemma insert_row_sorted (r : MappingRecord) (l : list MappingRecord) :
  StronglySorted key_le l -> StronglySorted key_le (insert_row r l).
Proof.
  induction 1 as [|x l Hs IH Hx]; simpl.
  - repeat constructor.
  - destruct (key_leb r x) eqn:E.
    + apply key_leb_le in E. constructor.
      * now constructor.
      * constructor; [exact E|].
        revert Hx. apply Forall_impl. intros y. now apply key_le_trans.
    + constructor; [exact IH|].
      apply (Permutation_Forall (insert_row_perm r l)).
      constructor; [now apply key_leb_total | exact Hx].
Qed.

Lemma sort_values_sorted (l : list MappingRecord) :
  StronglySorted key_le (sort_values l).
Proof.
  induction l as [|r l IH]; simpl; [constructor|].
  now apply insert_row_sorted.
Qed.

Lemma insert_row_stable (r0 r : MappingRecord) (l : list MappingRecord) :
  filter (same_key r0) (insert_row r l) = filter (same_key r0) (r :: l).
Proof.
  induction l as [|x l IH]; [reflexivity|].
  cbn [insert_row]. destruct (key_leb r x) eqn:E; [reflexivity|].
  cbn [filter] in *. rewrite IH.
  destruct (same_key r0 x) eqn:Ex; [|reflexivity].
  destruct (same_key r0 r) eqn:Er; [|reflexivity].
  rewrite (same_key_le r0 r x Er Ex) in E. discriminate.
Qed.

Lemma sort_values_stable (r0 : MappingRecord) (l : list MappingRecord) :
  filter (same_key r0) (sort_values l) = filter (same_key r0) l.
Proof.
  induction l as [|r l IH]; [reflexivity|].
  cbn [sort_values]. rewrite insert_row_stable. cbn [filter]. now rewrite IH.
Qed.

Lemma text_compare_lex (a b : text) : text_compare a b = Lt -> lex_lt a b.
Proof.
  revert b; induction a as [|x a IH]; intros [|y b]; simpl; try discriminate.
  - intros _. apply lex_lt_nil.
  - destruct (x ?= y) eqn:E; try discriminate.
    + apply N.compare_eq in E. subst y. intros H. apply lex_lt_tail. now apply IH.
    + intros _. apply N.compare_lt_iff in E. now apply lex_lt_head.
Qed.

Lemma lex_text_compare (a b : text) : lex_lt a b -> text_compare a b = Lt.
Proof.
  induction 1 as [c b | x y a b Hxy | x a b _ IH]; simpl.
  - reflexivity.
  - apply N.compare_lt_iff in Hxy. now rewrite Hxy.
  - now rewrite N.compare_refl.
Qed.

Lemma key_le_before (r1 r2 : MappingRecord) : key_le r1 r2 -> row_before r1 r2.
Proof.
  unfold key_le, key_compare, row_before, lex_le. intros H.
  destruct (text_compare (Data_Provider r1) (Data_Provider r2)) eqn:E1.
  - apply text_compare_eq in E1. right. split; [exact E1|].
    destruct (text_compare (Display_Name r1) (Display_Name r2)) eqn:E2.
    + right. now apply text_compare_eq.
    + left. now apply text_compare_lex.
    + congruence.
  - left. now apply text_compare_lex.
  - congruence.
Qed.

Lemma sorted_weaken {A} (R S : A -> A -> Prop) (l : list A) :
  (forall x y, R x y -> S x y) -> StronglySorted R l -> StronglySorted S l.
Proof.
  intros H. induction 1 as [|x l Hs IH Hx]; constructor; trivial.
  revert Hx. apply Forall_impl. intros y. apply H.
Qed.

Lemma sort_values_ordered (l : list MappingRecord) :
  StronglySorted row_before (sort_values l).
Proof.
  apply (sorted_weaken key_le); [apply key_le_before | apply sort_values_sorted].
Qed.

(** C7. The written table holds the collected rows, each once.  Of two
    rows of the table the earlier one has the provider label that comes
    first in the order of strings, or the same label and a display name
    that comes first or is the same; and rows that tie on both keys stay
    in the order in which they were collected. *)
Theorem report_sorted_stable (mappings : list MappingRecord)
    (excel : list sheet) (table : list MappingRecord) :
  write_report mappings = Written excel table ->
  Permutation mappings table
  /\ StronglySorted row_before table
  /\ (forall r0, filter (same_key r0) table = filter (same_key r0) mappings)
  /\ hd_error excel = Some ("All Fields"%string, table).
Proof.
  unfold write_report. destruct mappings as [|r l]; [discriminate|].
  intros [= <- <-]. repeat split.
  - apply (sort_values_perm (r :: l)).
  - apply (sort_values_ordered (r :: l)).
  - intros r0. apply (sort_values_stable r0 (r :: l)).
Qed.

Lemma report_sorted_stable_witness :
  sort_values sample_rows
  = [direct_row (py "DP1") (py "BEx") (py "DP1.DO1") (mkDirectMapping (py "Qty") []);
     direct_row (py "DP2") (py "EMP") (py "DP2.DO1") (mkDirectMapping (py "Qty") []);
     direct_row (py "DP2") (py "EMP") (py "DP2.DO9") (mkDirectMapping (py "Qty") [])]
  /\ Permutation sample_rows (sort_values sample_rows)
  /\ StronglySorted row_before (sort_values sample_rows)
  /\ (forall r0, filter (same_key r0) (sort_values sample_rows)
                 = filter (same_key r0) sample_rows)
  /\ hd_error (excel_sheets (sort_values sample_rows))
     = Some ("All Fields"%string, sort_values sample_rows).
Proof.
  split; [vm_compute; reflexivity|].
  apply (report_sorted_stable sample_rows
           (excel_sheets (sort_values sample_rows)) (sort_values sample_rows)).
  reflexivity.
Defined.

Lemma filter_nil_existsb {A} (p : A -> bool) (l : list A) :
  filter p l = [] <-> existsb p l = false.
Proof.
  induction l as [|x l IH]; simpl; [tauto|].
  destruct (p x); simpl; [split; discriminate | exact IH].
Qed.

Lemma excel_sheets_shape (df : list MappingRecord) :
  excel_sheets df
  = [("All Fields"%string, df)]
    ++ (if existsb is_calculated_row df
        then [("Calculated Fields"%string, filter is_calculated_row df)]
        else [])
    ++ [("Data Fields"%string, filter (fun r => negb (is_calculated_row r)) df)].
Proof.
  unfold excel_sheets.
  destruct (filter is_calculated_row df) as [|c cf] eqn:E.
  - apply filter_nil_existsb in E. now rewrite E.
  - assert (X : existsb is_calculated_row df = true).
    { destruct (existsb is_calculated_row df) eqn:X; [reflexivity|].
      apply filter_nil_existsb in X. congruence. }
    now rewrite X.
Qed.

(** C9, as the code has it.  The workbook always has the sheets
    [All Fields] (the whole table) and [Data Fields] (the rows that are
    neither Calculated Field nor Report Variable, possibly none); the sheet
    [Calculated Fields] is written between them exactly when the table has
    a Calculated Field or Report Variable row. *)
Theorem workbook_sheets (mappings : list MappingRecord)
    (excel : list sheet) (table : list MappingRecord) :
  write_report mappings = Written excel table ->
  excel
  = [("All Fields"%string, table)]
    ++ (if existsb is_calculated_row table
        then [("Calculated Fields"%string, filter is_calculated_row table)]
        else [])
    ++ [("Data Fields"%string,
         filter (fun r => negb (is_calculated_row r)) table)].
Proof.
  unfold write_report. destruct mappings as [|r l]; [discriminate|].
  intros [= <- <-]. apply (excel_sheets_shape (sort_values (r :: l))).
Qed.

Lemma workbook_sheets_witness :
  excel_sheets (sort_values sample_rows)
  = [("All Fields"%string, sort_values sample_rows)]
    ++ (if existsb is_calculated_row (sort_values sample_rows)
        then [("Calculated Fields"%string,
               filter is_calculated_row (sort_values sample_rows))]
        else [])
    ++ [("Data Fields"%string,
         filter (fun r => negb (is_calculated_row r)) (sort_values sample_rows))].
Proof.
  apply (workbook_sheets sample_rows). reflexivity.
Defined.

(** C9, as stated, fails on a container whose only row is a Data Field:
    the extraction is not empty and the workbook has two sheets, without
    [Calculated Fields]. *)
Lemma calculated_sheet_omitted :
  exists excel table,
    extract_from_archive read_xml total_archive = Written excel table
    /\ table <> []
    /\ List.map fst excel = ["All Fields"; "Data Fields"]%string
    /\ ~ In "Calculated Fields"%string (List.map fst excel).
Proof.
  eexists. eexists. split; [vm_compute; reflexivity|].
  split; [discriminate|]. split; [reflexivity|].
  simpl. intros [H | [H | []]]; discriminate.
Qed.

(** ** End to end *)




Lemma dict_get_app_some {V} (k : text) (v : V) (d d' : dict V) :
  dict_get k d = Some v -> dict_get k (d ++ d') = Some v.
Proof.
  induction d as [|[k0 v0] d IH]; simpl; [discriminate|].
  destruct (text_eqb k0 k); [trivial | exact IH].
Qed.

Lemma dict_get_app_none {V} (k : text) (d d' : dict V) :
  dict_get k (d ++ d') = None -> dict_get k d = None.
Proof.
  induction d as [|[k0 v0] d IH]; simpl; [reflexivity|].
  destruct (text_eqb k0 k); [trivial | exact IH].
Qed.

(** The second pass leaves the entries of the first in place and adds, at
    the end, empty entries under keys that the dictionary did not have. *)
Lemma setdefault_fold (ms : list rmatch) :
  forall dm : dict DirectMapping,
  exists extra,
    fold_left (fun dm m => dict_setdefault (group 1 m) (mkDirectMapping [] []) dm)
              ms dm
    = dm ++ extra
    /\ Forall (fun kv => snd kv = mkDirectMapping [] []
                         /\ dict_get (fst kv) dm = None) extra.
Proof.
  induction ms as [|m ms IH]; intros dm; simpl.
  - exists []. split; [now rewrite app_nil_r | constructor].
  - unfold dict_setdefault at 2.
    destruct (dict_get (group 1 m) dm) eqn:E.
    + apply IH.
    + destruct (IH (dm ++ [(group 1 m, mkDirectMapping [] [])]))
        as [extra [Heq Hall]].
      exists ((group 1 m, mkDirectMapping [] []) :: extra). split.
      * rewrite Heq, <- app_assoc. reflexivity.
      * constructor; [now split|].
        revert Hall. apply Forall_impl. intros kv [H1 H2].
        split; [exact H1 | now apply dict_get_app_none in H2].
Qed.



(** ** Formula Attribute Scanner *)

(** C6 fails on a text with one [formula=] and one [expression=]
    attribute: the numbering restarts for each attribute kind, both matches
    get the identifier [DP1_FORM_0], and the dictionary keeps one entry,
    with the later value; the merger adds one row for the two
    occurrences. *)
Theorem formula_identifiers_collide :
  List.length (finditer (attr_re "formula=") two_formulas) = 1%nat
  /\ List.length (finditer (attr_re "expression=") two_formulas) = 1%nat
  /\ extract_dp_formulas two_formulas (py "DP1") = [(py "DP1_FORM_0", py "B")]
  /\ process_enhanced_mappings (py "DP1") (py "DP1") [] []
       (extract_dp_formulas two_formulas (py "DP1")) []
     = [formula_row (py "DP1") (py "DP1") (py "DP1_FORM_0") (py "B")].
Proof.
  repeat split; vm_compute; reflexivity.
Qed.

(** * Further properties *)

(** ** The matcher and the declarative reading *)

Lemma rep_sound (p : char -> bool) (g : bool)
    (k : text -> mstate -> option mstate) (s : text) :
  forall lo hi st st',
    rep p g k lo hi s st = Some st' ->
    exists w rest,
      s = w ++ rest /\ Forall (fun c => p c = true) w
      /\ (lo <= List.length w)%nat /\ within hi (List.length w)
      /\ k rest (eat_all w st) = Some st'.
Proof.
  assert (Hstop : forall s lo hi st st',
             match lo with
             | O => k s st
             | S _ => None
             end = Some st' ->
             exists w rest,
               s = w ++ rest /\ Forall (fun c => p c = true) w
               /\ (lo <= List.length w)%nat /\ within hi (List.length w)
               /\ k rest (eat_all w st) = Some st').
  { intros s0 lo hi st st' H. destruct lo; [|discriminate].
    exists [], s0. repeat split; trivial.
    destruct hi; simpl; [lia | exact I]. }
  assert (Hmore : forall c s' lo hi st st',
             p c = true -> may_take hi = true ->
             (exists w rest,
                s' = w ++ rest /\ Forall (fun c => p c = true) w
                /\ (pred lo <= List.length w)%nat
                /\ within (option_map pred hi) (List.length w)
                /\ k rest (eat_all w (eat c st)) = Some st') ->
             exists w rest,
               c :: s' = w ++ rest /\ Forall (fun c => p c = true) w
               /\ (lo <= List.length w)%nat /\ within hi (List.length w)
               /\ k rest (eat_all w st) = Some st').
  { intros c s' lo hi st st' Hc Hm [w [rest [E [F [L [W K]]]]]].
    exists (c :: w), rest. subst s'. repeat split; trivial.
    - now constructor.
    - simpl. lia.
    - destruct hi as [[|n]|]; simpl in *; try discriminate; lia. }
  induction s as [|c s IH]; intros lo hi st st' H; simpl in H.
  - now apply Hstop.
  - destruct (p c && may_take hi) eqn:E; [|now apply Hstop].
    apply andb_true_iff in E as [Hc Hm].
    destruct g.
    + destruct (rep p true k (pred lo) (option_map pred hi) s (eat c st))
        eqn:R.
      * injection H as <-. apply Hmore; trivial. now apply IH.
      * now apply Hstop.
    + destruct (match lo with
                | O => k (c :: s) st
                | S _ => None
                end) eqn:R.
      * injection H as <-. now apply Hstop.
      * apply Hmore; trivial. now apply IH.
Qed.

(** The matcher is sound for the declarative reading. *)
Lemma run_sound (r : regex) :
  forall s st st', run r s st = Some st' -> exists rest, path r s st rest st'.
Proof.
  induction r as [|i r IH]; intros s st st' H; simpl in H.
  - injection H as <-. exists s. constructor.
  - destruct i as [p|p lo hi g| | |].
    + destruct s as [|c s]; [discriminate|].
      destruct (p c) eqn:E; [|discriminate].
      destruct (IH _ _ _ H) as [rest P]. exists rest. now constructor.
    + apply rep_sound in H as [w [rest0 [-> [F [L [W K]]]]]].
      destruct (IH _ _ _ K) as [rest P]. exists rest. now constructor.
    + destruct (IH _ _ _ H) as [rest P]. exists rest. now constructor.
    + destruct (IH _ _ _ H) as [rest P]. exists rest. now constructor.
    + destruct (xorb (is_word (prev st)) (is_word (hd_error s))) eqn:E;
        [|discriminate].
      destruct (IH _ _ _ H) as [rest P]. exists rest. now constructor.
Qed.

Lemma eat_all_used (w : text) :
  forall st, used (eat_all w st) = (used st + List.length w)%nat.
Proof.
  induction w as [|c w IH]; intros st; simpl; [lia|].
  unfold eat_all in IH. rewrite IH. simpl. lia.
Qed.

Lemma eat_all_grps (w : text) : forall st, grps (eat_all w st) = grps st.
Proof.
  induction w as [|c w IH]; intros st; simpl; [reflexivity|].
  unfold eat_all in IH. now rewrite IH.
Qed.

Lemma eat_all_cur (w : text) :
  forall st, cur (eat_all w st) = option_map (fun g => rev w ++ g) (cur st).
Proof.
  induction w as [|c w IH]; intros st; simpl.
  - now destruct (cur st).
  - unfold eat_all in IH. rewrite IH. simpl. destruct (cur st); simpl; trivial.
    now rewrite <- app_assoc.
Qed.

Lemma eat_all_app (u w : text) (st : mstate) :
  eat_all (u ++ w) st = eat_all w (eat_all u st).
Proof. unfold eat_all. apply fold_left_app. Qed.

(** A match consumes a prefix of the input. *)
Lemma path_consumes r s st rest st' :
  path r s st rest st' ->
  exists w, s = w ++ rest /\ used st' = (used st + List.length w)%nat.
Proof.
  induction 1 as [s st | p r c s st rest st' Hc _ [w [-> U]]
                  | p lo hi g r u s st rest st' F L W _ [w [-> U]]
                  | r s st rest st' _ IH | r s st rest st' _ IH
                  | r s st rest st' _ _ IH].
  - exists []. split; [reflexivity | simpl; lia].
  - exists (c :: w). split; [reflexivity|]. rewrite U. simpl. lia.
  - exists (u ++ w). split; [now rewrite app_assoc|].
    rewrite U, eat_all_used, length_app. lia.
  - exact IH.
  - exact IH.
  - exact IH.
Qed.

(** Without group marks the state after a match is the state after
    reading the matched word. *)
Lemma path_flat r s st rest st' :
  path r s st rest st' -> flat r = true ->
  exists w, s = w ++ rest /\ st' = eat_all w st.
Proof.
  induction 1 as [s st | p r c s st rest st' Hc _ IH
                  | p lo hi g r u s st rest st' F L W _ IH
                  | r s st rest st' _ IH | r s st rest st' _ IH
                  | r s st rest st' _ _ IH]; simpl; intros Hf;
    try discriminate.
  - now exists [].
  - destruct (IH Hf) as [w [-> ->]]. now exists (c :: w).
  - destruct (IH Hf) as [w [-> ->]]. exists (u ++ w).
    split; [now rewrite app_assoc | now rewrite eat_all_app].
  - apply IH, Hf.
Qed.

Lemma path_app r1 r2 s st rest st' :
  path (r1 ++ r2) s st rest st' ->
  exists mid stm, path r1 s st mid stm /\ path r2 mid stm rest st'.
Proof.
  revert s st. induction r1 as [|i r1 IH]; intros s st H; simpl in H.
  - exists s, st. split; [constructor | exact H].
  - inversion H; subst;
      match goal with
      | P : path (r1 ++ r2) _ _ _ _ |- _ =>
          destruct (IH _ _ P) as [mid [stm [P1 P2]]]
      end;
      exists mid, stm; (split; [|exact P2]); now constructor.
Qed.

Lemma scan_matches (r : regex) (s : text) :
  forall pv skip m,
    In m (scan r pv skip s) ->
    exists pre post pv', s = pre ++ post /\ match_at r pv' post = Some m.
Proof.
  induction s as [|c s IH]; intros pv skip m H; simpl in H; [contradiction|].
  assert (Hlater : forall pv' k,
             In m (scan r pv' k s) ->
             exists pre post pv'',
               c :: s = pre ++ post /\ match_at r pv'' post = Some m).
  { intros pv' k Hin. destruct (IH _ _ _ Hin) as [pre [post [pv'' [-> M]]]].
    now exists (c :: pre), post, pv''. }
  destruct skip; [|now apply (Hlater (Some c) skip)].
  destruct (match_at r pv (c :: s)) as [m0|] eqn:E.
  - destruct H as [<- | H]; [|now apply (Hlater (Some c) (pred (m_len m0)))].
    now exists [], (c :: s), pv.
  - now apply (Hlater (Some c) 0%nat).
Qed.

Lemma match_at_path (r : regex) (pv : option char) (s : text) (m : rmatch) :
  match_at r pv s = Some m ->
  exists rest st',
    path r s (MState pv 0 None []) rest st'
    /\ m_len m = used st' /\ m_groups m = rev (grps st').
Proof.
  unfold match_at. destruct (run r s (MState pv 0 None [])) as [st'|] eqn:R;
    [|discriminate].
  intros [= <-]. destruct (run_sound _ _ _ _ R) as [rest P].
  now exists rest, st'.
Qed.

(** A pattern that is one group around a body without groups: the group
    is the matched word. *)
Lemma whole_group_path (body : regex) (s : text) (st : mstate) rest st' :
  flat body = true ->
  path ([GOpen] ++ body ++ [GClose]) s st rest st' ->
  exists w,
    s = w ++ rest /\ path body s (gopen st) rest (eat_all w (gopen st))
    /\ grps st' = w :: grps st
    /\ used st' = (used st + List.length w)%nat.
Proof.
  intros Hf H. simpl in H. inversion H as [| | |? ? ? ? ? P| |]; subst.
  apply path_app in P as [mid [stm [P1 P2]]].
  inversion P2 as [| | | |? ? ? ? ? P3|]; subst.
  inversion P3; subst.
  destruct (path_flat _ _ _ _ _ P1 Hf) as [w [-> ->]].
  exists w. repeat split; trivial.
  - simpl. rewrite eat_all_cur, eat_all_grps. simpl.
    now rewrite app_nil_r, rev_involutive.
  - simpl. now rewrite eat_all_used.
Qed.

Lemma whole_group_match (body : regex) (pv : option char) (s : text)
    (m : rmatch) :
  flat body = true ->
  match_at ([GOpen] ++ body ++ [GClose]) pv s = Some m ->
  exists rest st,
    s = group 1 m ++ rest
    /\ path body s st rest (eat_all (group 1 m) st)
    /\ m_len m = List.length (group 1 m).
Proof.
  intros Hf M. apply match_at_path in M as [rest [st' [P [L G]]]].
  apply whole_group_path in P as [w [-> [P [Hg U]]]]; trivial.
  unfold group. rewrite G, Hg. simpl.
  exists rest, (gopen (MState pv 0 None [])). repeat split; trivial.
  rewrite L, U. reflexivity.
Qed.

Lemma path_first_chr p r s st rest st' :
  path (Chr p :: r) s st rest st' ->
  exists c s', s = c :: s' /\ p c = true /\ path r s' (eat c st) rest st'.
Proof.
  intros H. inversion H; subst. eauto.
Qed.

Lemma path_last_chr r p s st rest st' :
  path (r ++ [Chr p]) s st rest st' ->
  exists w c, s = w ++ c :: rest /\ p c = true.
Proof.
  intros H. apply path_app in H as [mid [stm [P1 P2]]].
  apply path_consumes in P1 as [w [-> _]].
  apply path_first_chr in P2 as [c [s' [-> [Hc P3]]]].
  inversion P3; subst. now exists w, c.
Qed.

(** ** XML fragment extraction *)

Lemma queryspec_re_shape :
  queryspec_re
  = [GOpen]
    ++ ([one "<"; star not_gt] ++ liti "QuerySpec"
        ++ [star not_gt; one ">"; star_lazy any_char; one "<"; one "/";
            star not_gt]
        ++ liti "QuerySpec" ++ [star not_gt; one ">"])
    ++ [GClose].
Proof. reflexivity. Qed.

(** X1. The fragment that [extract_xml] returns is a piece of the text, it
    begins with [<] and ends with [>]; an empty text has no fragment. *)
Theorem extract_xml_fragment (txt x : text) :
  extract_xml txt = Some x ->
  txt <> [] /\ infix x txt
  /\ exists inner, x = 60 :: inner ++ [62].
Proof.
  unfold extract_xml. destruct txt as [|c0 t0]; [discriminate|].
  set (txt := c0 :: t0). unfold search, finditer.
  destruct (scan queryspec_re None 0 txt) as [|m ms] eqn:S; [discriminate|].
  simpl. intros [= <-]. split; [discriminate|].
  assert (Hin : In m (scan queryspec_re None 0 txt)) by (rewrite S; now left).
  apply scan_matches in Hin as [pre [post [pv [E M]]]].
  rewrite queryspec_re_shape in M.
  apply whole_group_match in M as [rest [st [Hs [P L]]]]; [|reflexivity].
  split.
  - exists pre, rest. now rewrite E, Hs at 1.
  - pose proof P as P'.
    change ([one "<"; star not_gt] ++ liti "QuerySpec"
            ++ [star not_gt; one ">"; star_lazy any_char; one "<"; one "/";
                star not_gt]
            ++ liti "QuerySpec" ++ [star not_gt; one ">"])
      with (([one "<"; star not_gt] ++ liti "QuerySpec"
             ++ [star not_gt; one ">"; star_lazy any_char; one "<"; one "/";
                 star not_gt]
             ++ liti "QuerySpec" ++ [star not_gt]) ++ [one ">"]) in P'.
    apply path_last_chr in P' as [w [c [Hw Hc]]].
    apply N.eqb_eq in Hc. change (ch ">") with 62 in Hc. subst c.
    assert (Hx : group 1 m = w ++ [62]).
    { apply (app_inv_tail rest). rewrite <- app_assoc. simpl.
      now rewrite <- Hs, <- Hw. }
    simpl in P. apply path_first_chr in P as [c [s' [Hp [Hc _]]]].
    apply N.eqb_eq in Hc. change (ch "<") with 60 in Hc. subst c.
    rewrite Hw in Hp.
    destruct w as [|c w]; simpl in Hp.
    + injection Hp as Hc _. discriminate.
    + injection Hp as -> _. exists w. exact Hx.
Qed.

Lemma extract_xml_fragment_witness :
  py "junk" ++ revenue_xml ++ py "tail" <> []
  /\ infix revenue_xml (py "junk" ++ revenue_xml ++ py "tail")
  /\ exists inner, revenue_xml = 60 :: inner ++ [62].
Proof.
  apply (extract_xml_fragment (py "junk" ++ revenue_xml ++ py "tail")
                              revenue_xml).
  vm_compute. reflexivity.
Defined.

(** ** Direct-Mapping Scanner *)

Lemma eat_all_open (w : text) :
  forall st, is_some (cur (eat_all w st)) = is_some (cur st).
Proof.
  intros st. rewrite eat_all_cur. now destruct (cur st).
Qed.

Lemma path_groups r s st rest st' :
  path r s st rest st' ->
  List.length (grps st')
  = (List.length (grps st) + closes r (is_some (cur st)))%nat.
Proof.
  induction 1 as [s st | p r c s st rest st' Hc _ IH
                  | p lo hi g r u s st rest st' F L W _ IH
                  | r s st rest st' _ IH | r s st rest st' _ IH
                  | r s st rest st' _ _ IH]; simpl.
  - lia.
  - rewrite IH. simpl. now destruct (cur st).
  - rewrite IH, eat_all_grps, eat_all_open. reflexivity.
  - rewrite IH. reflexivity.
  - rewrite IH. simpl. destruct (cur st); simpl; lia.
  - exact IH.
Qed.

(** A pattern that ends in a group around a body without groups: the last
    group is a word that the body matches. *)
Lemma last_group_match (r1 body : regex) (pv : option char) (s : text)
    (m : rmatch) :
  flat body = true ->
  match_at (r1 ++ [GOpen] ++ body ++ [GClose]) pv s = Some m ->
  exists w pre rest st,
    s = pre ++ w ++ rest
    /\ path body (w ++ rest) st rest (eat_all w st)
    /\ nth (closes r1 false) (m_groups m) [] = w.
Proof.
  intros Hf M. apply match_at_path in M as [rest [st' [P [L G]]]].
  apply path_app in P as [mid [stm [P1 P2]]].
  pose proof (path_groups _ _ _ _ _ P1) as Hn. simpl in Hn.
  apply path_consumes in P1 as [pre [-> _]].
  apply whole_group_path in P2 as [w [-> [P2 [Hg _]]]]; trivial.
  exists w, pre, rest, (gopen stm). repeat split; trivial.
  rewrite G, Hg. simpl. rewrite app_nth2; rewrite length_rev, Hn.
  - now rewrite Nat.sub_diag.
  - lia.
Qed.

Lemma ci_eq_D (x : char) : ci_eq 68 x = true -> either 68 100 x.
Proof.
  unfold ci_eq, either, lower_char, is_upper, between. simpl.
  rewrite !orb_false_r.
  destruct ((65 <=? x) && (x <=? 90)) eqn:E; rewrite N.eqb_eq; intros H.
  - left. lia.
  - now right.
Qed.

Lemma ci_eq_P (x : char) : ci_eq 80 x = true -> either 80 112 x.
Proof.
  unfold ci_eq, either, lower_char, is_upper, between. simpl.
  rewrite !orb_false_r.
  destruct ((65 <=? x) && (x <=? 90)) eqn:E; rewrite N.eqb_eq; intros H.
  - left. lia.
  - now right.
Qed.

Lemma ci_eq_O (x : char) : ci_eq 79 x = true -> either 79 111 x.
Proof.
  unfold ci_eq, either, lower_char, is_upper, between. simpl.
  rewrite !orb_false_r.
  destruct ((65 <=? x) && (x <=? 90)) eqn:E; rewrite N.eqb_eq; intros H.
  - left. lia.
  - now right.
Qed.

Lemma dp_ref_shape :
  dp_ref = [Chr (ci_eq 68); Chr (ci_eq 80); plus re_d; Chr (N.eqb 46);
            Chr (ci_eq 68); Chr (ci_eq 79); plus re_w].
Proof. reflexivity. Qed.

Lemma path_first_plus p r s st rest st' :
  path (plus p :: r) s st rest st' ->
  exists w s', s = w ++ s' /\ w <> [] /\ Forall (fun c => p c = true) w
               /\ path r s' (eat_all w st) rest st'.
Proof.
  intros H. inversion H; subst. exists w, s0. repeat split; trivial.
  destruct w; simpl in *; [lia | discriminate].
Qed.

Lemma dp_ref_token (w rest : text) (st st' : mstate) :
  path dp_ref (w ++ rest) st rest st' -> dp_token w.
Proof.
  rewrite dp_ref_shape. intros P.
  apply path_first_chr in P as [d [s1 [E1 [Hd P]]]].
  apply path_first_chr in P as [p [s2 [E2 [Hp P]]]].
  apply path_first_plus in P as [ds [s3 [E3 [Hds [Fds P]]]]].
  apply path_first_chr in P as [dot [s4 [E4 [Hdot P]]]].
  apply path_first_chr in P as [d' [s5 [E5 [Hd' P]]]].
  apply path_first_chr in P as [o [s6 [E6 [Ho P]]]].
  apply path_first_plus in P as [ws [s7 [E7 [Hws [Fws P]]]]].
  inversion P; subst. apply N.eqb_eq in Hdot. subst dot.
  exists d, p, ds, d', o, ws.
  split.
  - apply (app_inv_tail rest). rewrite E1. simpl.
    rewrite <- app_assoc. reflexivity.
  - repeat split; trivial; auto using ci_eq_D, ci_eq_P, ci_eq_O.
Qed.

Lemma keys_dict_set {V} (x k : text) (v : V) (d : dict V) :
  In x (keys (dict_set k v d)) <-> x = k \/ In x (keys d).
Proof.
  split; [apply keys_dict_set_in|].
  induction d as [|[k0 v0] d IH]; simpl.
  - intros [-> | []]. now left.
  - destruct (text_eqb k0 k) eqn:E; simpl.
    + apply text_eqb_eq in E. subst k0.
      intros [-> | [<- | H]]; [now left | now left | now right].
    + intros [-> | [<- | H]].
      * right. apply IH. now left.
      * now left.
      * right. apply IH. now right.
Qed.

Lemma dict_get_keys {V} (k : text) (d : dict V) :
  In k (keys d) <-> dict_get k d <> None.
Proof.
  split.
  - induction d as [|[k0 v0] d IH]; simpl; [tauto|].
    destruct (text_eqb k0 k) eqn:E; [discriminate|].
    intros [-> | H]; [now rewrite text_eqb_refl in E | now apply IH].
  - intros H. destruct (in_dec (list_eq_dec N.eq_dec) k (keys d)) as [I|I];
      [exact I|].
    exfalso. apply H. clear H.
    induction d as [|[k0 v0] d IH]; simpl; [reflexivity|].
    destruct (text_eqb k0 k) eqn:E.
    + apply text_eqb_eq in E. subst. exfalso. apply I. now left.
    + apply IH. intros H. apply I. now right.
Qed.

Lemma keys_dict_setdefault {V} (x k : text) (v : V) (d : dict V) :
  In x (keys (dict_setdefault k v d)) <-> x = k \/ In x (keys d).
Proof.
  unfold dict_setdefault. destruct (dict_get k d) eqn:E.
  - split; [now right|]. intros [-> | H]; [|exact H].
    apply dict_get_keys. congruence.
  - unfold keys. rewrite map_app, in_app_iff. simpl. intuition.
Qed.

Lemma fold_keys {A V} (step : dict V -> A -> dict V) (f : A -> text)
    (ms : list A) :
  (forall x d a, In x (keys (step d a)) <-> x = f a \/ In x (keys d)) ->
  forall d k,
    In k (keys (fold_left step ms d))
    <-> In k (keys d) \/ exists m, In m ms /\ k = f m.
Proof.
  intros Hstep. induction ms as [|m ms IH]; intros d k; simpl.
  - split; [now left | intros [H | [m [[] _]]]; exact H].
  - rewrite IH, Hstep. split.
    + intros [[-> | H] | [m' [H1 H2]]].
      * right. exists m. split; [now left | reflexivity].
      * now left.
      * right. exists m'. split; [now right | exact H2].
    + intros [H | [m' [[<- | H1] H2]]].
      * left. now right.
      * left. now left.
      * right. now exists m'.
Qed.

Lemma pat1_shape :
  pat1 = [GOpen; plus_lazy not_eq_nl; GClose; star isspace; one "=";
          star isspace; GOpen; plus not_sep_nl; GClose; plus sep_space]
         ++ [GOpen] ++ dp_ref ++ [GClose].
Proof. reflexivity. Qed.

Lemma pat2_shape : pat2 = [] ++ [GOpen] ++ dp_ref ++ [GClose].
Proof. reflexivity. Qed.

Lemma scanned_token (r1 : regex) (n : nat) (txt : text) (m : rmatch) :
  closes r1 false = n ->
  In m (finditer (r1 ++ [GOpen] ++ dp_ref ++ [GClose]) txt) ->
  dp_token (nth n (m_groups m) []) /\ infix (nth n (m_groups m) []) txt.
Proof.
  intros Hn Hin. unfold finditer in Hin.
  apply scan_matches in Hin as [pre [post [pv [-> M]]]].
  apply last_group_match in M as [w [pre' [rest [st [-> [P G]]]]]];
    [|reflexivity].
  rewrite Hn in G. rewrite G. split.
  - now apply dp_ref_token in P.
  - exists (pre ++ pre'), rest. now rewrite <- app_assoc.
Qed.

Lemma direct_keys (txt k : text) :
  In k (keys (extract_direct_mappings txt))
  <-> (exists m, In m (finditer pat1 txt) /\ k = group 3 m)
      \/ (exists m, In m (finditer pat2 txt) /\ k = group 1 m).
Proof.
  unfold extract_direct_mappings, direct_pass2, direct_pass1.
  rewrite (fold_keys _ (group 1)) by (intros; apply keys_dict_setdefault).
  rewrite (fold_keys _ (group 3)) by (intros; apply keys_dict_set).
  simpl. tauto.
Qed.

Lemma dict_get_app_right {V} (k : text) (d e : dict V) :
  dict_get k d = None -> dict_get k (d ++ e) = dict_get k e.
Proof.
  induction d as [|[k0 v0] d IH]; simpl; [reflexivity|].
  destruct (text_eqb k0 k); [discriminate | exact IH].
Qed.

Lemma dict_get_in {V} (k : text) (v : V) (d : dict V) :
  dict_get k d = Some v -> In (k, v) d.
Proof.
  induction d as [|[k0 v0] d IH]; simpl; [discriminate|].
  destruct (text_eqb k0 k) eqn:E.
  - apply text_eqb_eq in E. subst. intros [= ->]. now left.
  - intros H. right. now apply IH.
Qed.

(** X2. The dictionary of the Direct-Mapping Scanner.  Every key is a
    reference token [DP<digits>.DO<word>] that occurs in the text, with
    digits of the class [\d] and word characters of the class [\w], which
    are the Unicode classes; every token that the bare-token pass finds has
    an entry; and an entry that the assignment pass did not make is
    empty. *)
Theorem direct_mappings_tokens (txt : text) :
  (forall k, In k (keys (extract_direct_mappings txt)) ->
             dp_token k /\ infix k txt)
  /\ (forall m, In m (finditer pat2 txt) ->
                dict_get (group 1 m) (extract_direct_mappings txt) <> None)
  /\ (forall k mm,
        dict_get k (extract_direct_mappings txt) = Some mm ->
        dict_get k (direct_pass1 txt) = None -> mm = empty_mapping).
Proof.
  split; [|split].
  - intros k Hk. apply direct_keys in Hk as [[m [Hm ->]] | [m [Hm ->]]].
    + rewrite pat1_shape in Hm.
      apply (scanned_token _ 2%nat) in Hm; [exact Hm | reflexivity].
    + rewrite pat2_shape in Hm.
      apply (scanned_token _ 0%nat) in Hm; [exact Hm | reflexivity].
  - intros m Hm. apply dict_get_keys, direct_keys. right. now exists m.
  - intros k mm Hk Hnone. unfold extract_direct_mappings, direct_pass2 in Hk.
    destruct (setdefault_fold (finditer pat2 txt) (direct_pass1 txt))
      as [extra [E F]].
    rewrite E, (dict_get_app_right _ _ _ Hnone) in Hk.
    apply dict_get_in in Hk. rewrite Forall_forall in F.
    now destruct (F _ Hk).
Qed.

Lemma direct_mappings_tokens_witness :
  dp_token (py "DP1.DO7") /\ infix (py "DP1.DO7") total_line.
Proof.
  apply (proj1 (direct_mappings_tokens total_line)).
  vm_compute. left. reflexivity.
Defined.

(** A digit of another script is a digit of the token: the key
    [DP1.DO7] with the ARABIC-INDIC DIGIT ONE for its first digit. *)
Example direct_mappings_arabic_digit :
  keys (extract_direct_mappings
          (py "see " ++ [68; 80; 1633] ++ py ".DO7 there"))
  = [[68; 80; 1633] ++ py ".DO7"].
Proof. vm_compute. reflexivity. Qed.

(** ** Synthesized identifiers *)

Lemma digits_of_value (fuel : nat) :
  forall n acc,
    (N.to_nat n < fuel)%nat ->
    fold_left (fun a d => 10 * a + (d - 48)) (digits_of fuel n acc) 0
    = fold_left (fun a d => 10 * a + (d - 48)) acc n.
Proof.
  induction fuel as [|f IH]; intros n acc Hn; [lia|].
  cbn [digits_of]. cbv zeta.
  destruct (n / 10 =? 0) eqn:E.
  - apply N.eqb_eq in E. apply N.div_small_iff in E; [|lia].
    cbn [fold_left]. f_equal. rewrite (N.mod_small n 10 E).
    rewrite (N.add_comm 48), N.add_sub. reflexivity.
  - apply N.eqb_neq in E.
    assert (Hlt : n / 10 < n).
    { apply N.div_lt; [|lia]. destruct (N.eq_dec n 0) as [->|]; [|lia].
      exfalso. apply E. reflexivity. }
    rewrite IH by lia. cbn [fold_left]. f_equal.
    rewrite (N.add_comm 48), N.add_sub.
    symmetry. apply N.div_mod. discriminate.
Qed.

Lemma int_of_str (i : nat) : int_of (str_of_nat i) = N.of_nat i.
Proof.
  unfold int_of, str_of_nat. rewrite digits_of_value by lia. reflexivity.
Qed.

Lemma str_of_nat_inj (i j : nat) : str_of_nat i = str_of_nat j -> i = j.
Proof.
  intros H. apply Nat2N.inj. now rewrite <- !int_of_str, H.
Qed.

Lemma form_key_inj (dp_id : text) (i j : nat) :
  form_key dp_id i = form_key dp_id j -> i = j.
Proof.
  unfold form_key. intros H. apply app_inv_head in H.
  apply app_inv_head in H. now apply str_of_nat_inj.
Qed.

Lemma keys_dict_set_old {V} (k : text) (v : V) (d : dict V) :
  In k (keys d) -> keys (dict_set k v d) = keys d.
Proof.
  induction d as [|[k0 v0] d IH]; simpl; [tauto|].
  destruct (text_eqb k0 k) eqn:E; simpl; [reflexivity|].
  intros [-> | H]; [now rewrite text_eqb_refl in E | now rewrite IH].
Qed.

Lemma keys_dict_set_new {V} (k : text) (v : V) (d : dict V) :
  ~ In k (keys d) -> keys (dict_set k v d) = keys d ++ [k].
Proof.
  induction d as [|[k0 v0] d IH]; simpl; [reflexivity|].
  intros H. destruct (text_eqb k0 k) eqn:E; simpl.
  - apply text_eqb_eq in E. subst. exfalso. apply H. now left.
  - rewrite IH; [reflexivity|]. intros H'. apply H. now right.
Qed.

(** Numbered keys written from index [a] on, into a dictionary that has
    the keys of the indices below [m]. *)
Lemma numbered_keys {A V} (key : nat -> text) (val : A -> V) (ms : list A) :
  (forall i j, key i = key j -> i = j) ->
  forall (a m : nat) (d : dict V),
    (a <= m)%nat ->
    keys d = List.map key (seq 0 m) ->
    keys (fold_left (fun out im => dict_set (key (fst im)) (val (snd im)) out)
                    (combine (seq a (List.length ms)) ms) d)
    = List.map key (seq 0 (Nat.max m (a + List.length ms))).
Proof.
  intros Hinj. induction ms as [|x ms IH]; intros a m d Ham Hd; simpl.
  - rewrite Hd. f_equal. f_equal. lia.
  - destruct (Nat.eq_dec a m) as [->|Hne].
    + rewrite (IH (S m) (S m)); [f_equal; f_equal; lia | lia |].
      rewrite keys_dict_set_new.
      * rewrite Hd, seq_S, map_app. reflexivity.
      * rewrite Hd. intros H. apply in_map_iff in H as [j [Hj Hin]].
        apply Hinj in Hj. subst j. apply in_seq in Hin. lia.
    + rewrite (IH (S a) m); [f_equal; f_equal; lia | lia |].
      rewrite keys_dict_set_old; [exact Hd|].
      rewrite Hd. apply in_map_iff. exists a. split; [reflexivity|].
      apply in_seq. lia.
Qed.

(** X3. The Formula Attribute Scanner yields as many records as the most
    frequent of the three attribute kinds has matches, under the
    identifiers numbered from 0: the matches of the other kinds share these
    identifiers. *)
Theorem formula_records_count (txt dp_id : text) :
  keys (extract_dp_formulas txt dp_id)
  = List.map (form_key dp_id)
      (seq 0 (Nat.max (List.length (finditer (attr_re "formula=") txt))
                (Nat.max (List.length (finditer (attr_re "expression=") txt))
                         (List.length (finditer (attr_re "calculation=") txt))))).
Proof.
  unfold extract_dp_formulas, formula_patterns, enumerate. cbn [fold_left].
  set (n1 := List.length (finditer (attr_re "formula=") txt)).
  set (n2 := List.length (finditer (attr_re "expression=") txt)).
  set (n3 := List.length (finditer (attr_re "calculation=") txt)).
  pose proof (numbered_keys (form_key dp_id) (fun m => strip (group 1 m))
                (finditer (attr_re "formula=") txt) (form_key_inj dp_id)
                0 0 [] (Nat.le_refl 0) eq_refl) as H1.
  fold n1 in H1. simpl in H1.
  pose proof (numbered_keys (form_key dp_id) (fun m => strip (group 1 m))
                (finditer (attr_re "expression=") txt) (form_key_inj dp_id)
                0 _ _ (Nat.le_0_l _) H1) as H2.
  fold n2 in H2. simpl in H2.
  pose proof (numbered_keys (form_key dp_id) (fun m => strip (group 1 m))
                (finditer (attr_re "calculation=") txt) (form_key_inj dp_id)
                0 _ _ (Nat.le_0_l _) H2) as H3.
  fold n3 in H3. simpl in H3.
  rewrite H3. f_equal. f_equal. lia.
Qed.

(** ** Folds with errors *)

Lemma fold_bind_inl {A B} (step : A -> B -> result B) (l : list A) (e : exn) :
  fold_left (fun acc a => bind acc (step a)) l (inl e) = inl e.
Proof.
  induction l as [|a l IH]; simpl; [reflexivity | exact IH].
Qed.

Lemma fold_bind_invariant {A B} (P : B -> Prop) (step : A -> B -> result B)
    (l : list A) :
  (forall a b b', P b -> step a b = inr b' -> P b') ->
  forall b r,
    P b -> fold_left (fun acc a => bind acc (step a)) l (inr b) = inr r -> P r.
Proof.
  intros Hstep. induction l as [|a l IH]; intros b r Hb H; simpl in H.
  - now injection H as <-.
  - destruct (step a b) as [e|b'] eqn:E.
    + rewrite fold_bind_inl in H. discriminate.
    + apply (IH b' r); [now apply (Hstep a b) | exact H].
Qed.

Lemma fold_left_invariant {A B} (P : B -> Prop) (step : B -> A -> B)
    (l : list A) :
  (forall b a, P b -> P (step b a)) ->
  forall b, P b -> P (fold_left step l b).
Proof.
  intros Hstep. induction l as [|a l IH]; intros b Hb; simpl;
    [exact Hb | apply IH, Hstep, Hb].
Qed.

Lemma NoDup_map_inj {A B} (f : A -> B) (l : list A) :
  (forall x y, f x = f y -> x = y) -> NoDup l -> NoDup (List.map f l).
Proof.
  intros Hf. induction 1 as [|x l Hx Hl IH]; simpl; constructor; trivial.
  intros H. apply in_map_iff in H as [y [Hy Hin]].
  apply Hf in Hy. now subst.
Qed.

(** ** Document-Level Scanners *)

Lemma scan_documents_ids (words : list string) (prefix : string)
    (patterns : list regex) (z : archive)
    (results : list DocumentLevelEntry) :
  scan_documents words prefix patterns z = inr results ->
  List.map de_id results
  = List.map (fun i => py prefix ++ str_of_nat i)
             (seq 0 (List.length results)).
Proof.
  unfold scan_documents.
  set (P := fun rs : list DocumentLevelEntry =>
              List.map de_id rs
              = List.map (fun i => py prefix ++ str_of_nat i)
                         (seq 0 (List.length rs))).
  apply (fold_bind_invariant P
           (fun fn results =>
              if path_mentions words fn then
                match decode_document (zread z fn) with
                | None => inl UnicodeDecodeError
                | Some txt =>
                    inr (fold_left
                           (fun results pat =>
                              fold_left (document_entry prefix fn)
                                        (finditer pat txt) results)
                           patterns results)
                end
              else inr results)); [|reflexivity].
  intros fn b b' Hb H.
  destruct (path_mentions words fn); [|now injection H as <-].
  destruct (decode_document (zread z fn)) as [txt|]; [|discriminate].
  injection H as <-.
  apply fold_left_invariant; [|exact Hb].
  intros rs pat Hrs. apply fold_left_invariant; [|exact Hrs].
  clear. intros rs m Hrs. unfold P, document_entry in *.
  rewrite map_app, length_app, Hrs. simpl.
  rewrite Nat.add_1_r, seq_S, map_app. reflexivity.
Qed.

(** X4. The identifiers of the document-level entries are [CF_0], [CF_1],
    ... and [RV_0], [RV_1], ... in the order of discovery, across files and
    patterns, so no two entries of a kind share an identifier. *)
Theorem document_ids_sequential (z : archive)
    (results : list DocumentLevelEntry) :
  (extract_calculated_fields z = inr results ->
     List.map de_id results
     = List.map (fun i => py "CF_" ++ str_of_nat i)
                (seq 0 (List.length results))
     /\ NoDup (List.map de_id results))
  /\ (extract_report_variables z = inr results ->
        List.map de_id results
        = List.map (fun i => py "RV_" ++ str_of_nat i)
                   (seq 0 (List.length results))
        /\ NoDup (List.map de_id results)).
Proof.
  assert (Hnd : forall prefix n,
             NoDup (List.map (fun i => py prefix ++ str_of_nat i) (seq 0 n))).
  { intros prefix n. apply NoDup_map_inj; [|apply seq_NoDup].
    intros i j H. apply app_inv_head in H. now apply str_of_nat_inj. }
  split; intros H; apply scan_documents_ids in H; (split; [exact H|]);
    rewrite H; apply Hnd.
Qed.

Lemma document_ids_sequential_witness :
  List.map de_id [mkDocEntry (py "CF_0") (py "Margin") (py "A-B")
                             (py "From Documents/DOCUMENT.xml")]
  = List.map (fun i => py "CF_" ++ str_of_nat i) (seq 0 1)
  /\ NoDup (List.map de_id [mkDocEntry (py "CF_0") (py "Margin") (py "A-B")
                                       (py "From Documents/DOCUMENT.xml")]).
Proof.
  apply (proj1 (document_ids_sequential document_archive
                  [mkDocEntry (py "CF_0") (py "Margin") (py "A-B")
                              (py "From Documents/DOCUMENT.xml")])).
  vm_compute. reflexivity.
Defined.

(** [str.upper] follows the Unicode case mapping: the LATIN SMALL LETTER
    LONG S becomes [S], and the name is one of the documents scanned. *)
Example path_mentions_long_s :
  path_mentions ["DOCUMENT"; "REPORT"; "STRUCTURE"]%string
    (383 :: py "tructure.xml") = true.
Proof. vm_compute. reflexivity. Qed.

(** ** Decoding with [errors='ignore'] *)

Lemma utf16le_decode_ignore_total (n : nat) :
  forall bs, (List.length bs <= n)%nat ->
             exists t, utf16le_decode Ignore bs = Some t.
Proof.
  induction n as [|n IH]; intros bs Hn.
  - destruct bs; [now exists [] | simpl in Hn; lia].
  - destruct bs as [|lo [|hi r]]; [now exists [] | now exists [] |].
    simpl in Hn.
    assert (H1 : exists t, utf16le_decode Ignore r = Some t) by (apply IH; lia).
    destruct H1 as [t1 H1].
    cbn [utf16le_decode]. cbv zeta.
    destruct (is_high_surrogate (lo + 256 * hi)).
    + destruct r as [|lo2 [|hi2 r']]; [now exists [] | now exists [] |].
      destruct (is_low_surrogate (lo2 + 256 * hi2)).
      * destruct (IH r') as [t E]; [simpl in Hn; lia|].
        unfold emit. rewrite E. simpl. eauto.
      * unfold on_error. eauto.
    + destruct (is_low_surrogate (lo + 256 * hi)).
      * unfold on_error. eauto.
      * unfold emit. rewrite H1. simpl. eauto.
Qed.

Lemma decode_document_total (raw : list byte) :
  exists t, decode_document raw = Some t.
Proof.
  unfold decode_document, bytes_decode.
  destruct (utf16le_decode_ignore_total _ (List.map Byte.to_N raw)
              (Nat.le_refl _)) as [t ->].
  eauto.
Qed.

Lemma decoded_total (raw : list byte) : exists t, decoded raw = inr t.
Proof.
  unfold decoded, decode_text. destruct (decode_with_total Ignore raw) as [t ->].
  eauto.
Qed.

(** ** The identifier of a provider folder *)

Lemma split_on_nonempty (sep : char) (s : text) : split_on sep s <> [].
Proof.
  destruct s as [|c s]; simpl; [discriminate|].
  destruct (c =? sep); [discriminate|].
  destruct (split_on sep s); discriminate.
Qed.

Lemma split_on_snoc_sep (sep : char) (s : text) :
  split_on sep (s ++ [sep]) = split_on sep s ++ [[]].
Proof.
  induction s as [|c s IH]; simpl.
  - now rewrite N.eqb_refl.
  - destruct (c =? sep); [now rewrite IH|].
    rewrite IH. pose proof (split_on_nonempty sep s).
    destruct (split_on sep s); [contradiction | reflexivity].
Qed.

Lemma endswith_slash (f : text) :
  endswith (py "/") f = true -> exists f', f = f' ++ [47].
Proof.
  unfold endswith. change (rev (py "/")) with [47].
  destruct (rev f) as [|c r] eqn:E; cbn [startswith]; [discriminate|].
  rewrite andb_true_r, N.eqb_eq. intros <-.
  exists (rev r). rewrite <- (rev_involutive f), E. reflexivity.
Qed.

(** The folder names that step 4 visits have a component before their
    last slash: [split('/')[-2]] is in range. *)
Lemma folder_has_id (f : text) :
  endswith (py "/") f = true ->
  exists dp_id, second_last (split_on 47 f) = Some dp_id.
Proof.
  intros H. apply endswith_slash in H as [f' ->].
  rewrite split_on_snoc_sep. unfold second_last.
  rewrite rev_app_distr. simpl.
  pose proof (split_on_nonempty 47 f') as Hne.
  destruct (rev (split_on 47 f')) as [|x l] eqn:E; [|eauto].
  exfalso. apply Hne. rewrite <- (rev_involutive (split_on 47 f')), E.
  reflexivity.
Qed.

Lemma dp_folders_slash (z : archive) (f : text) :
  In f (dp_folders z) -> endswith (py "/") f = true.
Proof.
  unfold dp_folders. intros H. apply filter_In in H as [_ H].
  now apply andb_true_iff in H as [H _].
Qed.

(** The last component of [split(sep)] is what follows the last
    separator, or the whole string when it has none. *)
Lemma split_on_last (sep : char) (s : text) :
  exists pre w front,
    s = pre ++ w /\ ~ In sep w
    /\ (pre = [] \/ exists p, pre = p ++ [sep])
    /\ split_on sep s = front ++ [w]
    /\ (front = [] <-> pre = []).
Proof.
  induction s as [|c r IH].
  - exists [], [], []. simpl. repeat split; auto.
  - destruct IH as (pre & w & front & E & Hw & Hpre & Hs & Hiff).
    cbn [split_on]. destruct (c =? sep) eqn:Ec.
    + apply N.eqb_eq in Ec. subst c.
      exists (sep :: pre), w, ([] :: front). rewrite Hs, E.
      repeat split; try discriminate; auto.
      right. destruct Hpre as [-> | [p ->]]; [now exists [] | now exists (sep :: p)].
    + apply N.eqb_neq in Ec. rewrite Hs.
      destruct front as [|x fr].
      * assert (pre = []) as -> by now apply Hiff.
        simpl in E. subst r. exists [], (c :: w), []. simpl.
        repeat split; auto. intros [H | H]; [congruence | contradiction].
      * assert (Hne : pre <> []).
        { intros H. apply Hiff in H. discriminate. }
        exists (c :: pre), w, ((c :: x) :: fr). rewrite E. simpl.
        repeat split; try discriminate; auto.
        right. destruct Hpre as [-> | [p ->]]; [contradiction|].
        now exists (c :: p).
Qed.

Lemma startswith_app (p s : text) :
  startswith p s = true -> exists b, s = p ++ b.
Proof.
  revert s; induction p as [|a p IH]; intros s; simpl.
  - intros _. now exists s.
  - destruct s as [|c s]; [discriminate|].
    intros H. apply andb_true_iff in H as [H1 H2]. apply N.eqb_eq in H1.
    subst c. destruct (IH s H2) as [b ->]. now exists b.
Qed.

Lemma contains_app (p s : text) :
  contains p s = true -> exists a b, s = a ++ p ++ b.
Proof.
  induction s as [|c s IH]; cbn [contains]; intros H;
    apply orb_true_iff in H as [H | H].
  - apply startswith_app in H as [b ->]. now exists [], b.
  - discriminate.
  - apply startswith_app in H as [b ->]. now exists [], b.
  - destruct (IH H) as (a & b & ->). now exists (c :: a), b.
Qed.

Lemma in_before_last {A} (l a c : list A) (x y : A) :
  l ++ [x] = a ++ y :: c -> c <> [] -> In y l.
Proof.
  intros E Hc. destruct (exists_last Hc) as (c' & z & ->).
  change (a ++ y :: c' ++ [z]) with (a ++ (y :: c') ++ [z]) in E.
  rewrite app_assoc in E. apply app_inj_tail in E as [-> _].
  apply in_or_app. right. now left.
Qed.

(** X5. The provider identifier of a folder that step 4 visits always
    exists: the name of the folder ends with a slash and has another slash
    before it, and [split('/')[-2]] is what stands between the last two
    slashes of the name. *)
Theorem provider_id_component (z : archive) (f : text) :
  In f (dp_folders z) ->
  exists pre dp_id,
    second_last (split_on 47 f) = Some dp_id
    /\ f = pre ++ [47] ++ dp_id ++ [47]
    /\ ~ In 47 dp_id.
Proof.
  intros H.
  assert (Hc : contains (py "/DATAPROVIDERS/DP") f = true).
  { unfold dp_folders in H. apply filter_In in H as [_ H].
    now apply andb_true_iff in H as [_ H]. }
  apply dp_folders_slash in H. apply endswith_slash in H as [f' ->].
  apply contains_app in Hc as (a & b & Hc).
  assert (Hin : In 47 f').
  { change (py "/DATAPROVIDERS/DP") with (47 :: py "DATAPROVIDERS/DP") in Hc.
    apply (in_before_last f' a (py "DATAPROVIDERS/DP" ++ b) 47 47 Hc).
    discriminate. }
  destruct (split_on_last 47 f') as (pre & w & front & E & Hw & Hpre & Hs & Hiff).
  destruct Hpre as [-> | [p ->]].
  - simpl in E. subst f'. contradiction.
  - exists p, w. rewrite split_on_snoc_sep, Hs. unfold second_last.
    rewrite !rev_app_distr. simpl. rewrite E, <- !app_assoc.
    repeat split; auto.
Qed.

Lemma provider_id_component_witness :
  exists pre dp_id,
    second_last (split_on 47 (py "Data/DATAPROVIDERS/DP0/")) = Some dp_id
    /\ py "Data/DATAPROVIDERS/DP0/" = pre ++ [47] ++ dp_id ++ [47]
    /\ ~ In 47 dp_id.
Proof.
  apply (provider_id_component revenue_archive (py "Data/DATAPROVIDERS/DP0/")).
  vm_compute. left. reflexivity.
Defined.

(** ** Invariants of the collected rows *)

Lemma dict_set_in {V} (kv : text * V) (k : text) (v : V) (d : dict V) :
  In kv (dict_set k v d) -> (fst kv = k /\ snd kv = v) \/ In kv d.
Proof.
  induction d as [|[k0 v0] d IH]; simpl.
  - intros [<- | []]. now left.
  - destruct (text_eqb k0 k) eqn:E; simpl.
    + apply text_eqb_eq in E. subst k0.
      intros [<- | H]; [now left | right; now right].
    + intros [<- | H]; [right; now left|].
      destruct (IH H) as [H' | H']; [now left | right; now right].
Qed.

Lemma dict_set_all {V} (P : text * V -> Prop) (k : text) (v : V) (d : dict V) :
  P (k, v) -> Forall P d -> Forall P (dict_set k v d).
Proof.
  intros Hkv Hd. apply Forall_forall. intros [k' v'] Hin.
  apply dict_set_in in Hin as [[E1 E2] | Hin]; simpl in *.
  - now subst.
  - rewrite Forall_forall in Hd. now apply Hd.
Qed.

Lemma truthy_nonempty (o : option text) : truthy o = true -> or_empty o <> [].
Proof.
  destruct o as [[|c t]|]; simpl; discriminate.
Qed.

Lemma mine_element_ok (info : dict FieldInfo) (el : element) :
  Forall field_ok info -> Forall field_ok (mine_element info el).
Proof.
  intros H. unfold mine_element.
  match goal with
  | |- context [if truthy ?a && truthy ?b then _ else _] =>
      destruct (truthy a) eqn:Ea; simpl; [|exact H];
      destruct (truthy b) eqn:Eb; simpl; [|exact H]
  end.
  apply dict_set_all; [|exact H]. split; simpl.
  - now apply truthy_nonempty.
  - intros Hc. apply negb_false_iff in Hc. now apply text_eqb_eq in Hc.
Qed.

Lemma mine_calculation_ok (info : dict FieldInfo) (m : rmatch) :
  Forall field_ok info -> Forall field_ok (mine_calculation info m).
Proof.
  intros H. unfold mine_calculation.
  apply dict_set_all; [|exact H]. split; simpl; discriminate.
Qed.

Lemma miner_records_ok ET_fromstring (xml_text : text) :
  Forall field_ok (extract_comprehensive_field_info ET_fromstring xml_text).
Proof.
  unfold extract_comprehensive_field_info.
  destruct xml_text as [|c t]; [constructor|].
  destruct (ET_fromstring (c :: t)) as [root|]; [|constructor].
  apply fold_left_invariant; [apply mine_calculation_ok|].
  apply fold_left_invariant; [apply mine_element_ok | constructor].
Qed.

Lemma miner_keys_distinct ET_fromstring (xml_text : text) :
  NoDup (keys (extract_comprehensive_field_info ET_fromstring xml_text)).
Proof.
  unfold extract_comprehensive_field_info.
  destruct xml_text as [|c t]; [constructor|].
  destruct (ET_fromstring (c :: t)) as [root|]; [|constructor].
  apply (fold_left_invariant (fun d : dict FieldInfo => NoDup (keys d))).
  - intros d m Hd. unfold mine_calculation. now apply dict_set_distinct.
  - apply (fold_left_invariant (fun d : dict FieldInfo => NoDup (keys d)));
      [|constructor].
    intros d el Hd. unfold mine_element.
    match goal with
    | |- context [if ?c then _ else _] => destruct c
    end; [now apply dict_set_distinct | exact Hd].
Qed.

(** X6. The dictionary of the XML miner, whatever the parser returns: the
    identifiers are distinct and not empty, and a record that is not marked
    calculated has an empty expression.  An empty or unparsable fragment
    gives the empty dictionary. *)
Theorem miner_records (ET_fromstring : text -> option element)
    (xml_text : text) :
  NoDup (keys (extract_comprehensive_field_info ET_fromstring xml_text))
  /\ Forall field_ok (extract_comprehensive_field_info ET_fromstring xml_text)
  /\ (xml_text = [] \/ ET_fromstring xml_text = None ->
      extract_comprehensive_field_info ET_fromstring xml_text = []).
Proof.
  split; [apply miner_keys_distinct|]. split; [apply miner_records_ok|].
  unfold extract_comprehensive_field_info.
  intros [-> | H]; [reflexivity|].
  destruct xml_text; [reflexivity | now rewrite H].
Qed.

Lemma miner_records_witness :
  extract_comprehensive_field_info read_xml (py "<QuerySpec><object>") = [].
Proof.
  apply (proj2 (proj2 (miner_records read_xml (py "<QuerySpec><object>")))).
  right. vm_compute. reflexivity.
Defined.

Lemma merged_row_origin dp_id dp_name (field_info : dict FieldInfo)
    (direct_map : dict DirectMapping) (dp_forms : dict text)
    (out : list MappingRecord) (r : MappingRecord) :
  In r (process_enhanced_mappings dp_id dp_name field_info direct_map
                                  dp_forms out) ->
  In r out
  \/ (exists kv, In kv field_info
                 /\ r = field_row dp_id dp_name (fst kv) (snd kv))
  \/ (exists kv, In kv direct_map
                 /\ r = direct_row dp_id dp_name (fst kv) (snd kv))
  \/ (exists kv, In kv dp_forms
                 /\ r = formula_row dp_id dp_name (fst kv) (snd kv)).
Proof.
  unfold process_enhanced_mappings.
  rewrite merge_forms_rows, merge_fields_rows.
  destruct (merge_direct_rows dp_id dp_name direct_map
              (out ++ List.map (fun kv => field_row dp_id dp_name (fst kv) (snd kv))
                               field_info))
    as [ds [-> [Hin _]]].
  rewrite !in_app_iff, !in_map_iff.
  intros [[[H | [kv [<- H]]] | [kv [<- H]]] | [kv [<- H]]].
  - now left.
  - right. left. now exists kv.
  - right. right. left. exists kv. split; [now apply Hin | reflexivity].
  - right. right. right. now exists kv.
Qed.

Lemma clean_identifier_like (name : text) :
  identifier_like (clean_column_name name).
Proof. apply clean_column_name_shape. Qed.

Lemma field_row_ok dp_id dp_name (kv : text * FieldInfo) :
  field_ok kv -> row_ok (field_row dp_id dp_name (fst kv) (snd kv)).
Proof.
  intros [_ Hc]. unfold row_ok, field_row, field_type_of; simpl.
  repeat split; try apply clean_column_name_shape.
  - destruct (fi_is_calculated (snd kv)); [right; now left | now left].
  - destruct (fi_is_calculated (snd kv)); [discriminate | intros _; now apply Hc].
  - now right.
Qed.

Lemma direct_row_ok dp_id dp_name tid mm :
  row_ok (direct_row dp_id dp_name tid mm).
Proof.
  unfold row_ok, direct_row; simpl.
  repeat split; try apply clean_column_name_shape; [now left | now left].
Qed.

Lemma formula_row_ok dp_id dp_name fid formula :
  row_ok (formula_row dp_id dp_name fid formula).
Proof.
  unfold row_ok, formula_row; simpl.
  repeat split; try apply clean_column_name_shape.
  - right. right. now left.
  - discriminate.
  - now left.
Qed.

Lemma document_row_ok (calc : bool) (e : DocumentLevelEntry) :
  row_ok (if calc
          then document_row "CALC" "Document Variables" "Calculated Field" e
          else document_row "VAR" "Report Variables" "Report Variable" e).
Proof.
  destruct calc; unfold row_ok, document_row; simpl;
    repeat split; try apply clean_column_name_shape;
    try discriminate; try (now left).
  - right. now left.
  - right. right. now right.
Qed.

Lemma merged_rows_ok ET_fromstring dp_id dp_name (xml : option text)
    (direct_map : dict DirectMapping) (dp_forms : dict text)
    (out : list MappingRecord) :
  Forall row_ok out ->
  Forall row_ok
    (process_enhanced_mappings dp_id dp_name
       match xml with
       | Some x => extract_comprehensive_field_info ET_fromstring x
       | None => []
       end direct_map dp_forms out).
Proof.
  intros Hout. apply Forall_forall. intros r Hr.
  apply merged_row_origin in Hr
    as [H | [[kv [Hk ->]] | [[kv [Hk ->]] | [kv [Hk ->]]]]].
  - rewrite Forall_forall in Hout. now apply Hout.
  - apply field_row_ok. destruct xml as [x|]; [|contradiction].
    pose proof (miner_records_ok ET_fromstring x) as F.
    rewrite Forall_forall in F. now apply F.
  - apply direct_row_ok.
  - apply formula_row_ok.
Qed.

Lemma collected_rows_ok ET_fromstring (z : archive)
    (mappings : list MappingRecord) :
  collect_mappings ET_fromstring z = inr mappings -> Forall row_ok mappings.
Proof.
  unfold collect_mappings.
  destruct (extract_data_provider_names z) as [e|dp_names]; [discriminate|].
  destruct (extract_calculated_fields z) as [e|cf]; [discriminate|].
  destruct (extract_report_variables z) as [e|rv]; [discriminate|].
  cbn [bind].
  destruct (fold_left (provider_step ET_fromstring z dp_names) (dp_folders z)
                      (inr [])) as [e|m] eqn:E; [discriminate|].
  cbn [bind]. intros [= <-].
  apply Forall_app. split; [|apply Forall_app; split].
  - revert E.
    apply (fold_bind_invariant (Forall row_ok)
             (fun dp_folder mappings =>
                provider_step ET_fromstring z dp_names (inr mappings)
                              dp_folder)); [|constructor].
    intros f b b' Hb H. unfold provider_step in H. cbn [bind] in H.
    destruct (second_last (split_on 47 f)) as [dp_id|]; [|discriminate].
    destruct (negb (name_in (f ++ py "DP_Generic") (namelist z)));
      [now injection H as <-|].
    destruct (decoded (zread z (f ++ py "DP_Generic"))) as [e|txt];
      [discriminate|].
    cbn [bind] in H. injection H as <-. now apply merged_rows_ok.
  - apply Forall_map, Forall_forall. intros e _.
    apply (document_row_ok true).
  - apply Forall_map, Forall_forall. intros e _.
    apply (document_row_ok false).
Qed.

(** X7. Every row of a written table has one of the four field types, an
    empty Databricks Table, a Databricks Column of lower-case letters,
    digits and underscores that begins with a letter unless it is empty, an
    empty Formula when its type is Data Field, and an XML ID that is empty
    or equal to its Technical ID. *)
Theorem written_rows_invariants ET_fromstring (z : archive)
    (excel : list sheet) (table : list MappingRecord) :
  extract_from_archive ET_fromstring z = Written excel table ->
  Forall row_ok table.
Proof.
  unfold extract_from_archive.
  destruct (collect_mappings ET_fromstring z) as [e|m] eqn:E; [discriminate|].
  apply collected_rows_ok in E. unfold write_report.
  destruct m as [|r l]; [discriminate|]. intros [= _ <-].
  apply (Permutation_Forall (sort_values_perm (r :: l)) E).
Qed.

Lemma written_rows_invariants_witness :
  Forall row_ok
    [mkRow (py "DP1") (py "DP1") (py "DP1.DO7") (py "Total")
           (py "Data Field") [] (py "Direct mapping") (py "42") []
           (py "total") []].
Proof.
  apply (written_rows_invariants read_xml total_archive
           (excel_sheets
              [mkRow (py "DP1") (py "DP1") (py "DP1.DO7") (py "Total")
                     (py "Data Field") [] (py "Direct mapping") (py "42") []
                     (py "total") []])).
  vm_compute. reflexivity.
Defined.

(** ** Shape of a normalized column name *)

Lemma take_while_all (p : char -> bool) (w rest : text) :
  Forall (fun c => p c = true) w ->
  (List.length w <= List.length (take_while p (w ++ rest)))%nat.
Proof.
  induction 1 as [|c w Hc Hw IH]; simpl; [lia|].
  rewrite Hc. simpl. lia.
Qed.

Lemma match_plus_length (p : char -> bool) (pv : option char) (s : text)
    (m : rmatch) :
  match_at [plus p] pv s = Some m ->
  (1 <= m_len m <= List.length (take_while p s))%nat.
Proof.
  intros M. apply match_at_path in M as [rest [st' [P [L _]]]].
  apply path_first_plus in P as [w [s' [-> [Hne [F P]]]]].
  inversion P; subst. rewrite L, eat_all_used. simpl.
  pose proof (take_while_all p w rest F).
  destruct w; [contradiction | simpl in *; lia].
Qed.

Lemma sub_plus_keeps (p : char -> bool) (repl : text) (c : char) (s : text) :
  p c = false ->
  forall pv skip,
    (skip <= List.length (take_while p s))%nat ->
    In c s -> In c (sub_scan [plus p] repl pv skip s).
Proof.
  intros Hc. induction s as [|c0 s IH]; intros pv skip Hs Hin; [contradiction|].
  simpl in Hs. cbn [sub_scan].
  destruct skip as [|k].
  - destruct (match_at [plus p] pv (c0 :: s)) as [m|] eqn:M.
    + apply match_plus_length in M. simpl in M.
      destruct (p c0) eqn:E; [|simpl in M; lia].
      apply in_or_app. right. apply IH; [simpl in M; lia|].
      destruct Hin as [-> | Hin]; [congruence | exact Hin].
    + destruct Hin as [-> | Hin]; [now left | right].
      apply IH; [lia | exact Hin].
  - destruct (p c0) eqn:E; [|simpl in Hs; lia].
    apply IH; [simpl in Hs; lia|].
    destruct Hin as [-> | Hin]; [congruence | exact Hin].
Qed.

Lemma lstrip_keeps (p : char -> bool) (c : char) (s : text) :
  p c = false -> In c s -> In c (lstrip p s).
Proof.
  intros Hc. induction s as [|c0 s IH]; simpl; [tauto|].
  destruct (p c0) eqn:E; [|intros H; exact H].
  intros [-> | H]; [congruence | now apply IH].
Qed.

Lemma strip_by_keeps (p : char -> bool) (c : char) (s : text) :
  p c = false -> In c s -> In c (strip_by p s).
Proof.
  intros Hc H. unfold strip_by, rstrip.
  apply in_rev. rewrite rev_involutive.
  apply lstrip_keeps; trivial. apply -> in_rev. now apply lstrip_keeps.
Qed.

Lemma lstrip_all (p : char -> bool) (s : text) :
  Forall (fun c => p c = true) s -> lstrip p s = [].
Proof.
  induction 1 as [|c s Hc Hs IH]; simpl; [reflexivity | now rewrite Hc].
Qed.

Lemma strip_by_last (p : char -> bool) (s : text) :
  match rev (strip_by p s) with
  | c :: _ => p c = false
  | [] => True
  end.
Proof.
  unfold strip_by, rstrip. rewrite rev_involutive. apply lstrip_head.
Qed.

(** X8. A normalized column name consists of lower-case letters, digits
    and underscores, begins with a letter and does not end with an
    underscore; it is empty exactly when the name has no ASCII letter or
    digit. *)
Theorem column_name_shape (name : text) :
  identifier_like (clean_column_name name)
  /\ match rev (clean_column_name name) with
     | c :: _ => is_underscore c = false
     | [] => True
     end
  /\ (clean_column_name name = []
      <-> Forall (fun c => is_alnum c = false) name).
Proof.
  split; [apply clean_column_name_shape|].
  unfold clean_column_name, re_sub. rewrite sub_chr_filter.
  set (s1 := filter (fun c => negb (not_alnum_space c)) name).
  set (s2 := sub_scan [plus isspace] (py "_") None 0 s1).
  set (s3 := strip_by is_underscore s2).
  assert (Hlast : match rev (lower s3) with
                  | c :: _ => is_underscore c = false
                  | [] => True
                  end).
  { pose proof (strip_by_last is_underscore s2) as H. fold s3 in H.
    unfold lower. rewrite <- map_rev. destruct (rev s3) as [|h r]; [exact I|].
    simpl. clear - H. chars. }
  assert (Hempty : s3 = [] <-> Forall (fun c => is_alnum c = false) name).
  { split.
    - intros E. apply Forall_forall. intros c Hc.
      destruct (is_alnum c) eqn:Ea; [|reflexivity]. exfalso.
      assert (In c s3); [|rewrite E in *; contradiction].
      apply strip_by_keeps; [clear - Ea; chars|].
      apply sub_plus_keeps; [clear - Ea; chars | simpl; lia |].
      apply filter_In. split; [exact Hc|].
      unfold not_alnum_space. now rewrite Ea.
    - intros Hn.
      assert (H1 : Forall (fun c => isspace c = true) s1).
      { apply Forall_forall. intros c Hc. apply filter_In in Hc as [Hc Hk].
        rewrite Forall_forall in Hn. specialize (Hn c Hc).
        unfold not_alnum_space in Hk. now rewrite Hn, negb_involutive in Hk. }
      assert (H2 : Forall (fun c => is_underscore c = true) s2).
      { apply sub_plus_chars; [repeat constructor|].
        revert H1. apply Forall_impl. intros c Hs Hf. congruence. }
      unfold s3, strip_by. now rewrite (lstrip_all _ _ H2). }
  split.
  - destruct (lower s3) as [|h r] eqn:E; [exact I|].
    destruct (negb (isalpha h)); [|exact Hlast].
    rewrite rev_app_distr.
    destruct (rev (h :: r)) as [|x y] eqn:R; [|exact Hlast].
    apply (f_equal (@List.length char)) in R. rewrite length_rev in R.
    discriminate.
  - rewrite <- Hempty. unfold lower.
    destruct s3 as [|h r]; simpl; [tauto|].
    destruct (negb (isalpha (lower_char h))); split; discriminate.
Qed.

Lemma column_name_shape_witness :
  clean_column_name (py "$ % -") = [].
Proof.
  apply (proj2 (proj2 (column_name_shape (py "$ % -")))).
  repeat constructor.
Defined.

(** ** The workbook and the table *)

Lemma filter_partition {A} (p : A -> bool) (l : list A) :
  Permutation l (filter p l ++ filter (fun x => negb (p x)) l).
Proof.
  induction l as [|x l IH]; simpl; [constructor|].
  destruct (p x); simpl.
  - now constructor.
  - now apply Permutation_cons_app.
Qed.

Lemma filter_sorted {A} (R : A -> A -> Prop) (p : A -> bool) (l : list A) :
  StronglySorted R l -> StronglySorted R (filter p l).
Proof.
  induction 1 as [|x l Hs IH Hx]; simpl; [constructor|].
  destruct (p x); [|exact IH].
  constructor; [exact IH|].
  apply Forall_forall. intros y Hy. apply filter_In in Hy as [Hy _].
  rewrite Forall_forall in Hx. now apply Hx.
Qed.

Lemma filter_subsequence {A} (p : A -> bool) (l : list A) :
  subsequence (filter p l) l.
Proof.
  induction l as [|x l IH]; simpl; [constructor|].
  destruct (p x); now constructor.
Qed.

Lemma subsequence_refl {A} (l : list A) : subsequence l l.
Proof. induction l; now constructor. Qed.

(** X9. The sheets after [All Fields] divide the table: their rows
    together are the rows of the table, each once, and a row stands on the
    sheet [Calculated Fields] exactly when it is a Calculated Field or a
    Report Variable.  Every sheet holds rows of the table in the order of
    the table, so that every sheet is ordered by provider label and then
    by display name. *)
Theorem workbook_partition (mappings : list MappingRecord)
    (excel : list sheet) (table : list MappingRecord) :
  write_report mappings = Written excel table ->
  Permutation table (List.concat (List.map snd (tl excel)))
  /\ (forall name rows r,
        In (name, rows) (tl excel) -> In r rows ->
        (is_calculated_row r = true <-> name = "Calculated Fields"%string))
  /\ (forall name rows,
        In (name, rows) excel ->
        subsequence rows table /\ StronglySorted row_before rows).
Proof.
  intros H.
  assert (Hs : StronglySorted row_before table /\ excel = excel_sheets table).
  { unfold write_report in H. destruct mappings as [|r l]; [discriminate|].
    injection H as <- <-. split; [apply (sort_values_ordered (r :: l))|].
    reflexivity. }
  destruct Hs as [Hs ->]. rewrite excel_sheets_shape.
  assert (Hf : forall p, subsequence (filter p table) table
                         /\ StronglySorted row_before (filter p table)).
  { intros p. split; [apply filter_subsequence | now apply filter_sorted]. }
  cbn [app tl]. split; [|split].
  - destruct (existsb is_calculated_row table) eqn:X; simpl.
    + rewrite app_nil_r. apply filter_partition.
    + rewrite app_nil_r. apply filter_nil_existsb in X.
      pose proof (filter_partition is_calculated_row table) as P.
      now rewrite X in P.
  - intros name rows r Hin Hr.
    assert (Hc : In (name, rows)
                   [("Calculated Fields"%string, filter is_calculated_row table);
                    ("Data Fields"%string,
                     filter (fun r => negb (is_calculated_row r)) table)]).
    { destruct (existsb is_calculated_row table); simpl in Hin |- *; tauto. }
    simpl in Hc. destruct Hc as [[= <- <-] | [[= <- <-] | []]].
    + apply filter_In in Hr as [_ Hr]. tauto.
    + apply filter_In in Hr as [_ Hr]. apply negb_true_iff in Hr.
      rewrite Hr. split; discriminate.
  - intros name rows Hin. simpl in Hin. destruct Hin as [[= _ <-] | Hin].
    + split; [apply subsequence_refl | exact Hs].
    + destruct (existsb is_calculated_row table); simpl in Hin.
      * destruct Hin as [[= _ <-] | [[= _ <-] | []]]; apply Hf.
      * destruct Hin as [[= _ <-] | []]; apply Hf.
Qed.

Lemma workbook_partition_witness :
  Permutation (sort_values sample_rows)
    (List.concat (List.map snd (tl (excel_sheets (sort_values sample_rows)))))
  /\ (forall name rows r,
        In (name, rows) (tl (excel_sheets (sort_values sample_rows))) ->
        In r rows ->
        (is_calculated_row r = true <-> name = "Calculated Fields"%string))
  /\ (forall name rows,
        In (name, rows) (excel_sheets (sort_values sample_rows)) ->
        subsequence rows (sort_values sample_rows)
        /\ StronglySorted row_before rows).
Proof.
  apply (workbook_partition sample_rows
           (excel_sheets (sort_values sample_rows)) (sort_values sample_rows)).
  reflexivity.
Defined.

(** ** ASCII text *)

Lemma utf8_decode_ascii (h : errors) (bs : list N) :
  Forall (fun b => b < 128) bs -> utf8_decode h bs = Some bs.
Proof.
  induction 1 as [|b bs Hb _ IH]; [reflexivity|].
  cbn [utf8_decode]. apply N.ltb_lt in Hb. rewrite Hb.
  unfold emit. now rewrite IH.
Qed.

Lemma utf8_decode_ignore_length (n : nat) :
  forall bs, (List.length bs <= n)%nat ->
             exists t, utf8_decode Ignore bs = Some t
                       /\ (List.length t <= List.length bs)%nat.
Proof.
  induction n as [|n IH]; intros bs Hn.
  - destruct bs; [exists []; split; [reflexivity | simpl; lia]
                 | simpl in Hn; lia].
  - destruct bs as [|b0 r1]; [exists []; split; [reflexivity | simpl; lia]|].
    simpl in Hn.
    pose proof (fun r (H : (List.length r <= n)%nat) => IH r H) as IH'.
    cbn [utf8_decode].
    repeat match goal with
           | |- context [if ?c then _ else _] => destruct c
           | |- context [match ?l with [] => _ | _ :: _ => _ end] =>
               is_var l; destruct l
           end;
      unfold emit, on_error; simpl in Hn;
      try (eexists; split; [reflexivity | simpl; lia]);
      match goal with
      | |- context [utf8_decode Ignore ?r] =>
          let t := fresh "t" in
          let E := fresh "E" in
          let L := fresh "L" in
          destruct (IH' r) as [t [E L]];
          [simpl; lia
          | rewrite E; simpl; eexists; split;
            [reflexivity | simpl in *; lia]]
      end.
Qed.

(** X10. The text of an entry has at most as many characters as the entry
    has bytes, and an entry of ASCII bytes is decoded to the same
    characters. *)
Theorem decode_text_ascii (raw : list byte) :
  (exists t, decode_text raw = Some t
             /\ (List.length t <= List.length raw)%nat)
  /\ (Forall (fun b => Byte.to_N b < 128) raw ->
      decode_text raw = Some (List.map Byte.to_N raw)).
Proof.
  split.
  - destruct (utf8_decode_ignore_length _ (List.map Byte.to_N raw)
                (Nat.le_refl _)) as [t [E L]].
    exists t. rewrite length_map in L. split; [|exact L].
    unfold decode_text, decode_with, decode_loop, bytes_decode. now rewrite E.
  - intros H. unfold decode_text, decode_with, decode_loop, bytes_decode.
    rewrite utf8_decode_ascii; [reflexivity|]. now apply Forall_map.
Qed.

Lemma decode_text_ascii_witness :
  decode_text (ascii_bytes total_line)
  = Some (List.map Byte.to_N (ascii_bytes total_line)).
Proof.
  apply (proj2 (decode_text_ascii (ascii_bytes total_line))).
  repeat constructor.
Defined.

(** On ASCII strings [str.lower] changes the capital letters only: the
    [lower] of the column normalizer, whose argument has ASCII letters,
    digits and underscores only, is [str.lower]. *)
Lemma lower_of_ascii (c : char) : c < 128 -> lower_of c = [lower_char c].
Proof.
  intros H.
  assert (F : forallb (fun c => text_eqb (lower_of c) [lower_char c])
                (List.map N.of_nat (seq 0 128)) = true)
    by (vm_compute; reflexivity).
  rewrite forallb_forall in F.
  apply text_eqb_eq, F. rewrite <- (N2Nat.id c).
  apply in_map, in_seq. lia.
Qed.

Lemma str_lower_ascii (s : text) :
  Forall (fun c => c < 128) s -> str_lower s = lower s.
Proof.
  unfold str_lower. generalize false.
  induction s as [|c s IH]; intros before H; [reflexivity|].
  inversion H as [|? ? Hc Hs]; subst.
  cbn [lower_from lower List.map].
  assert (E : (c =? 931) = false) by (apply N.eqb_neq; lia).
  rewrite E, (lower_of_ascii c Hc). cbn [app]. f_equal.
  now apply IH.
Qed.

(** ** Command line *)

Lemma run_directory_filter ET_fromstring ZipFile
    (listing : list (text * list byte)) :
  run_directory ET_fromstring ZipFile listing
  = run_directory ET_fromstring ZipFile
      (filter (fun e => is_wid (fst e)) listing).
Proof.
  induction listing as [|[f raw] l IH]; simpl; [reflexivity|].
  destruct (is_wid f) eqn:E; simpl; rewrite ?E; [|exact IH].
  destruct (extract_field_mappings ET_fromstring ZipFile raw);
    now rewrite ?IH.
Qed.

(** X11. In directory mode the entries whose name does not end in [.wid],
    in any case of the letters, are passed over; and a container that
    raises ends the run: the containers listed after it are not processed,
    whatever they hold. *)
Theorem directory_run_stops ET_fromstring
    (ZipFile : list byte -> option archive)
    (before after : list (text * list byte)) (f : text) (raw : list byte)
    (e : exn) :
  is_wid f = true ->
  extract_field_mappings ET_fromstring ZipFile raw = Raised e ->
  (forall g graw, In (g, graw) before -> is_wid g = true ->
                  forall e', extract_field_mappings ET_fromstring ZipFile graw
                             <> Raised e') ->
  main ET_fromstring ZipFile (InputDir (before ++ (f, raw) :: after))
  = List.map (fun entry => extract_field_mappings ET_fromstring ZipFile
                             (snd entry))
             (filter (fun entry => is_wid (fst entry)) before)
    ++ [Raised e].
Proof.
  intros Hf He. unfold main.
  induction before as [|[g graw] l IH]; intros Hok; simpl.
  - now rewrite Hf, He.
  - destruct (is_wid g) eqn:Eg; simpl.
    + pose proof (Hok g graw (or_introl eq_refl) Eg) as Hg.
      destruct (extract_field_mappings ET_fromstring ZipFile graw) eqn:Er.
      * exfalso. now apply (Hg e0).
      * f_equal. apply IH. intros g' r' Hin. apply Hok. now right.
      * f_equal. apply IH. intros g' r' Hin. apply Hok. now right.
    + apply IH. intros g' r' Hin. apply Hok. now right.
Qed.

Lemma directory_run_stops_witness :
  main read_xml (fun _ => Some total_archive)
       (InputDir ([(py "notes.txt", []); (py "a.WID", zip_signature)]
                  ++ (py "b.wid", []) :: [(py "c.wid", zip_signature)]))
  = List.map (fun entry => extract_field_mappings read_xml
                             (fun _ => Some total_archive) (snd entry))
             (filter (fun entry => is_wid (fst entry))
                     [(py "notes.txt", []); (py "a.WID", zip_signature)])
    ++ [Raised (ValueError "Not a valid .wid (no ZIP signature).")].
Proof.
  apply directory_run_stops.
  - reflexivity.
  - reflexivity.
  - intros g graw [[= <- <-] | [[= <- <-] | []]] Hw e'.
    + discriminate.
    + vm_compute. discriminate.
Defined.

(** ** Lookup after the scans *)

Lemma text_eqb_sym (a b : text) : text_eqb a b = text_eqb b a.
Proof.
  destruct (text_eqb a b) eqn:E.
  - apply text_eqb_eq in E. subst. now rewrite text_eqb_refl.
  - destruct (text_eqb b a) eqn:E'; [|reflexivity].
    apply text_eqb_eq in E'. subst. now rewrite text_eqb_refl in E.
Qed.

Lemma dict_get_set_same {V} (k : text) (v : V) (d : dict V) :
  dict_get k (dict_set k v d) = Some v.
Proof.
  induction d as [|[k0 v0] d IH]; simpl.
  - now rewrite text_eqb_refl.
  - destruct (text_eqb k0 k) eqn:E; simpl; rewrite E; [reflexivity | exact IH].
Qed.

Lemma dict_get_set_other {V} (k k' : text) (v : V) (d : dict V) :
  text_eqb k' k = false -> dict_get k (dict_set k' v d) = dict_get k d.
Proof.
  intros Hk. induction d as [|[k0 v0] d IH]; simpl.
  - now rewrite Hk.
  - destruct (text_eqb k0 k') eqn:E; simpl.
    + apply text_eqb_eq in E. subst k0. now rewrite Hk.
    + destruct (text_eqb k0 k); [reflexivity | exact IH].
Qed.

Lemma find_snoc {A} (p : A -> bool) (l : list A) (x : A) :
  find p (l ++ [x])
  = match find p l with
    | Some y => Some y
    | None => if p x then Some x else None
    end.
Proof.
  induction l as [|y l IH]; simpl; [reflexivity|].
  destruct (p y); [reflexivity | exact IH].
Qed.

(** After a run of assignments the value under a key is that of the last
    assignment to it. *)
Lemma fold_set_get {A V} (f : A -> text) (g : A -> V) (ms : list A)
    (k : text) :
  forall d,
    dict_get k (fold_left (fun d m => dict_set (f m) (g m) d) ms d)
    = match find (fun m => text_eqb (f m) k) (rev ms) with
      | Some m => Some (g m)
      | None => dict_get k d
      end.
Proof.
  induction ms as [|m ms IH]; intros d; simpl; [reflexivity|].
  rewrite IH, find_snoc.
  destruct (find (fun m0 => text_eqb (f m0) k) (rev ms)); [reflexivity|].
  destruct (text_eqb (f m) k) eqn:E.
  - apply text_eqb_eq in E. subst k. apply dict_get_set_same.
  - now apply dict_get_set_other.
Qed.

Lemma fold_setdefault_get {A V} (f : A -> text) (v0 : V) (ms : list A)
    (k : text) :
  forall d,
    dict_get k (fold_left (fun d m => dict_setdefault (f m) v0 d) ms d)
    = match dict_get k d with
      | Some v => Some v
      | None => if existsb (fun m => text_eqb (f m) k) ms then Some v0 else None
      end.
Proof.
  induction ms as [|m ms IH]; intros d; simpl.
  - now destruct (dict_get k d).
  - rewrite IH. unfold dict_setdefault.
    destruct (dict_get (f m) d) eqn:Em.
    + destruct (dict_get k d) eqn:Ek; [reflexivity|].
      destruct (text_eqb (f m) k) eqn:E; [|reflexivity].
      apply text_eqb_eq in E. subst k. congruence.
    + destruct (dict_get k d) eqn:Ek.
      * now rewrite (dict_get_app_some _ _ _ _ Ek).
      * rewrite (dict_get_app_right _ _ _ Ek). simpl.
        now destruct (text_eqb (f m) k).
Qed.

(** X12. Lookup in the dictionary of the Direct-Mapping Scanner.  A token
    of an assignment line has the name and value of the last such line for
    it; a token that occurs only bare has the empty entry; any other key is
    absent. *)
Theorem direct_mappings_lookup (txt k : text) :
  dict_get k (extract_direct_mappings txt)
  = match find (fun m => text_eqb (group 3 m) k) (rev (finditer pat1 txt)) with
    | Some m => Some (mkDirectMapping (strip (group 1 m)) (strip (group 2 m)))
    | None =>
        if existsb (fun m => text_eqb (group 1 m) k) (finditer pat2 txt)
        then Some empty_mapping
        else None
    end.
Proof.
  unfold extract_direct_mappings, direct_pass2, direct_pass1.
  rewrite (fold_setdefault_get (group 1)).
  rewrite (fold_set_get (group 3)
             (fun m => mkDirectMapping (strip (group 1 m)) (strip (group 2 m)))).
  destruct (find _ (rev (finditer pat1 txt))); reflexivity.
Qed.

Lemma numbered_get {A V} (key : nat -> text) (val : A -> V) (i : nat) :
  (forall a b, key a = key b -> a = b) ->
  forall (ms : list A) (a : nat) (d : dict V),
    dict_get (key i)
      (fold_left (fun out im => dict_set (key (fst im)) (val (snd im)) out)
                 (combine (seq a (List.length ms)) ms) d)
    = if (a <=? i)%nat
      then match nth_error ms (i - a) with
           | Some m => Some (val m)
           | None => dict_get (key i) d
           end
      else dict_get (key i) d.
Proof.
  intros Hinj. induction ms as [|m ms IH]; intros a d; simpl.
  - destruct (a <=? i)%nat; [|reflexivity]. now destruct (i - a)%nat.
  - rewrite IH.
    assert (Hother : a <> i ->
                     dict_get (key i) (dict_set (key a) (val m) d)
                     = dict_get (key i) d).
    { intros Hne. apply dict_get_set_other.
      destruct (text_eqb (key a) (key i)) eqn:E; [|reflexivity].
      apply text_eqb_eq, Hinj in E. contradiction. }
    destruct (Nat.leb_spec (S a) i) as [H1 | H1];
      destruct (Nat.leb_spec a i) as [H2 | H2]; try lia.
    + replace (i - a)%nat with (S (i - S a)) by lia. simpl.
      destruct (nth_error ms (i - S a)); [reflexivity|].
      apply Hother. lia.
    + assert (a = i) by lia. subst a. rewrite Nat.sub_diag. simpl.
      apply dict_get_set_same.
    + apply Hother. lia.
Qed.

(** X13. Lookup in the dictionary of the Formula Attribute Scanner.  The
    record numbered [i] holds the [i]-th match of the last of the kinds
    formula, expression, calculation that has that many matches; the
    [i]-th matches of the kinds before it are not kept. *)
Theorem formula_records_lookup (txt dp_id : text) (i : nat) :
  dict_get (form_key dp_id i) (extract_dp_formulas txt dp_id)
  = match nth_error (finditer (attr_re "calculation=") txt) i with
    | Some m => Some (strip (group 1 m))
    | None =>
        match nth_error (finditer (attr_re "expression=") txt) i with
        | Some m => Some (strip (group 1 m))
        | None =>
            match nth_error (finditer (attr_re "formula=") txt) i with
            | Some m => Some (strip (group 1 m))
            | None => None
            end
        end
    end.
Proof.
  unfold extract_dp_formulas, formula_patterns, enumerate. cbn [fold_left].
  rewrite !(numbered_get (form_key dp_id) (fun m => strip (group 1 m)) i
              (form_key_inj dp_id)).
  simpl. rewrite Nat.sub_0_r. reflexivity.
Qed.

(** ** Rows that the merger adds *)

Lemma merge_direct_added dp_id dp_name (direct_map : dict DirectMapping) :
  forall out,
  exists added,
    merge_direct dp_id dp_name direct_map out = out ++ added
    /\ (List.length added <= List.length direct_map)%nat
    /\ Forall (fun r => Data_Provider_ID r = dp_id /\ Data_Provider r = dp_name)
              added.
Proof.
  induction direct_map as [|[tid mm] dm IH]; intros out.
  - exists []. simpl. rewrite app_nil_r. repeat split; [lia | constructor].
  - unfold merge_direct; simpl.
    destruct (has_technical_id tid out).
    + destruct (IH out) as [a [E [L F]]]. exists a.
      repeat split; [exact E | lia | exact F].
    + destruct (IH (out ++ [direct_row dp_id dp_name tid mm]))
        as [a [E [L F]]].
      exists (direct_row dp_id dp_name tid mm :: a). repeat split.
      * unfold merge_direct in E. rewrite E, <- app_assoc. reflexivity.
      * simpl. lia.
      * constructor; [now split | exact F].
Qed.

(** X14. The merger only appends.  The rows already in the list stay in
    place at its head; every added row carries the provider id and label of
    the call; and the number of added rows is at least the number of miner
    and formula records and at most the number of all records given. *)
Theorem merger_appends dp_id dp_name (field_info : dict FieldInfo)
    (direct_map : dict DirectMapping) (dp_forms : dict text)
    (out : list MappingRecord) :
  exists added,
    process_enhanced_mappings dp_id dp_name field_info direct_map dp_forms out
    = out ++ added
    /\ Forall (fun r => Data_Provider_ID r = dp_id /\ Data_Provider r = dp_name)
              added
    /\ (List.length field_info + List.length dp_forms <= List.length added
        <= List.length field_info + List.length direct_map
           + List.length dp_forms)%nat.
Proof.
  unfold process_enhanced_mappings.
  rewrite merge_forms_rows, merge_fields_rows.
  destruct (merge_direct_added dp_id dp_name direct_map
              (out ++ List.map (fun kv => field_row dp_id dp_name (fst kv) (snd kv))
                               field_info))
    as [a [-> [L F]]].
  exists (List.map (fun kv => field_row dp_id dp_name (fst kv) (snd kv)) field_info
          ++ a
          ++ List.map (fun kv => formula_row dp_id dp_name (fst kv) (snd kv))
                      dp_forms).
  repeat split.
  - now rewrite <- !app_assoc.
  - apply Forall_app. split; [|apply Forall_app; split; [exact F|]];
      apply Forall_map, Forall_forall; intros kv _; now split.
  - rewrite !length_app, !length_map. lia.
  - rewrite !length_app, !length_map. lia.
Qed.

(** ** The matcher finds what the declarative reading allows *)

Lemma rep_complete (p : char -> bool) (g : bool)
    (k : text -> mstate -> option mstate) (rest : text) (w : text) :
  Forall (fun c => p c = true) w ->
  forall lo hi st,
    (lo <= List.length w)%nat -> within hi (List.length w) ->
    k rest (eat_all w st) <> None ->
    rep p g k lo hi (w ++ rest) st <> None.
Proof.
  induction 1 as [|c w Hc Hw IH]; intros lo hi st Hlo Hhi Hk.
  - simpl in Hlo. assert (lo = 0%nat) by lia. subst lo. simpl in Hk. simpl.
    destruct rest as [|c s]; simpl; [exact Hk|].
    destruct (p c && may_take hi); [|exact Hk].
    destruct g.
    + destruct (rep p true k 0 (option_map pred hi) s (eat c st));
        [discriminate | exact Hk].
    + destruct (k (c :: s) st); [discriminate | contradiction].
  - assert (Hm : may_take hi = true).
    { destruct hi as [[|n]|]; simpl in *; trivial. lia. }
    assert (Hmore : rep p g k (pred lo) (option_map pred hi) (w ++ rest)
                        (eat c st) <> None).
    { apply IH.
      - simpl in Hlo. lia.
      - destruct hi as [[|n]|]; simpl in *; trivial; lia.
      - exact Hk. }
    cbn [app rep]. rewrite Hc, Hm. simpl.
    destruct g.
    + destruct (rep p true k (pred lo) (option_map pred hi) (w ++ rest)
                    (eat c st)); [discriminate | contradiction].
    + destruct lo; [|exact Hmore].
      destruct (k (c :: w ++ rest) st); [discriminate | exact Hmore].
Qed.

Lemma run_complete r s st rest st' :
  path r s st rest st' -> run r s st <> None.
Proof.
  induction 1 as [s st | p r c s st rest st' Hc _ IH
                  | p lo hi g r u s st rest st' F L W _ IH
                  | r s st rest st' _ IH | r s st rest st' _ IH
                  | r s st rest st' Hb _ IH]; simpl.
  - discriminate.
  - now rewrite Hc.
  - now apply rep_complete.
  - exact IH.
  - exact IH.
  - now rewrite Hb.
Qed.

Lemma scan_complete (r : regex) (pre post : text) :
  (forall pv, match_at r pv post <> None) -> post <> [] ->
  forall pv, scan r pv 0 (pre ++ post) <> [].
Proof.
  intros Hm Hne. induction pre as [|c pre IH]; intros pv; simpl.
  - destruct post as [|c s]; [contradiction|]. simpl.
    specialize (Hm pv). destruct (match_at r pv (c :: s)); [discriminate|].
    contradiction.
  - destruct (match_at r pv (c :: pre ++ post)); [discriminate | apply IH].
Qed.

Lemma path_chrs (ps : list (char -> bool)) (w : text) r s st rest st' :
  Forall2 (fun p x => p x = true) ps w ->
  path r s (eat_all w st) rest st' ->
  path (List.map Chr ps ++ r) (w ++ s) st rest st'.
Proof.
  intros H. revert st. induction H as [|p x ps w Hp _ IH]; intros st P.
  - exact P.
  - simpl. constructor; [exact Hp | now apply IH].
Qed.

Lemma path_spelled (word : string) (w : text) r s st rest st' :
  spells word w ->
  path r s (eat_all w st) rest st' ->
  path (liti word ++ r) (w ++ s) st rest st'.
Proof.
  intros H P. unfold liti. rewrite <- (map_map ci_eq Chr).
  apply path_chrs; [|exact P].
  unfold spells in H. clear P. induction H; simpl; constructor; trivial.
Qed.

Lemma path_star (p : char -> bool) (g : bool) (w : text) r s st rest st' :
  Forall (fun c => p c = true) w ->
  path r s (eat_all w st) rest st' ->
  path (Rep p 0 None g :: r) (w ++ s) st rest st'.
Proof.
  intros F P. constructor; trivial; [lia | exact I].
Qed.

Lemma path_one (a : ascii) r s st rest st' :
  path r s (eat (ch a) st) rest st' ->
  path (one a :: r) (ch a :: s) st rest st'.
Proof.
  intros P. constructor; [apply N.eqb_refl | exact P].
Qed.

(** X15. Whenever the text has an opening tag whose name spells
    [QuerySpec] and, after it, a closing tag that spells it too, with no
    [>] inside either tag, [extract_xml] returns a fragment. *)
Theorem extract_xml_finds (pre a q1 b c d q2 e post : text) :
  spells "QuerySpec" q1 -> spells "QuerySpec" q2 ->
  Forall (fun x => not_gt x = true) a -> Forall (fun x => not_gt x = true) b ->
  Forall (fun x => not_gt x = true) d -> Forall (fun x => not_gt x = true) e ->
  exists x,
    extract_xml (pre ++ [60] ++ a ++ q1 ++ b ++ [62] ++ c
                 ++ [60; 47] ++ d ++ q2 ++ e ++ [62] ++ post)
    = Some x.
Proof.
  intros Hq1 Hq2 Ha Hb Hd He.
  set (frag := [60] ++ a ++ q1 ++ b ++ [62] ++ c
               ++ [60; 47] ++ d ++ q2 ++ e ++ [62] ++ post).
  assert (Hm : forall pv, match_at queryspec_re pv frag <> None).
  { intros pv. unfold match_at.
    assert (P : exists st',
               path queryspec_re frag (MState pv 0 None []) post st').
    { eexists. unfold queryspec_re, frag.
      apply path_open. apply (path_one "<").
      apply path_star; [exact Ha|].
      apply path_spelled; [exact Hq1|].
      apply path_star; [exact Hb|].
      apply (path_one ">").
      apply path_star; [apply Forall_forall; reflexivity|].
      apply (path_one "<"). apply (path_one "/").
      apply path_star; [exact Hd|].
      apply path_spelled; [exact Hq2|].
      apply path_star; [exact He|].
      apply (path_one ">").
      apply path_close. apply path_nil. }
    destruct P as [st' P]. apply run_complete in P.
    destruct (run queryspec_re frag (MState pv 0 None [])); [discriminate|].
    contradiction. }
  pose proof (scan_complete queryspec_re pre frag Hm
                ltac:(unfold frag; discriminate) None) as Hs.
  unfold extract_xml, search, finditer.
  destruct (pre ++ frag) as [|c0 t0] eqn:E.
  - destruct pre; discriminate.
  - destruct (scan queryspec_re None 0 (c0 :: t0)) as [|m ms];
      [contradiction|].
    simpl. eauto.
Qed.

Lemma extract_xml_finds_witness :
  exists x,
    extract_xml (py "junk" ++ [60] ++ [] ++ py "QUERYSPEC" ++ py " v=1" ++ [62]
                 ++ py "<o/>" ++ [60; 47] ++ py "ns:" ++ py "queryspec" ++ []
                 ++ [62] ++ py "tail")
    = Some x.
Proof.
  apply extract_xml_finds; repeat constructor.
Defined.

(** ** Data-Provider Classifier *)

Lemma fold_bind_invariant_in {A B} (P : B -> Prop) (step : A -> B -> result B)
    (l0 l : list A) :
  incl l l0 ->
  (forall a b b', In a l0 -> P b -> step a b = inr b' -> P b') ->
  forall b r,
    P b -> fold_left (fun acc a => bind acc (step a)) l (inr b) = inr r -> P r.
Proof.
  intros Hincl Hstep. induction l as [|a l IH]; intros b r Hb H; simpl in H.
  - now injection H as <-.
  - destruct (step a b) as [e|b'] eqn:E.
    + rewrite fold_bind_inl in H. discriminate.
    + apply (IH (fun x Hx => Hincl x (or_intror Hx)) b' r); [|exact H].
      apply (Hstep a b); trivial. apply Hincl. now left.
Qed.

Lemma classify_label (dp : text) (qxml : option text) :
  label_of dp (classify dp qxml).
Proof.
  unfold classify, label_of. destruct qxml as [x|]; [|tauto].
  repeat match goal with
         | |- context [if ?c then _ else _] => destruct c
         end; tauto.
Qed.

Lemma dp_number_re_shape :
  dp_number_re = [GOpen] ++ [Chr (N.eqb 68); Chr (N.eqb 80); plus re_d]
                 ++ [GClose].
Proof. reflexivity. Qed.

Lemma search_dp_number (fn : text) (m : rmatch) :
  search dp_number_re fn = Some m ->
  dp_number (group 1 m) /\ infix (group 1 m) fn.
Proof.
  unfold search, finditer. intros H.
  assert (Hin : In m (scan dp_number_re None 0 fn)).
  { destruct (scan dp_number_re None 0 fn); [discriminate|].
    injection H as <-. now left. }
  apply scan_matches in Hin as [pre [post [pv [-> M]]]].
  rewrite dp_number_re_shape in M.
  apply whole_group_match in M as [rest [st [Hs [P _]]]]; [|reflexivity].
  split; [|exists pre, rest; now rewrite Hs at 1].
  apply path_first_chr in P as [d [s1 [E1 [Hd P]]]].
  apply path_first_chr in P as [p [s2 [E2 [Hp P]]]].
  apply path_first_plus in P as [ds [s3 [E3 [Hds [Fds P]]]]].
  assert (E4 : s3 = rest) by (inversion P; reflexivity).
  apply N.eqb_eq in Hd, Hp.
  exists ds. repeat split; trivial.
  apply (app_inv_tail rest). rewrite <- Hs, E1, E2, E3, E4, <- Hd, <- Hp.
  reflexivity.
Qed.

(** X16. The dictionary of the classifier.  Its keys are distinct tokens
    [DP<digits>], the digits of the Unicode class [\d], each taken from the
    name of an entry that ends in [DP_Generic], and each label is BEx, EMP,
    universes or the token itself. *)
Theorem provider_labels (z : archive) (dp_names : dict text) :
  extract_data_provider_names z = inr dp_names ->
  NoDup (keys dp_names) /\ Forall (label_ok z) dp_names.
Proof.
  unfold extract_data_provider_names.
  apply (fold_bind_invariant_in
           (fun d : dict text => NoDup (keys d) /\ Forall (label_ok z) d)
           (fun fn dp_names => classify_entry z (inr dp_names) fn)
           (namelist z) (namelist z) (incl_refl _));
    [|split; constructor].
  intros fn d d' Hfn [Hnd Hok] H. unfold classify_entry in H. cbn [bind] in H.
  destruct (endswith (py "DP_Generic") fn) eqn:Ee; [|now injection H as <-].
  destruct (search dp_number_re fn) as [m|] eqn:Es; [|now injection H as <-].
  destruct (decoded (zread z fn)) as [e|txt]; [discriminate|].
  cbn [bind] in H. injection H as <-.
  apply search_dp_number in Es as [Hdp Hinf].
  split; [now apply dict_set_distinct|].
  apply dict_set_all; [|exact Hok].
  split; [exact Hdp|]. split; [apply classify_label|].
  exists fn. now repeat split.
Qed.

Lemma provider_labels_witness :
  NoDup (keys [(py "DP0", py "DP0")])
  /\ Forall (label_ok revenue_archive) [(py "DP0", py "DP0")].
Proof.
  apply (provider_labels revenue_archive). vm_compute. reflexivity.
Defined.

(** A digit of another script is a digit of the provider token. *)
Example provider_labels_arabic_digit :
  extract_data_provider_names
    [(py "Data/DATAPROVIDERS/" ++ [68; 80; 1633] ++ py "/DP_Generic", [])]
  = inr [([68; 80; 1633], [68; 80; 1633])].
Proof. vm_compute. reflexivity. Qed.

(** ** Direct-mapping rows across providers *)

Lemma filter_permutation {A} (p : A -> bool) (l l' : list A) :
  Permutation l l' -> Permutation (filter p l) (filter p l').
Proof.
  induction 1 as [|x l l' _ IH|x y l|l l' l'' _ IH1 _ IH2]; simpl.
  - constructor.
  - destruct (p x); [now constructor | exact IH].
  - destruct (p x), (p y); try reflexivity. apply perm_swap.
  - now transitivity (filter p l').
Qed.

Lemma field_row_not_direct dp_id dp_name fid fi :
  is_direct (field_row dp_id dp_name fid fi) = false.
Proof.
  unfold is_direct, field_row. cbn [Description].
  destruct (text_eqb _ _) eqn:E; [|reflexivity].
  apply text_eqb_eq in E. exfalso.
  assert (H : In 44 (fi_element_type fi ++ py ", type=" ++ fi_data_type fi)).
  { apply in_or_app. right. now left. }
  rewrite E in H. vm_compute in H. intuition discriminate.
Qed.

Lemma scan_documents_descriptions words prefix patterns (z : archive)
    (results : list DocumentLevelEntry) :
  scan_documents words prefix patterns z = inr results ->
  Forall (fun e => exists fn, de_description e = py "From " ++ fn) results.
Proof.
  unfold scan_documents.
  apply (fold_bind_invariant
           (Forall (fun e => exists fn, de_description e = py "From " ++ fn))
           (fun fn results =>
              if path_mentions words fn then
                match decode_document (zread z fn) with
                | None => inl UnicodeDecodeError
                | Some txt =>
                    inr (fold_left
                           (fun results pat =>
                              fold_left (document_entry prefix fn)
                                        (finditer pat txt) results)
                           patterns results)
                end
              else inr results)); [|constructor].
  intros fn b b' Hb H.
  destruct (path_mentions words fn); [|now injection H as <-].
  destruct (decode_document (zread z fn)) as [txt|]; [|discriminate].
  injection H as <-.
  apply fold_left_invariant; [|exact Hb].
  intros rs pat Hrs. apply fold_left_invariant; [|exact Hrs].
  intros rs' m Hrs'. unfold document_entry.
  apply Forall_app. split; [exact Hrs'|]. constructor; [|constructor].
  now exists fn.
Qed.

Lemma direct_ids_after_merge dp_id dp_name (field_info : dict FieldInfo)
    (direct_map : dict DirectMapping) (dp_forms : dict text)
    (out : list MappingRecord) :
  NoDup (List.map Technical_ID (filter is_direct out)) ->
  NoDup (List.map Technical_ID
           (filter is_direct
              (process_enhanced_mappings dp_id dp_name field_info direct_map
                                         dp_forms out))).
Proof.
  intros H. unfold process_enhanced_mappings.
  rewrite merge_forms_rows, filter_app.
  replace (filter is_direct
             (List.map (fun kv => formula_row dp_id dp_name (fst kv) (snd kv))
                       dp_forms)) with (@nil MappingRecord)
    by (induction dp_forms; [reflexivity | assumption]).
  rewrite app_nil_r.
  assert (H1 : NoDup (List.map Technical_ID
                        (filter is_direct
                           (merge_fields dp_id dp_name field_info out)))).
  { rewrite merge_fields_rows, filter_app.
    replace (filter is_direct
               (List.map (fun kv => field_row dp_id dp_name (fst kv) (snd kv))
                         field_info)) with (@nil MappingRecord).
    - now rewrite app_nil_r.
    - induction field_info as [|kv fi IH]; [reflexivity|]. simpl.
      now rewrite field_row_not_direct. }
  revert H1. generalize (merge_fields dp_id dp_name field_info out).
  clear. induction direct_map as [|[tid mm] dm IH]; intros acc H; [exact H|].
  unfold merge_direct; simpl.
  destruct (has_technical_id tid acc) eqn:E; [now apply IH|].
  apply IH. rewrite filter_app, map_app. simpl.
  apply NoDup_app; [exact H | repeat constructor; intros [] |].
  intros x Hx [<- | []].
  apply in_map_iff in Hx as [r [Hr Hin]]. apply filter_In in Hin as [Hin _].
  assert (has_technical_id tid acc = true); [|congruence].
  apply has_technical_id_spec. now exists r.
Qed.

Lemma collected_direct_ids ET_fromstring (z : archive)
    (mappings : list MappingRecord) :
  collect_mappings ET_fromstring z = inr mappings ->
  NoDup (List.map Technical_ID (filter is_direct mappings)).
Proof.
  unfold collect_mappings.
  destruct (extract_data_provider_names z) as [e|dp_names]; [discriminate|].
  destruct (extract_calculated_fields z) as [e|cf] eqn:Ecf; [discriminate|].
  destruct (extract_report_variables z) as [e|rv] eqn:Erv; [discriminate|].
  cbn [bind].
  destruct (fold_left (provider_step ET_fromstring z dp_names) (dp_folders z)
                      (inr [])) as [e|m] eqn:E; [discriminate|].
  cbn [bind]. intros [= <-].
  assert (Hdoc : forall pid label ftype (es : list DocumentLevelEntry),
             Forall (fun e => exists fn, de_description e = py "From " ++ fn) es ->
             filter is_direct (List.map (document_row pid label ftype) es) = []).
  { intros pid label ftype es F. induction F as [|e es [fn He] _ IH];
      [reflexivity|].
    simpl. unfold is_direct at 1, document_row at 1. simpl. rewrite He.
    exact IH. }
  rewrite !filter_app.
  rewrite (Hdoc _ _ _ cf (scan_documents_descriptions _ _ _ _ _ Ecf)).
  rewrite (Hdoc _ _ _ rv (scan_documents_descriptions _ _ _ _ _ Erv)).
  rewrite !app_nil_r. revert E.
  apply (fold_bind_invariant
           (fun l => NoDup (List.map Technical_ID (filter is_direct l)))
           (fun dp_folder mappings =>
              provider_step ET_fromstring z dp_names (inr mappings)
                            dp_folder)); [|constructor].
  intros f b b' Hb H. unfold provider_step in H. cbn [bind] in H.
  destruct (second_last (split_on 47 f)) as [dp_id|]; [|discriminate].
  destruct (negb (name_in (f ++ py "DP_Generic") (namelist z)));
    [now injection H as <-|].
  destruct (decoded (zread z (f ++ py "DP_Generic"))) as [e|txt];
    [discriminate|].
  cbn [bind] in H. injection H as <-. now apply direct_ids_after_merge.
Qed.

(** X17. In a written table no two rows of the Direct-Mapping Scanner have
    the same Technical ID, whichever providers they come from. *)
Theorem direct_rows_distinct ET_fromstring (z : archive)
    (excel : list sheet) (table : list MappingRecord) :
  extract_from_archive ET_fromstring z = Written excel table ->
  NoDup (List.map Technical_ID (filter is_direct table)).
Proof.
  unfold extract_from_archive.
  destruct (collect_mappings ET_fromstring z) as [e|m] eqn:E; [discriminate|].
  apply collected_direct_ids in E. unfold write_report.
  destruct m as [|r l]; [discriminate|]. intros [= _ <-].
  apply (Permutation_NoDup
           (Permutation_map Technical_ID
              (filter_permutation is_direct _ _ (sort_values_perm (r :: l))))).
  exact E.
Qed.

Lemma direct_rows_distinct_witness :
  NoDup (List.map Technical_ID
           (filter is_direct
              [mkRow (py "DP1") (py "DP1") (py "DP1.DO7") (py "Total")
                     (py "Data Field") [] (py "Direct mapping") (py "42") []
                     (py "total") []])).
Proof.
  apply (direct_rows_distinct read_xml shared_archive
           (excel_sheets
              [mkRow (py "DP1") (py "DP1") (py "DP1.DO7") (py "Total")
                     (py "Data Field") [] (py "Direct mapping") (py "42") []
                     (py "total") []])).
  vm_compute. reflexivity.
Defined.
